(** * Soya: the request-handling core and the data-component wrapper

  A shallow embedding of [Application] (the server-side dispatcher:
  middleware chain, routing, store hydration and render sequencing, error
  boundary) and of [connect.js] (the wrapper component that subscribes a
  React component to the store), with the properties the specification
  states about them. *)

From Stdlib Require Import ZArith NArith List String Ascii Lia Bool DecimalString.
From stdpp Require Import base option list gmap strings.

Local Open Scope string_scope.
Local Open Scope list_scope.

(** ** JavaScript values, errors and the outcome of a call *)

Module Js.

(** An [Error] instance: [name] tells [Error] from [TypeError]. *)
Record ErrorObj := { err_name : string; err_message : string }.

(** The values user code can hand to the framework ([@param {any}]).
    [VNumber n] is a number with an integer value.
    [VObject conv] is an object that is not an [Error]; [conv] is what
    converting it to a string yields, [None] when the conversion itself
    throws (an object without a usable [toString], as
    [Object.create(null)]). *)
Inductive Value :=
| VUndefined
| VNull
| VBool (b : bool)
| VNumber (n : Z)
| VString (s : string)
| VSymbol (description : string)
| VError (e : ErrorObj)
| VObject (conv : option string).

(** A call either returns or throws a value. *)
Inductive Result (A : Type) :=
| Ok (a : A)
| Throw (v : Value).
Arguments Ok {A} a.
Arguments Throw {A} v.

Definition new_Error (message : string) : Value :=
  VError {| err_name := "Error"; err_message := message |}.

Definition new_TypeError (message : string) : Value :=
  VError {| err_name := "TypeError"; err_message := message |}.

(** [v instanceof Error] *)
Definition instanceof_Error (v : Value) : bool :=
  match v with VError _ => true | _ => false end.

(** [typeof v == 'string'] *)
Definition typeof_string (v : Value) : bool :=
  match v with VString _ => true | _ => false end.

Definition string_of_Z (n : Z) : string := NilZero.string_of_int (Z.to_int n).

(** The string conversion [+] applies to its right operand when the left
    one is a string.  Symbols and objects that cannot be converted to a
    primitive make it throw a [TypeError]. *)
Definition ToString (v : Value) : Result string :=
  match v with
  | VUndefined => Ok "undefined"
  | VNull => Ok "null"
  | VBool true => Ok "true"
  | VBool false => Ok "false"
  | VNumber n => Ok (string_of_Z n)
  | VString s => Ok s
  | VSymbol _ => Throw (new_TypeError "Cannot convert a Symbol value to a string")
  | VError e =>
      Ok (if bool_decide (err_message e = "") then err_name e
          else if bool_decide (err_name e = "") then err_message e
          else err_name e +:+ ": " +:+ err_message e)
  | VObject (Some s) => Ok s
  | VObject None => Throw (new_TypeError "Cannot convert object to primitive value")
  end.

(** ['literal' + v] *)
Definition concat (prefix : string) (v : Value) : Result string :=
  match ToString v with
  | Ok s => Ok (prefix +:+ s)
  | Throw e => Throw e
  end.

(** *** Plain objects

    A plain object ([{}]) is given by its own properties; everything else
    it has comes from [Object.prototype]. *)

(** The names a plain object inherits from [Object.prototype].  Reading
    one of them from an object that has no own property of that name gives
    the inherited member: a function, for [__proto__] the prototype itself,
    never [undefined]. *)
Definition Object_prototype_names : list string :=
  ["constructor"; "__defineGetter__"; "__defineSetter__"; "hasOwnProperty";
   "__lookupGetter__"; "__lookupSetter__"; "isPrototypeOf"; "propertyIsEnumerable";
   "toString"; "valueOf"; "__proto__"; "toLocaleString"].

(** [obj[key] = value] for a [value] that is an object or a function.  The
    key [__proto__] names the accessor of [Object.prototype]: the
    assignment replaces the prototype of [obj] and creates no own
    property. *)
Definition set_property {A : Type} (key : string) (value : A) (obj : gmap string A)
    : gmap string A :=
  if bool_decide (key = "__proto__") then obj else <[key := value]> obj.

(** [haystack.includes(needle)] *)
Definition includes (needle haystack : string) : Prop :=
  exists before after, haystack = before +:+ needle +:+ after.

End Js.

Export Js.

(** ** connect.js: the wrapper component around a data component *)

Module Connect.

(** Queries, hydration options and query results are opaque to the
    wrapper: it only passes them on. *)
Definition Query := string.
Definition Hydration := string.
Definition Piece := string.

(** *** The store the wrapper talks to *)

(** One listener held by the store.  The callback the wrapper hands over
    is [(newState) => this.setState({[stateName]: newState})]; it is
    represented by the [stateName] it closes over ([sub_slot]) and the
    wrapper it belongs to ([sub_consumer]). *)
Record Subscription := {
  sub_handle : nat;
  sub_consumer : nat;
  sub_segment : string;
  sub_query : Query;
  sub_slot : string;
  sub_hydration : Hydration
}.

(** A segment class: [id()] and the definition behind it. *)
Record SegmentClass := { seg_id : string; seg_def : nat }.

(** Modelled from the spec: ReduxStore is not part of the sources at hand.
    Section 4.1 gives its operations: [register] is idempotent and fails
    when a different definition already sits under the identifier;
    [subscribe] requires a registered segment and returns the current
    query result together with an unsubscribe function;
    [unsubscribe(consumer)] removes every subscription the consumer owns
    and is a no-op when there is none. *)
Record ReduxStore := {
  segments : gmap string nat;
  queryResult : string -> Query -> Piece;
  subscriptions : list Subscription;
  next_handle : nat
}.

(** What [store.subscribe] returns: [unsubscribe] is represented by the
    handle of the subscription it removes. *)
Record StoreRef := { ref_unsubscribe : nat; ref_getState : Piece }.

(** Modelled from the spec: [ReduxStore.register] (section 4.1). *)
Definition store_register (sc : SegmentClass) (st : ReduxStore) : Result ReduxStore :=
  match segments st !! seg_id sc with
  | Some d =>
      if decide (d = seg_def sc) then Ok st
      else Throw (new_Error ("Segment id clash: " +:+ seg_id sc))
  | None =>
      Ok {| segments := <[seg_id sc := seg_def sc]> (segments st);
            queryResult := queryResult st;
            subscriptions := subscriptions st;
            next_handle := next_handle st |}
  end.

(** Modelled from the spec: [ReduxStore.subscribe] (section 4.1). *)
Definition store_subscribe (segmentId : string) (query : Query) (slot : string)
    (consumer : nat) (hydration : Hydration) (st : ReduxStore)
    : Result (StoreRef * ReduxStore) :=
  match segments st !! segmentId with
  | None => Throw (new_Error ("Segment is not registered: " +:+ segmentId))
  | Some _ =>
      let sub := {| sub_handle := next_handle st; sub_consumer := consumer;
                    sub_segment := segmentId; sub_query := query;
                    sub_slot := slot; sub_hydration := hydration |} in
      Ok ({| ref_unsubscribe := next_handle st;
             ref_getState := queryResult st segmentId query |},
          {| segments := segments st;
             queryResult := queryResult st;
             subscriptions := subscriptions st ++ [sub];
             next_handle := S (next_handle st) |})
  end.

(** Modelled from the spec: the unsubscribe function of a [StoreRef]
    removes the one subscription it was returned for. *)
Definition store_cancel (handle : nat) (st : ReduxStore) : ReduxStore :=
  {| segments := segments st;
     queryResult := queryResult st;
     subscriptions := filter (fun s => sub_handle s ≠ handle) (subscriptions st);
     next_handle := next_handle st |}.

(** Modelled from the spec: [ReduxStore.unsubscribe(consumer)]
    (section 4.1). *)
Definition store_unsubscribe (consumer : nat) (st : ReduxStore) : ReduxStore :=
  {| segments := segments st;
     queryResult := queryResult st;
     subscriptions := filter (fun s => sub_consumer s ≠ consumer) (subscriptions st);
     next_handle := next_handle st |}.

(** The listeners the store holds for one (consumer, slot) pair. *)
Definition active (consumer : nat) (slot : string) (st : ReduxStore) : list Subscription :=
  filter (fun s => sub_consumer s = consumer ∧ sub_slot s = slot) (subscriptions st).

(** The listeners the store holds for one consumer. *)
Definition owned (consumer : nat) (st : ReduxStore) : list Subscription :=
  filter (fun s => sub_consumer s = consumer) (subscriptions st).

(** *** Props *)

(** A prop value as [===] sees it: primitives compare by content, objects
    and functions by identity.  [PBound owner m] is the method [m] bound to
    wrapper [owner] in its constructor; [PStateOf owner] is the object
    [this.state] of wrapper [owner] holds at the time. *)
Inductive PropValue :=
| PPrim (s : string)
| PRef (addr : nat)
| PBound (owner : nat) (method : string)
| PStateOf (owner : nat).

#[export] Instance PropValue_eq_dec : EqDecision PropValue.
Proof. solve_decision. Defined.

Abbreviation Props := (gmap string PropValue).

(** Modelled from the spec: [isEqualShallow] of helper.js, which is not
    part of the sources at hand.  Two prop sets are shallowly equal when
    they have the same keys and every key holds [===] values. *)
Definition isEqualShallow (a b : Props) : bool := bool_decide (a = b).

(** [defaultShouldSubcriptionsUpdate] *)
Definition defaultShouldSubcriptionsUpdate (prevProps nextProps : Props) : bool :=
  let shouldUpdateSubscription := negb (isEqualShallow prevProps nextProps) in
  shouldUpdateSubscription.

(** One call [subscribe(segmentId, query, stateName, hydration)] made by a
    component's [subscribeQueries]. *)
Record SubscribeCall := {
  call_segmentId : string;
  call_query : Query;
  call_stateName : string;
  call_hydration : Hydration
}.

(** [defaultSubscribeQueries]: subscribes to nothing. *)
Definition defaultSubscribeQueries (nextProps : Props) : list SubscribeCall := [].

(** [defaultGetSegmentDependencies] *)
Definition defaultGetSegmentDependencies : list SegmentClass := [].

(** The static methods [connect] reads off the component it wraps; each is
    optional. *)
Record ReactComponent := {
  rc_getSegmentDependencies : option (list SegmentClass);
  rc_subscribeQueries : option (Props -> list SubscribeCall);
  rc_shouldSubscriptionsUpdate : option (Props -> Props -> bool)
}.

(** *** The wrapper instance and what it shares *)

(** The fields of one wrapper instance ([this]). *)
Record Wrapper := {
  self_id : nat;
  props : Props;
  state : gmap string Piece;
  __soyaActions : gmap string string;
  __soyaUnsubscribe : gmap string nat;
  __soyaContext : nat
}.

(** The objects a wrapper method can reach: the instance, the store its
    context carries, and the properties that have been set on the method
    object [unsubscribe] itself (one function object, shared by every
    instance of the wrapper class).  Keys are taken to be ordinary names,
    none of them a built-in member of [Object.prototype] or of function
    objects. *)
Record Heap := {
  self : Wrapper;
  reduxStore : ReduxStore;
  unsubscribe_properties : gmap string nat
}.

Definition with_store (st : ReduxStore) (h : Heap) : Heap :=
  {| self := self h; reduxStore := st;
     unsubscribe_properties := unsubscribe_properties h |}.

(** [this.setState({[stateName]: newState})] *)
Definition setState (stateName : string) (newState : Piece) (h : Heap) : Heap :=
  {| self := {| self_id := self_id (self h);
                props := props (self h);
                state := <[stateName := newState]> (state (self h));
                __soyaActions := __soyaActions (self h);
                __soyaUnsubscribe := __soyaUnsubscribe (self h);
                __soyaContext := __soyaContext (self h) |};
     reduxStore := reduxStore h;
     unsubscribe_properties := unsubscribe_properties h |}.

(** [unsubscribe(stateName)] *)
Definition unsubscribe (stateName : string) (h : Heap) : Heap :=
  match __soyaUnsubscribe (self h) !! stateName with
  | Some handle =>
      {| self := {| self_id := self_id (self h);
                    props := props (self h);
                    state := state (self h);
                    __soyaActions := __soyaActions (self h);
                    __soyaUnsubscribe := delete stateName (__soyaUnsubscribe (self h));
                    __soyaContext := __soyaContext (self h) |};
         reduxStore := store_cancel handle (reduxStore h);
         unsubscribe_properties := unsubscribe_properties h |}
  | None => h
  end.

(** [subscribe(segmentId, query, stateName, hydration)].  The assignment
    [this.unsubscribe[segmentId] = storeRef.unsubscribe] sets a property of
    the method object [unsubscribe], under the segment id. *)
Definition subscribe (segmentId : string) (query : Query) (stateName : string)
    (hydration : Hydration) (h : Heap) : Result Heap :=
  let h1 := unsubscribe stateName h in
  match store_subscribe segmentId query stateName (self_id (self h1)) hydration
          (reduxStore h1) with
  | Throw e => Throw e
  | Ok (storeRef, st) =>
      let h2 := {| self := self h1; reduxStore := st;
                   unsubscribe_properties :=
                     <[segmentId := ref_unsubscribe storeRef]> (unsubscribe_properties h1) |} in
      Ok (setState stateName (ref_getState storeRef) h2)
  end.

(** Running the [subscribe] calls a [subscribeQueries] makes, in order; a
    call that throws ends the run. *)
Fixpoint run_subscribe (calls : list SubscribeCall) (h : Heap) : Result Heap :=
  match calls with
  | [] => Ok h
  | c :: rest =>
      match subscribe (call_segmentId c) (call_query c) (call_stateName c)
              (call_hydration c) h with
      | Ok h' => run_subscribe rest h'
      | Throw e => Throw e
      end
  end.

(** [connectedProps(props)] *)
Definition connectedProps (w : Wrapper) (p : Props) : Props :=
  let nextProps := <["getActionCreator" := PBound (self_id w) "getActionCreator"]> p in
  let nextProps := <["context" := PRef (__soyaContext w)]> nextProps in
  let nextProps := <["result" := PStateOf (self_id w)]> nextProps in
  let nextProps := <["getReduxStore" := PBound (self_id w) "getReduxStore"]> nextProps in
  let nextProps := <["getConfig" := PBound (self_id w) "getConfig"]> nextProps in
  nextProps.

Section Wrapped.

(** The component given to [connect]. *)
Variable ReactComponent_ : ReactComponent.

Definition getSegmentDependencies : list SegmentClass :=
  default defaultGetSegmentDependencies (rc_getSegmentDependencies ReactComponent_).

Definition subscribeQueries : Props -> list SubscribeCall :=
  default defaultSubscribeQueries (rc_subscribeQueries ReactComponent_).

Definition shouldSubscriptionsUpdate : Props -> Props -> bool :=
  default defaultShouldSubcriptionsUpdate (rc_shouldSubscriptionsUpdate ReactComponent_).

(** [componentWillReceiveProps(nextProps)] *)
Definition componentWillReceiveProps (nextProps : Props) (h : Heap) : Result Heap :=
  let connected := connectedProps (self h) (props (self h)) in
  let nextConnectedProps := connectedProps (self h) nextProps in
  let shouldUpdateSubscriptions := shouldSubscriptionsUpdate connected nextConnectedProps in
  if shouldUpdateSubscriptions then
    let h1 := with_store (store_unsubscribe (self_id (self h)) (reduxStore h)) h in
    run_subscribe (subscribeQueries nextConnectedProps) h1
  else Ok h.

(** [_register(segmentClass)]: [this.__soyaActions[segmentClass.id()] =
    actionCreator], an assignment to a plain object.  [__soyaActions] holds
    its own properties, which is what [getActionCreator] asks for with
    [hasOwnProperty]. *)
Definition _register (segmentClass : SegmentClass) (h : Heap) : Result Heap :=
  match store_register segmentClass (reduxStore h) with
  | Throw e => Throw e
  | Ok st =>
      Ok {| self := {| self_id := self_id (self h);
                       props := props (self h);
                       state := state (self h);
                       __soyaActions :=
                         set_property (seg_id segmentClass) (seg_id segmentClass)
                           (__soyaActions (self h));
                       __soyaUnsubscribe := __soyaUnsubscribe (self h);
                       __soyaContext := __soyaContext (self h) |};
            reduxStore := st;
            unsubscribe_properties := unsubscribe_properties h |}
  end.

Fixpoint register_all (segmentClasses : list SegmentClass) (h : Heap) : Result Heap :=
  match segmentClasses with
  | [] => Ok h
  | sc :: rest =>
      match _register sc h with
      | Ok h' => register_all rest h'
      | Throw e => Throw e
      end
  end.

(** [componentWillMount()] *)
Definition componentWillMount (h : Heap) : Result Heap :=
  match register_all getSegmentDependencies h with
  | Throw e => Throw e
  | Ok h' => run_subscribe (subscribeQueries (connectedProps (self h') (props (self h')))) h'
  end.

(** [componentWillUnmount()] *)
Definition componentWillUnmount (h : Heap) : Heap :=
  with_store (store_unsubscribe (self_id (self h)) (reduxStore h)) h.

End Wrapped.

(** A wrapper as its constructor leaves it. *)
Definition new_Wrapper (id : nat) (p : Props) (context : nat) : Wrapper :=
  {| self_id := id; props := p; state := ∅; __soyaActions := ∅;
     __soyaUnsubscribe := ∅; __soyaContext := context |}.

End Connect.

(** ** What the server uses of Node's http module *)

Module Http.

(** A JavaScript string is a sequence of UTF-16 code units. *)
Abbreviation JsString := (list N).

Definition is_high_surrogate (u : N) : bool := ((0xD800 <=? u) && (u <=? 0xDBFF))%N.
Definition is_low_surrogate (u : N) : bool := ((0xDC00 <=? u) && (u <=? 0xDFFF))%N.

(** The code units of an ASCII literal. *)
Fixpoint code_units (s : string) : JsString :=
  match s with
  | EmptyString => []
  | String c rest => N_of_ascii c :: code_units rest
  end.

(** [Buffer.byteLength(s, 'utf8')]: one to three bytes for a code unit of
    the basic plane, four for a surrogate pair, three (U+FFFD) for a
    surrogate that stands alone. *)
Fixpoint byteLength (s : JsString) : nat :=
  match s with
  | [] => 0
  | u :: rest =>
      if (u <? 0x80)%N then S (byteLength rest)
      else if (u <? 0x800)%N then 2 + byteLength rest
      else if is_high_surrogate u then
        match rest with
        | l :: rest' =>
            if is_low_surrogate l then 4 + byteLength rest'
            else 3 + byteLength rest
        | [] => 3
        end
      else 3 + byteLength rest
  end.

(** The bytes of one code point below 0x10000. *)
Definition utf8_bmp (u : N) : list N :=
  if (u <? 0x80)%N then [u]
  else if (u <? 0x800)%N then
    [N.lor 0xC0 (N.shiftr u 6); N.lor 0x80 (N.land u 0x3F)]
  else
    [N.lor 0xE0 (N.shiftr u 12);
     N.lor 0x80 (N.land (N.shiftr u 6) 0x3F);
     N.lor 0x80 (N.land u 0x3F)].

(** The bytes of the code point a surrogate pair stands for. *)
Definition utf8_pair (h l : N) : list N :=
  let cp := (0x10000 + N.shiftl (h - 0xD800) 10 + (l - 0xDC00))%N in
  [N.lor 0xF0 (N.shiftr cp 18);
   N.lor 0x80 (N.land (N.shiftr cp 12) 0x3F);
   N.lor 0x80 (N.land (N.shiftr cp 6) 0x3F);
   N.lor 0x80 (N.land cp 0x3F)].

(** The bytes [response.end(s)] puts on the wire for a string (its default
    encoding is utf8). *)
Fixpoint utf8_encode (s : JsString) : list N :=
  match s with
  | [] => []
  | u :: rest =>
      if is_high_surrogate u then
        match rest with
        | l :: rest' =>
            if is_low_surrogate l then utf8_pair u l ++ utf8_encode rest'
            else utf8_bmp 0xFFFD ++ utf8_encode rest
        | [] => utf8_bmp 0xFFFD
        end
      else if is_low_surrogate u then utf8_bmp 0xFFFD ++ utf8_encode rest
      else utf8_bmp u ++ utf8_encode rest
  end.

Fixpoint toLowerCase (s : string) : string :=
  match s with
  | EmptyString => EmptyString
  | String c rest =>
      let n := nat_of_ascii c in
      String (if ((65 <=? n) && (n <=? 90))%nat then ascii_of_nat (n + 32) else c)
             (toLowerCase rest)
  end.

Inductive HeaderValue :=
| HNum (n : nat)
| HStr (s : string)
| HList (l : list string).

(** [http.ServerResponse].  Header names are case-insensitive: the
    response keeps them under their lower-case form.  [body] is what has
    been written, in bytes.  [_hasBody] is Node's field of that name: it is
    cleared for the response to a [HEAD] request and, when the headers go
    out, for a status that allows no body; data given to such a response is
    dropped. *)
Record ServerResponse := {
  statusCode : nat;
  statusMessage : string;
  headers : gmap string HeaderValue;
  headersSent : bool;
  finished : bool;
  _hasBody : bool;
  body : list N
}.

(** The response [http.createServer] hands to the request listener, for a
    request whose method is not [HEAD]. *)
Definition new_response : ServerResponse :=
  {| statusCode := 200; statusMessage := ""; headers := ∅;
     headersSent := false; finished := false; _hasBody := true; body := [] |}.

(** The statuses whose response carries a body: all but 204, 304 and
    100 to 199. *)
Definition status_has_body (status : nat) : bool :=
  negb (bool_decide (status = 204) || bool_decide (status = 304)
        || ((100 <=? status) && (status <=? 199)))%nat.

Definition set_statusCode (c : nat) (r : ServerResponse) : ServerResponse :=
  {| statusCode := c; statusMessage := statusMessage r; headers := headers r;
     headersSent := headersSent r; finished := finished r; _hasBody := _hasBody r;
     body := body r |}.

Definition set_statusMessage (m : string) (r : ServerResponse) : ServerResponse :=
  {| statusCode := statusCode r; statusMessage := m; headers := headers r;
     headersSent := headersSent r; finished := finished r; _hasBody := _hasBody r;
     body := body r |}.

(** [response.setHeader(name, value)] throws once the headers are sent. *)
Definition setHeader (name : string) (value : HeaderValue) (r : ServerResponse)
    : Result ServerResponse :=
  if headersSent r then Throw (new_Error "Can't set headers after they are sent.")
  else Ok {| statusCode := statusCode r; statusMessage := statusMessage r;
             headers := <[toLowerCase name := value]> (headers r);
             headersSent := false; finished := finished r; _hasBody := _hasBody r;
             body := body r |}.

(** [response.getHeader(name)] *)
Definition getHeader (name : string) (r : ServerResponse) : option HeaderValue :=
  headers r !! toLowerCase name.

(** [response.end(data)]: sends the headers if they were not, writes the
    data and finishes the response; a finished response ignores it.  When
    the headers go out with a status that allows no body, [_hasBody] is
    cleared; a response without a body drops the data. *)
Definition end_ (data : list N) (r : ServerResponse) : ServerResponse :=
  if finished r then r
  else
    let hasBody :=
      if headersSent r then _hasBody r
      else _hasBody r && status_has_body (statusCode r) in
    {| statusCode := statusCode r; statusMessage := statusMessage r;
       headers := headers r; headersSent := true; finished := true;
       _hasBody := hasBody;
       body := body r ++ (if hasBody then data else []) |}.

(** [response.writeHead(status, {name: value})] *)
Definition writeHead (status : nat) (name : string) (value : HeaderValue)
    (r : ServerResponse) : Result ServerResponse :=
  if headersSent r then Throw (new_Error "Can't set headers after they are sent.")
  else Ok {| statusCode := status; statusMessage := statusMessage r;
             headers := <[toLowerCase name := value]> (headers r);
             headersSent := true; finished := finished r;
             _hasBody := _hasBody r && status_has_body status;
             body := body r |}.

(** [http.IncomingMessage] *)
Record IncomingMessage := { method : string; url : string }.

(** [new ServerResponse(req)]: the response to a [HEAD] request has no
    body. *)
Definition new_ServerResponse (req : IncomingMessage) : ServerResponse :=
  {| statusCode := 200; statusMessage := ""; headers := ∅;
     headersSent := false; finished := false;
     _hasBody := negb (bool_decide (method req = "HEAD")); body := [] |}.

End Http.

(** ** Application: the server-side dispatcher *)

Module Server.

Import Http.

(** The state snapshot a store hands out, in its serialised form. *)
Definition Snapshot := string.
Definition RouteArgs := list (string * string).
(** Dependency metadata of one page, as the compiler reports it. *)
Definition PageDep := string.

(** [new ServerHttpRequest(request, maxRequestBodyLength)] *)
Record ServerHttpRequest := {
  incoming : IncomingMessage;
  maxBodyLength : nat
}.

Record RouteResult := {
  pageName : string;
  routeArgs : RouteArgs;
  componentName : Value
}.

(** The arguments of [contentRenderer.render]. *)
Record RenderArgs := {
  arg_routeArgs : RouteArgs;
  arg_routes : option (list string);
  arg_clientConfig : string;
  arg_state : option Snapshot;
  arg_pageDep : PageDep
}.

(** [compileResult.pages] *)
Record CompileResult := { pages : gmap string PageDep }.

(** What a request leaves behind, in the order it happened.  The events
    name calls the code makes on its collaborators. *)
Inductive Event :=
| EvRunMiddleware
| EvInvoke (position : nat)
| EvDebug (message : string)
| EvStartRender
| EvEndRender
| EvRender (state : option Snapshot)
| EvHydrate
| EvSettled (fulfilled : bool)
| EvGetState
| EvResponseSentError (error : Value)
| EvResponseNotSentError (error : Value)
| EvUnhandledRejection (reason : Value)
| EvUncaught (error : Value).

(** One step of a middleware the compiler supplies: it may change the
    response, call [next], or throw. *)
Inductive MwAction :=
| MwRespond (f : ServerResponse -> ServerResponse)
| MwProceed
| MwThrow (e : Value).

(** An element of [_middlewares]: a compiler middleware, given by the steps
    it takes for a request, or [this.handle.bind(this)]. *)
Inductive Middleware :=
| External (steps : IncomingMessage -> list MwAction)
| SoyaHandle.

(** [ErrorHandler] *)
Record ErrorHandler := {
  responseSentError : Value -> IncomingMessage -> ServerResponse -> ServerResponse;
  responseNotSentError : Value -> IncomingMessage -> ServerResponse -> ServerResponse
}.

(** [Compiler.run] returns the compiler's middlewares. *)
Record Compiler := { compiler_run : list Middleware }.

Record FrameworkConfig := {
  port : nat;
  maxRequestBodyLength : nat;
  precompileClient : bool
}.

(** The two files the server looks for: [build/client/dep.json] (parsed)
    and [favicon.ico]. *)
Record FileSystem := {
  dep_json : option CompileResult;
  favicon_ico : option (list N)
}.

(** The servers [http.createServer(...).listen(port)] has started, by
    port. *)
Record Node := { listening : list nat }.

Section Model.

(** What user code (pages, stores, renderers) keeps between calls. *)
Context {Heap : Type}.

(** The promise [store.hydrate()] returns, by how it settles and the heap
    at that moment; [Resolved] is [Promise.resolve(null)]. *)
Inductive Promise :=
| Resolved
| Resolves (h : Heap)
| Rejects (reason : Value) (h : Heap)
| Pending.

(** The part of the [Store] interface the server calls. *)
Record Store := {
  _shouldRenderBeforeServerHydration : Heap -> bool;
  _startRender : Heap -> Heap;
  _endRender : Heap -> Heap;
  hydrate : Heap -> Heap * Promise;
  _getState : Heap -> Snapshot
}.

Record RenderResult := {
  httpStatusCode : nat;
  httpStatusMessage : string;
  httpHeaders : list (string * HeaderValue);
  contentRenderer : RenderArgs -> Heap -> Heap * Result JsString
}.

(** [new ServerCookieJar(request)] *)
Record ServerCookieJar := { generateHeaderValues : Heap -> list string }.

(** What [page.render(httpRequest, routeArgs, store, callback)] does with
    its callback. *)
Inductive PageRender :=
| Callback (renderResult : RenderResult)
| NoCallback
| PageThrows (e : Value).

Record Page := {
  createStore : Heap -> Heap * option Store;
  render : ServerHttpRequest -> RouteArgs -> option Store -> Heap -> Heap * PageRender
}.

(** A page class: [new_page] is [new pageClass(provider, cookieJar, true)]. *)
Record PageClass := { new_page : ServerCookieJar -> Page }.

Record Application := {
  _router : ServerHttpRequest -> option RouteResult;
  _pageClasses : gmap string PageClass;
  _routeForPages : gmap string (list string);
  _clientConfig : string;
  _frameworkConfig : FrameworkConfig;
  _errorHandler : ErrorHandler;
  _compiler : Compiler;
  new_ServerCookieJar : IncomingMessage -> ServerCookieJar;
  _compileResult : option CompileResult;
  _middlewares : list Middleware;
  _serverCreated : bool
}.

(** The reaction [promise.then(storeResolve).catch(handlePromiseError)]
    registers: the promise and what the two closures captured. *)
Record Job := {
  job_promise : Promise;
  job_routeResult : RouteResult;
  job_request : IncomingMessage;
  job_store : option Store;
  job_cookieJar : ServerCookieJar;
  job_renderResult : RenderResult;
  job_pageDep : PageDep
}.

(** The state of one request: its response, the heap, the [index] of the
    middleware chain, the promise reactions waiting to run and the
    events so far. *)
Record World := {
  response : ServerResponse;
  heap : Heap;
  index : nat;
  jobs : list Job;
  log : list Event
}.

(** *** Calls that change the world of a request and may throw *)

Definition M (A : Type) : Type := World -> World * Result A.

Definition ret {A} (a : A) : M A := fun w => (w, Ok a).

Definition throw {A} (e : Value) : M A := fun w => (w, Throw e).

Definition bind {A B} (m : M A) (k : A -> M B) : M B :=
  fun w =>
    match m w with
    | (w', Ok a) => k a w'
    | (w', Throw e) => (w', Throw e)
    end.

Notation "'do' x <- m ; k" := (bind m (fun x => k))
  (at level 10, x name, m at level 100, k at level 200).

(** A call that returns or throws without touching the world. *)
Definition lift {A} (r : Result A) : M A := fun w => (w, r).

Definition set_response (r : ServerResponse) (w : World) : World :=
  {| response := r; heap := heap w; index := index w; jobs := jobs w; log := log w |}.

Definition set_heap (h : Heap) (w : World) : World :=
  {| response := response w; heap := h; index := index w; jobs := jobs w; log := log w |}.

Definition set_index (i : nat) (w : World) : World :=
  {| response := response w; heap := heap w; index := i; jobs := jobs w; log := log w |}.

Definition set_jobs (js : list Job) (w : World) : World :=
  {| response := response w; heap := heap w; index := index w; jobs := js; log := log w |}.

Definition record (e : Event) (w : World) : World :=
  {| response := response w; heap := heap w; index := index w; jobs := jobs w;
     log := log w ++ [e] |}.

(** Note an event. *)
Definition emit (e : Event) : M unit := fun w => (record e w, Ok tt).

(** A call on user code: it reads and changes the heap. *)
Definition on_heap {A} (f : Heap -> Heap * A) : M A :=
  fun w => let '(h, a) := f (heap w) in (set_heap h w, Ok a).

Definition update_heap (f : Heap -> Heap) : M unit :=
  fun w => (set_heap (f (heap w)) w, Ok tt).

Definition read_heap {A} (f : Heap -> A) : M A := fun w => (w, Ok (f (heap w))).

(** A call on the response that may throw. *)
Definition on_response (f : ServerResponse -> Result ServerResponse) : M unit :=
  fun w =>
    match f (response w) with
    | Ok r => (set_response r w, Ok tt)
    | Throw e => (w, Throw e)
    end.

Definition update_response (f : ServerResponse -> ServerResponse) : M unit :=
  fun w => (set_response (f (response w)) w, Ok tt).

(** [for (key in headerData) response.setHeader(key, headerData[key])] *)
Fixpoint setHeaders (headerData : list (string * HeaderValue)) : M unit :=
  match headerData with
  | [] => ret tt
  | (key, value) :: rest => do _ <- on_response (setHeader key value); setHeaders rest
  end.

(** *** Error handling *)

(** [handleError(error, request, response)] *)
Definition handleError (app : Application) (error : Value) (request : IncomingMessage)
    : M unit :=
  fun w =>
    if headersSent (response w) then
      (set_response (responseSentError (_errorHandler app) error request (response w))
         (record (EvResponseSentError error) w), Ok tt)
    else
      (set_response (responseNotSentError (_errorHandler app) error request (response w))
         (record (EvResponseNotSentError error) w), Ok tt).

(** [_ensureError(error)] *)
Definition _ensureError (error : Value) : Result Value :=
  if instanceof_Error error then Ok error
  else
    match error with
    | VString s => Ok (new_Error s)
    | _ =>
        match concat "Error when resolving store promise! Unable to convert reject arg: " error with
        | Ok message => Ok (new_Error message)
        | Throw e => Throw e
        end
    end.

(** [handlePromiseError], the closure given to [catch]. *)
Definition handlePromiseError (app : Application) (request : IncomingMessage)
    (error : Value) : M unit :=
  do error' <- lift (_ensureError error);
  handleError app error' request.

(** *** Rendering a page for a request *)

Definition render_args (app : Application) (routeResult : RouteResult)
    (state : option Snapshot) (pageDep : PageDep) : RenderArgs :=
  {| arg_routeArgs := routeArgs routeResult;
     arg_routes := _routeForPages app !! pageName routeResult;
     arg_clientConfig := _clientConfig app;
     arg_state := state;
     arg_pageDep := pageDep |}.

(** [renderResult.contentRenderer.render(routeArgs, routes, clientConfig,
    state, pageDep)] *)
Definition contentRender (app : Application) (routeResult : RouteResult)
    (renderResult : RenderResult) (state : option Snapshot) (pageDep : PageDep)
    : M JsString :=
  do _ <- emit (EvRender state);
  do html <- on_heap (contentRenderer renderResult (render_args app routeResult state pageDep));
  lift html.

(** [storeResolve], the closure given to [then]. *)
Definition storeResolve (app : Application) (routeResult : RouteResult)
    (store : option Store) (cookieJar : ServerCookieJar)
    (renderResult : RenderResult) (pageDep : PageDep) : M unit :=
  do state <-
    match store with
    | Some store =>
        do _ <- emit EvGetState;
        do state <- read_heap (_getState store);
        do _ <- emit EvStartRender;
        do _ <- update_heap (_startRender store);
        ret (Some state)
    | None => ret None
    end;
  do htmlResult <- contentRender app routeResult renderResult state pageDep;
  do _ <-
    match store with
    | Some store => do _ <- emit EvEndRender; update_heap (_endRender store)
    | None => ret tt
    end;
  do _ <- update_response (set_statusCode (httpStatusCode renderResult));
  do _ <- update_response (set_statusMessage (httpStatusMessage renderResult));
  do _ <- on_response (setHeader "Content-Length" (HNum (byteLength htmlResult)));
  do _ <- on_response (setHeader "Content-Type" (HStr "text/html;charset=UTF-8"));
  do _ <- setHeaders (httpHeaders renderResult);
  do cookieValues <- read_heap (generateHeaderValues cookieJar);
  do _ <-
    (if (0 <? length cookieValues)%nat
     then on_response (setHeader "Set-Cookie" (HList cookieValues))
     else ret tt);
  update_response (end_ (utf8_encode htmlResult)).

(** The body of [_handleRenderResult] once the page's dependencies are
    known: the render that lets requirements register, the call of
    [hydrate], and [promise.then(storeResolve).catch(handlePromiseError)],
    which leaves a reaction to run when the promise settles. *)
Definition hydrateThenRender (app : Application) (routeResult : RouteResult)
    (request : IncomingMessage) (store : option Store) (cookieJar : ServerCookieJar)
    (renderResult : RenderResult) (pageDep : PageDep) : M unit :=
  do promise <-
    match store with
    | Some store =>
        do should <- read_heap (_shouldRenderBeforeServerHydration store);
        do _ <-
          (if should : bool then
             do _ <- emit EvStartRender;
             do _ <- update_heap (_startRender store);
             do _ <- contentRender app routeResult renderResult None pageDep;
             do _ <- emit EvEndRender;
             update_heap (_endRender store)
           else ret tt);
        do _ <- emit EvHydrate;
        on_heap (hydrate store)
    | None => ret Resolved
    end;
  fun w =>
    (set_jobs (jobs w ++ [{| job_promise := promise; job_routeResult := routeResult;
                            job_request := request; job_store := store;
                            job_cookieJar := cookieJar; job_renderResult := renderResult;
                            job_pageDep := pageDep |}]) w, Ok tt).

(** [_handleRenderResult(routeResult, request, httpRequest, response, store,
    cookieJar, renderResult)] *)
Definition _handleRenderResult (app : Application) (routeResult : RouteResult)
    (request : IncomingMessage) (store : option Store) (cookieJar : ServerCookieJar)
    (renderResult : RenderResult) : M unit :=
  match _compileResult app with
  | None => throw (new_TypeError "Cannot read property 'pages' of undefined")
  | Some compileResult =>
      match pages compileResult !! pageName routeResult with
      | None =>
          do message <- lift (concat
            "Unable to render page server side, dependencies unknown for entry point: "
            (componentName routeResult));
          throw (new_Error message)
      | Some pageDep =>
          hydrateThenRender app routeResult request store cookieJar renderResult pageDep
      end
  end.

(** What [handle] throws when [this._pageClasses[pageName]] is not a page
    class but a member inherited from [Object.prototype]: the guard
    [!pageClass] lets it pass, and [new pageClass(provider, cookieJar,
    true)] throws, as the member is no constructor.  The one constructor
    among them is [Object] (under [constructor]), and an [Object] made from
    the provider is the provider itself, on which [createStore] is then
    called in vain.  The messages are those of V8. *)
Definition not_a_page_class (name : string) : Value :=
  if bool_decide (name = "constructor")
  then new_TypeError "page.createStore is not a function"
  else new_TypeError "pageClass is not a constructor".

(** [handle(request, response)].  [_pageClasses] holds the own properties
    of the object of that name; a name that is not among them is looked up
    in [Object.prototype], the prototype the constructor leaves the object
    with as long as no page component is named [__proto__]. *)
Definition handle (app : Application) (request : IncomingMessage) : M unit :=
  let httpRequest :=
    {| incoming := request;
       maxBodyLength := maxRequestBodyLength (_frameworkConfig app) |} in
  match _router app httpRequest with
  | None => throw (new_Error "Unable to route request, router returned null")
  | Some routeResult =>
      match _pageClasses app !! pageName routeResult with
      | None =>
          if bool_decide (pageName routeResult ∈ Object_prototype_names)
          then throw (not_a_page_class (pageName routeResult))
          else
            throw (new_Error ("Unable to route request, page " +:+ pageName routeResult
                              +:+ " doesn't exist"))
      | Some pageClass =>
          let cookieJar := new_ServerCookieJar app request in
          let page := new_page pageClass cookieJar in
          do store <- on_heap (createStore page);
          do _ <- emit (EvDebug ("Rendering page: " +:+ pageName routeResult +:+ "."));
          do outcome <- on_heap (render page httpRequest (routeArgs routeResult) store);
          match outcome with
          | Callback renderResult =>
              _handleRenderResult app routeResult request store cookieJar renderResult
          | NoCallback => ret tt
          | PageThrows e => throw e
          end
      end
  end.

(** What happens when the promise of a reaction settles:
    [then(storeResolve)] runs [storeResolve] on fulfilment, and
    [catch(handlePromiseError)] receives a rejection of the promise or what
    [storeResolve] threw.  What [handlePromiseError] itself throws rejects
    the promise [catch] returned, which has no handler.  The reaction was
    created inside [d.run], so it runs in the domain of the request: Node
    (from version 15 on, where an unhandled rejection is raised as an
    uncaught exception) hands the value to the domain's error listener,
    which calls [handleError]. *)
Definition caught (app : Application) (job : Job) (error : Value) (w : World) : World :=
  match handlePromiseError app (job_request job) error w with
  | (w', Ok _) => w'
  | (w', Throw e) =>
      fst (handleError app e (job_request job) (record (EvUnhandledRejection e) w'))
  end.

Definition fulfilled (app : Application) (job : Job) (w : World) : World :=
  match storeResolve app (job_routeResult job) (job_store job) (job_cookieJar job)
          (job_renderResult job) (job_pageDep job) w with
  | (w', Ok _) => w'
  | (w', Throw e) => caught app job e w'
  end.

Definition settle (app : Application) (job : Job) (w : World) : World :=
  match job_promise job with
  | Resolved => fulfilled app job w
  | Resolves h => fulfilled app job (record (EvSettled true) (set_heap h w))
  | Rejects reason h => caught app job reason (record (EvSettled false) (set_heap h w))
  | Pending => w
  end.

(** *** The middleware chain *)

(** The steps of a compiler middleware, with [next] bound to [proceed].
    [None] only when [proceed] gives [None]. *)
Fixpoint run_steps (proceed : World -> option (World * Result unit))
    (steps : list MwAction) (w : World) : option (World * Result unit) :=
  match steps with
  | [] => Some (w, Ok tt)
  | MwRespond f :: rest => run_steps proceed rest (set_response (f (response w)) w)
  | MwProceed :: rest =>
      match proceed w with
      | Some (w', Ok _) => run_steps proceed rest w'
      | other => other
      end
  | MwThrow e :: _ => Some (w, Throw e)
  end.

(** [runMiddleware], the closure over [index] that is also the [next] of
    every middleware.  Each call moves [index] on, so the nesting of calls
    is bounded by the length of the chain: [fuel] counts the calls that
    may still nest, and [None] means it ran out. *)
Fixpoint runMiddleware_fuel (fuel : nat) (app : Application) (request : IncomingMessage)
    (w : World) : option (World * Result unit) :=
  match fuel with
  | 0 => None
  | S fuel' =>
      let w := record EvRunMiddleware w in
      let middleware := _middlewares app !! index w in
      let position := index w in
      let w := set_index (S (index w)) w in
      match middleware with
      | None => Some (w, Ok tt)
      | Some (External steps) =>
          run_steps (runMiddleware_fuel fuel' app request) (steps request)
            (record (EvInvoke position) w)
      | Some SoyaHandle => Some (handle app request (record (EvInvoke position) w))
      end
  end.

(** Enough fuel for every call [runMiddleware] can nest from [w] on. *)
Definition runMiddleware (app : Application) (request : IncomingMessage) (w : World)
    : option (World * Result unit) :=
  runMiddleware_fuel (S (length (_middlewares app) - index w)) app request w.

(** The promise reactions a request left, run in the order they were
    registered. *)
Definition drain (app : Application) (w : World) : World :=
  fold_left (fun w job => settle app job w) (jobs w) (set_jobs [] w).

(** The world [http.createServer] starts a request in, for a request
    whose method is not [HEAD]. *)
Definition new_World (h : Heap) : World :=
  {| response := new_response; heap := h; index := 0; jobs := []; log := [] |}.

(** The world [http.createServer] starts [request] in. *)
Definition request_World (request : IncomingMessage) (h : Heap) : World :=
  {| response := new_ServerResponse request; heap := h; index := 0; jobs := [];
     log := [] |}.

(** The body of [d.run]: the first call of [runMiddleware], with the
    domain's error listener around it. *)
Definition in_domain (app : Application) (request : IncomingMessage) (w : World)
    : option World :=
  match runMiddleware app request w with
  | None => None
  | Some (w', Ok _) => Some w'
  | Some (w', Throw error) => Some (fst (handleError app error request w'))
  end.

(** The request listener given to [http.createServer]. *)
Definition requestListener (app : Application) (fs : FileSystem)
    (request : IncomingMessage) (h : Heap) : option World :=
  let w := request_World request h in
  let favicon :=
    if bool_decide (method request = "GET") && bool_decide (url request = "/favicon.ico")
    then favicon_ico fs else None in
  match favicon with
  | Some file =>
      match writeHead 200 "Content-Type" (HStr "image/x-icon") (response w) with
      | Ok r => Some (set_response (end_ file r) w)
      | Throw e => Some (record (EvUncaught e) w)
      end
  | None =>
      match in_domain app request w with
      | Some w' => Some (drain app w')
      | None => None
      end
  end.

(** *** Starting the server *)

Definition set_serverCreated (b : bool) (app : Application) : Application :=
  {| _router := _router app; _pageClasses := _pageClasses app;
     _routeForPages := _routeForPages app; _clientConfig := _clientConfig app;
     _frameworkConfig := _frameworkConfig app; _errorHandler := _errorHandler app;
     _compiler := _compiler app; new_ServerCookieJar := new_ServerCookieJar app;
     _compileResult := _compileResult app; _middlewares := _middlewares app;
     _serverCreated := b |}.

Definition set_compileResult (c : option CompileResult) (app : Application) : Application :=
  {| _router := _router app; _pageClasses := _pageClasses app;
     _routeForPages := _routeForPages app; _clientConfig := _clientConfig app;
     _frameworkConfig := _frameworkConfig app; _errorHandler := _errorHandler app;
     _compiler := _compiler app; new_ServerCookieJar := new_ServerCookieJar app;
     _compileResult := c; _middlewares := _middlewares app;
     _serverCreated := _serverCreated app |}.

Definition set_middlewares (ms : list Middleware) (app : Application) : Application :=
  {| _router := _router app; _pageClasses := _pageClasses app;
     _routeForPages := _routeForPages app; _clientConfig := _clientConfig app;
     _frameworkConfig := _frameworkConfig app; _errorHandler := _errorHandler app;
     _compiler := _compiler app; new_ServerCookieJar := new_ServerCookieJar app;
     _compileResult := _compileResult app; _middlewares := ms;
     _serverCreated := _serverCreated app |}.

(** [createServer()] *)
Definition createServer (app : Application) (node : Node) : Application * Node :=
  if _serverCreated app then (app, node)
  else
    (set_serverCreated true app,
     {| listening := listening node ++ [port (_frameworkConfig app)] |}).

(** The callback [start] gives to [compiler.run]:
    [compileResult => { this._compileResult = compileResult; this.createServer(); }] *)
Definition onReady (compileResult : CompileResult) (app : Application) (node : Node)
    : Application * Node :=
  createServer (set_compileResult (Some compileResult) app) node.

(** [start()].  With a precompiled client the server is created at once;
    otherwise the compiler calls [onReady] later. *)
Definition start (fs : FileSystem) (app : Application) (node : Node) : Application * Node :=
  let '(app, node) :=
    match (if precompileClient (_frameworkConfig app) then dep_json fs else None) with
    | Some compileResult =>
        let app := set_middlewares (compiler_run (_compiler app)) app in
        let app := set_compileResult (Some compileResult) app in
        createServer app node
    | None => (set_middlewares (compiler_run (_compiler app)) app, node)
    end in
  (set_middlewares (_middlewares app ++ [SoyaHandle]) app, node).

(** The compiler calling back with each of [results] in turn. *)
Fixpoint compiled (results : list CompileResult) (app : Application) (node : Node)
    : Application * Node :=
  match results with
  | [] => (app, node)
  | compileResult :: rest =>
      let '(app, node) := onReady compileResult app node in
      compiled rest app node
  end.

(** [n] calls of [createServer()] in a row. *)
Fixpoint createServer_times (n : nat) (app : Application) (node : Node)
    : Application * Node :=
  match n with
  | 0 => (app, node)
  | S n' =>
      let '(app, node) := createServer app node in
      createServer_times n' app node
  end.

End Model.

End Server.

(** ** Concrete components, stores and pages *)

Module Examples.

Import Connect.

(** A store with one registered segment and no listener yet. *)
Definition todo_store : ReduxStore :=
  {| segments := {["todo" := 0]};
     queryResult := fun segmentId query => segmentId +:+ "/" +:+ query;
     subscriptions := [];
     next_handle := 0 |}.

(** Wrapper 1, freshly constructed with the prop [filter = "all"], and the
    store of its context. *)
Definition todo_heap : Heap :=
  {| self := new_Wrapper 1 {["filter" := PPrim "all"]} 7;
     reduxStore := todo_store;
     unsubscribe_properties := ∅ |}.

(** A component that subscribes to the todo segment under the slot
    [items], with its [filter] prop as the query. *)
Definition TodoList : ReactComponent :=
  {| rc_getSegmentDependencies := Some [{| seg_id := "todo"; seg_def := 0 |}];
     rc_subscribeQueries := Some (fun p =>
       match p !! "filter" with
       | Some (PPrim f) =>
           [{| call_segmentId := "todo"; call_query := f;
               call_stateName := "items"; call_hydration := "" |}]
       | _ => []
       end);
     rc_shouldSubscriptionsUpdate := None |}.

(** The same wrapper once [componentWillMount] has run. *)
Definition mounted_heap : Heap :=
  match componentWillMount TodoList todo_heap with
  | Ok h => h
  | Throw _ => todo_heap
  end.

(** *** A small site *)

Import Http Server.

(** The heap of the site: whether a render has asked for the counter, and
    the counter once loaded. *)
Record SiteHeap := { requested : bool; count : option nat }.

Definition site_heap : SiteHeap := {| requested := false; count := None |}.

(** A store that needs a render before hydration and whose [hydrate]
    settles as [outcome] says, given the heap with the counter loaded. *)
Definition counter_store (outcome : SiteHeap -> Promise) : Store :=
  {| _shouldRenderBeforeServerHydration := fun _ => true;
     _startRender := fun h => h;
     _endRender := fun h => h;
     hydrate := fun h =>
       (h, outcome {| requested := requested h;
                      count := if requested h then Some 1 else None |});
     _getState := fun h =>
       match count h with
       | Some n => "{count: " +:+ string_of_Z (Z.of_nat n) +:+ "}"
       | None => "{}"
       end |}.

(** Rendering asks for the counter and prints the state it is given. *)
Definition counter_renderer (args : RenderArgs) (h : SiteHeap)
    : SiteHeap * Result JsString :=
  ({| requested := true; count := count h |},
   Ok (code_units ("<p>" +:+ default "" (arg_state args) +:+ "</p>"))).

Definition site_renderResult (extraHeaders : list (string * HeaderValue)) : RenderResult :=
  {| httpStatusCode := 200; httpStatusMessage := "OK";
     httpHeaders := extraHeaders;
     contentRenderer := counter_renderer |}.

Definition site_page (store : option Store) (extraHeaders : list (string * HeaderValue))
    : PageClass :=
  {| new_page := fun cookieJar =>
       {| createStore := fun h => (h, store);
          render := fun httpRequest args store h =>
            (h, Callback (site_renderResult extraHeaders)) |} |}.

(** A store that asks for no render before hydration. *)
Definition lazy_store : Store :=
  {| _shouldRenderBeforeServerHydration := fun _ => false;
     _startRender := fun h => h;
     _endRender := fun h => h;
     hydrate := fun h => (h, Resolves {| requested := requested h; count := Some 1 |});
     _getState := fun h => "{}" |}.

Definition site_cookieJar : @ServerCookieJar SiteHeap :=
  {| generateHeaderValues := fun _ => [] |}.

Definition route_to (page : string) : RouteResult :=
  {| pageName := page; routeArgs := []; componentName := VUndefined |}.

Definition site_router (httpRequest : ServerHttpRequest) : option RouteResult :=
  let path := url (incoming httpRequest) in
  let to page := Some (route_to page) in
  if bool_decide (path = "/") then to "home"
  else if bool_decide (path = "/about") then to "about"
  else if bool_decide (path = "/api") then to "api"
  else if bool_decide (path = "/boom") then to "boom"
  else if bool_decide (path = "/opaque") then to "opaque"
  else if bool_decide (path = "/ghost") then to "ghost"
  else None.

Definition site_pages : gmap string PageClass :=
  <["home" := site_page (Some (counter_store Resolves)) []]>
  (<["about" := site_page None []]>
  (<["api" := site_page None [("Content-Type", HStr "application/json")]]>
  (<["boom" := site_page (Some (counter_store (Rejects (VString "boom")))) []]>
  (<["opaque" := site_page (Some (counter_store (Rejects (VObject None)))) []]> ∅)))).

Definition site_compileResult : CompileResult :=
  {| pages := <["home" := "home.js"]> (<["about" := "about.js"]> (<["api" := "api.js"]>
              (<["boom" := "boom.js"]> (<["opaque" := "opaque.js"]> ∅)))) |}.

(** An error handler that answers 500 when it still can. *)
Definition site_errorHandler : ErrorHandler :=
  {| responseSentError := fun error request r => r;
     responseNotSentError := fun error request r =>
       end_ (code_units "error") (set_statusCode 500 r) |}.

(** A compiler middleware that serves [/bundle.js] and passes every other
    request on. *)
Definition bundle_middleware : Middleware :=
  External (fun request =>
    if bool_decide (url request = "/bundle.js")
    then [MwRespond (end_ (code_units "bundle"))]
    else [MwProceed]).

(** The application as its constructor leaves it. *)
Definition site : Application :=
  {| _router := site_router;
     _pageClasses := site_pages;
     _routeForPages := ∅;
     _clientConfig := "";
     _frameworkConfig := {| port := 3000; maxRequestBodyLength := 1024;
                            precompileClient := false |};
     _errorHandler := site_errorHandler;
     _compiler := {| compiler_run := [bundle_middleware] |};
     new_ServerCookieJar := fun request => site_cookieJar;
     _compileResult := None;
     _middlewares := [];
     _serverCreated := false |}.

Definition site_fs : FileSystem := {| dep_json := None; favicon_ico := None |}.

(** The application once [start()] has run and the compiler has called
    back, twice. *)
Definition running_site : Application * Node :=
  let '(app, node) := start site_fs site {| listening := [] |} in
  compiled [site_compileResult; site_compileResult] app node.

Definition get (path : string) : IncomingMessage := {| method := "GET"; url := path |}.

(** The world a request to the site starts in. *)
Definition new_site_world : World := new_World site_heap.

End Examples.

(** ** Application: construction and the client build *)

Module Boot.

Import Http Server.

(** A route of the route table, opaque to the application. *)
Abbreviation Route := string (only parsing).

(** [new EntryPoint(name, absDir)] *)
Record EntryPoint := { entry_name : string; entry_absDir : string }.

(** [_addReplace(frameworkConfig, source, replacement)], on the
    [clientReplace] object of the framework configuration. *)
Definition _addReplace (clientReplace : gmap string string) (source replacement : string)
    : gmap string string :=
  <[source +:+ ".js" := replacement]> (<[source := replacement]> clientReplace).

(** The four calls of [_addReplace] the constructor starts with.  The last
    one is made when [routerNodeRegistrationAbsolutePath] is truthy: set,
    and not the empty string. *)
Definition client_replacements (routerNodeRegistrationAbsolutePath : option string)
    (clientReplace : gmap string string) : gmap string string :=
  let clientReplace :=
    _addReplace clientReplace "soya/lib/client/Register" "soya/lib/client/RegisterClient" in
  let clientReplace :=
    _addReplace clientReplace "soya/lib/page/react/ReactRenderer"
      "soya/lib/page/react/ReactRendererClient" in
  let clientReplace := _addReplace clientReplace "soya/lib/scope" "soya/lib/scope-client" in
  match routerNodeRegistrationAbsolutePath with
  | Some path =>
      if bool_decide (path = "") then clientReplace
      else _addReplace clientReplace "soya/lib/server/registerRouterNodes" path
  | None => clientReplace
  end.

Section Pages.

Context {Heap : Type}.

(** One entry of [componentRegister.getPages()].  [cmpt_new] is what
    [new pageCmpt.clazz(provider, cookieJar, true)] does at start-up: it
    returns, or throws.  [cmpt_getRouteRequirements] is the static method of
    the class, when it has one. *)
Record PageComponent := {
  cmpt_name : string;
  cmpt_absDir : string;
  cmpt_clazz : @PageClass Heap;
  cmpt_new : Result unit;
  cmpt_getRouteRequirements : option (list string)
}.

(** What the loop of the constructor fills. *)
Record Registry := {
  _entryPoints : list EntryPoint;
  page_classes : gmap string (@PageClass Heap);
  route_for_pages : gmap string (gmap string Route)
}.

(** The state before the loop: [_routeForPages = {}], [_entryPoints = []],
    [_pageClasses = {}]. *)
Definition empty_Registry : Registry :=
  {| _entryPoints := []; page_classes := ∅; route_for_pages := ∅ |}.

(** The inner loop: [_routeForPages[name][routeId] = routes[routeId]] for
    each required route, throwing at the first one the route table does not
    own. *)
Fixpoint requireRoutes (name : string) (routes : gmap string Route)
    (routeRequirements : list string) (forPage : gmap string Route)
    : Result (gmap string Route) :=
  match routeRequirements with
  | [] => Ok forPage
  | routeId :: rest =>
      match routes !! routeId with
      | None =>
          Throw (new_Error ("Page " +:+ name +:+ " has dependencies to unknown route: "
                            +:+ routeId +:+ "."))
      | Some route => requireRoutes name routes rest (<[routeId := route]> forPage)
      end
  end.

(** One turn of the loop over the page components. *)
Definition registerPage (routes : gmap string Route) (pageCmpt : PageComponent)
    (reg : Registry) : Result Registry :=
  let entryPoints := _entryPoints reg ++
    [{| entry_name := cmpt_name pageCmpt; entry_absDir := cmpt_absDir pageCmpt |}] in
  let pageClasses := <[cmpt_name pageCmpt := cmpt_clazz pageCmpt]> (page_classes reg) in
  match cmpt_new pageCmpt with
  | Throw e => Throw e
  | Ok _ =>
      match requireRoutes (cmpt_name pageCmpt) routes
              (default [] (cmpt_getRouteRequirements pageCmpt)) ∅ with
      | Throw e => Throw e
      | Ok forPage =>
          Ok {| _entryPoints := entryPoints; page_classes := pageClasses;
                route_for_pages := <[cmpt_name pageCmpt := forPage]> (route_for_pages reg) |}
      end
  end.

(** The loop of the constructor over [componentRegister.getPages()], in
    the order of enumeration. *)
Fixpoint registerPages (routes : gmap string Route) (pageComponents : list PageComponent)
    (reg : Registry) : Result Registry :=
  match pageComponents with
  | [] => Ok reg
  | pageCmpt :: rest =>
      match registerPage routes pageCmpt reg with
      | Ok reg' => registerPages routes rest reg'
      | Throw e => Throw e
      end
  end.

(** [buildClient()]: the callback given to [compiler.run] writes the
    compile result to [build/client/dep.json]; the file system keeps what
    [JSON.parse] reads back from it. *)
Definition buildClient_onReady (compileResult : CompileResult) (fs : FileSystem)
    : FileSystem :=
  {| dep_json := Some compileResult; favicon_ico := favicon_ico fs |}.

(** [buildClient()] with the compiler calling back with each of [results]
    in turn.  The application and the servers are not touched. *)
Definition buildClient (results : list CompileResult) (fs : FileSystem) : FileSystem :=
  fold_left (fun fs compileResult => buildClient_onReady compileResult fs) results fs.

End Pages.

End Boot.

(** ** connect.js: wiring of the wrapper and its action creators *)

Module Wiring.

Import Connect.

(** A value found under [context.store] or [context.reduxStore] that is
    truthy; [__isReduxStore] is its flag of that name. *)
Record StoreValue := { store_ref : nat; __isReduxStore : bool }.

(** A truthy value found under [context.config], with whether
    [typeof config] is ['object']. *)
Record ConfigValue := { config_ref : nat; config_is_object : bool }.

(** A context object; [None] is a missing or falsy property. *)
Record Context := {
  store : option StoreValue;
  ctx_reduxStore : option StoreValue;
  config : option ConfigValue
}.

(** [getReduxStore()], with whether it warned about the old property. *)
Definition getReduxStore (connectId : string) (__soyaContext : option Context)
    : Result (StoreValue * bool) :=
  match __soyaContext with
  | Some context =>
      match store context with
      | Some st => Ok (st, false)
      | None =>
          match ctx_reduxStore context with
          | Some st => Ok (st, true)
          | None => Throw (new_Error ("Context not properly wired to: " +:+ connectId +:+ "."))
          end
      end
  | None => Throw (new_Error ("Context not properly wired to: " +:+ connectId +:+ "."))
  end.

(** [getConfig()] *)
Definition getConfig (connectId : string) (__soyaContext : option Context)
    : Result ConfigValue :=
  match __soyaContext with
  | Some context =>
      match config context with
      | Some c => Ok c
      | None => Throw (new_Error ("Context not properly wired to: " +:+ connectId +:+ "."))
      end
  | None => Throw (new_Error ("Context not properly wired to: " +:+ connectId +:+ "."))
  end.

(** What the constructor of the wrapper leaves in [this]. *)
Record Wired := {
  wired_context : option Context;
  wired_store : StoreValue;
  wired_config : ConfigValue;
  warned : bool
}.

(** [constructor(props, context)]: [props.context || context.context], then
    the two checks.  [componentText] is the wrapped component as ['' +
    ReactComponent] prints it. *)
Definition constructor (connectId componentText : string)
    (props_context context_context : option Context) : Result Wired :=
  let __soyaContext :=
    match props_context with Some c => Some c | None => context_context end in
  match getReduxStore connectId __soyaContext with
  | Throw e => Throw e
  | Ok (reduxStore, warning) =>
      match getConfig connectId __soyaContext with
      | Throw e => Throw e
      | Ok config =>
          if negb (__isReduxStore reduxStore) then
            Throw (new_Error ("ReduxStore is not properly wired to this data component: "
                              +:+ componentText +:+ "."))
          else if negb (config_is_object config) then
            Throw (new_Error ("Config object is not properly wired to this data component: "
                              +:+ componentText +:+ "."))
          else Ok {| wired_context := __soyaContext; wired_store := reduxStore;
                     wired_config := config; warned := warning |}
      end
  end.


End Wiring.

(** ** RegisterClient.js and RegisterClientHot.js *)

Module Client.

(** A call made on the client runtime. *)
Inductive ClientCall :=
| AddRouteConfig (routes : string)
| Register (pageClass : string)
| Navigate (name : string) (routeArgs : string).

(** A [SoyaClient]: the config it was constructed with and the calls made
    on it since. *)
Record SoyaClient := { client_config : string; client_calls : list ClientCall }.

(** The properties of [window] the two modules read and write.
    [hot_loads] counts the evaluations of
    [require('webpack-hot-middleware/client')]. *)
Record Window := {
  __soyaClient : option SoyaClient;
  __hotReload : bool;
  hot_loads : nat;
  config : string;
  routeArgs : string;
  routes : string
}.

(** [register(pageClass)]; a page class is given by its [name]. *)
Definition register (pageClass : string) (window : Window) : Window :=
  match __soyaClient window with
  | None =>
      {| __soyaClient :=
           Some {| client_config := config window;
                   client_calls := [AddRouteConfig (routes window); Register pageClass;
                                    Navigate pageClass (routeArgs window)] |};
         __hotReload := __hotReload window; hot_loads := hot_loads window;
         config := config window; routeArgs := routeArgs window; routes := routes window |}
  | Some client =>
      {| __soyaClient :=
           Some {| client_config := client_config client;
                   client_calls := client_calls client ++ [Register pageClass] |};
         __hotReload := __hotReload window; hot_loads := hot_loads window;
         config := config window; routeArgs := routeArgs window; routes := routes window |}
  end.

(** The body of RegisterClientHot.js.  The module object [require] returns
    is truthy, so [window.__hotReload] is set once the client is loaded. *)
Definition load_hot (window : Window) : Window :=
  if __hotReload window then window
  else {| __soyaClient := __soyaClient window; __hotReload := true;
          hot_loads := S (hot_loads window);
          config := config window; routeArgs := routeArgs window; routes := routes window |}.

End Client.

(** ** The small site, constructed and built *)

Module SiteBoot.

Import Http Server Boot Examples.

(** The route table of the site. *)
Definition site_routes : gmap string string :=
  <["home" := "/"]> (<["about" := "/about"]> ∅).

(** The home page links to the about page. *)
Definition home_component : @PageComponent SiteHeap :=
  {| cmpt_name := "home"; cmpt_absDir := "/site/pages/home";
     cmpt_clazz := site_page (Some (counter_store Resolves)) [];
     cmpt_new := Ok tt;
     cmpt_getRouteRequirements := Some ["about"] |}.

Definition about_component : @PageComponent SiteHeap :=
  {| cmpt_name := "about"; cmpt_absDir := "/site/pages/about";
     cmpt_clazz := site_page None [];
     cmpt_new := Ok tt;
     cmpt_getRouteRequirements := None |}.

(** A page that requires a route the table does not have. *)
Definition broken_component : @PageComponent SiteHeap :=
  {| cmpt_name := "broken"; cmpt_absDir := "/site/pages/broken";
     cmpt_clazz := site_page None [];
     cmpt_new := Ok tt;
     cmpt_getRouteRequirements := Some ["home"; "missing"] |}.

Definition site_components : list (@PageComponent SiteHeap) :=
  [home_component; about_component].

(** What the constructor registers for the site. *)
Definition site_registry : @Registry SiteHeap :=
  match registerPages site_routes site_components empty_Registry with
  | Ok reg => reg
  | Throw _ => empty_Registry
  end.


(** The site configured to start from a client built beforehand. *)
Definition precompiled_site : Application :=
  {| _router := site_router;
     _pageClasses := site_pages;
     _routeForPages := ∅;
     _clientConfig := "";
     _frameworkConfig := {| port := 3000; maxRequestBodyLength := 1024;
                            precompileClient := true |};
     _errorHandler := site_errorHandler;
     _compiler := _compiler site;
     new_ServerCookieJar := new_ServerCookieJar site;
     _compileResult := None;
     _middlewares := [];
     _serverCreated := false |}.


(** A render result whose renderer throws. *)
Definition failing_renderResult : @RenderResult SiteHeap :=
  {| httpStatusCode := 200; httpStatusMessage := "OK"; httpHeaders := [];
     contentRenderer := fun args h => (h, Throw (VString "render failed")) |}.

(** The reaction of a request for the about page. *)
Definition about_job (renderResult : @RenderResult SiteHeap) (promise : Promise) : Job :=
  {| job_promise := promise; job_routeResult := route_to "about";
     job_request := get "/about"; job_store := None;
     job_cookieJar := site_cookieJar; job_renderResult := renderResult;
     job_pageDep := "about.js" |}.

(** A request whose response has been ended already. *)
Definition sent_world : World :=
  set_response (end_ (code_units "early") new_response) new_site_world.

(** A cookie jar with one cookie to set. *)
Definition session_cookieJar : @ServerCookieJar SiteHeap :=
  {| generateHeaderValues := fun _ => ["sid=1"] |}.

(** A file system with a favicon. *)
Definition icon_fs : FileSystem :=
  {| dep_json := None; favicon_ico := Some (code_units "icon") |}.

(** The todo list after its owner changed the filter. *)
Definition refiltered_heap : Connect.Heap :=
  match Connect.componentWillReceiveProps TodoList {["filter" := Connect.PPrim "done"]}
          mounted_heap with
  | Ok h => h
  | Throw _ => mounted_heap
  end.



(** The running site with a router that names [toString] for every
    request: no page of the site, but a member of [Object.prototype]. *)
Definition misrouted_site : Application :=
  {| _router := fun _ => Some (route_to "toString");
     _pageClasses := site_pages;
     _routeForPages := ∅;
     _clientConfig := "";
     _frameworkConfig := _frameworkConfig site;
     _errorHandler := site_errorHandler;
     _compiler := _compiler site;
     new_ServerCookieJar := new_ServerCookieJar site;
     _compileResult := Some site_compileResult;
     _middlewares := [bundle_middleware; SoyaHandle];
     _serverCreated := true |}.



(** A browser window as the server-rendered page leaves it. *)
Definition fresh_window : Client.Window :=
  {| Client.__soyaClient := None; Client.__hotReload := false; Client.hot_loads := 0;
     Client.config := "{}"; Client.routeArgs := "{}"; Client.routes := "[]" |}.

End SiteBoot.

(** * Notions the properties are stated with *)

Section Notions.

Import Connect.

(** The wrapper keeps no unsubscribe function of its own: the state the
    constructor leaves and every later state. *)
Definition no_handles (h : Heap) : Prop := __soyaUnsubscribe (self h) = ∅.

End Notions.

Section ServerNotions.

Import Http Server.

Context {Heap : Type}.

Implicit Types (app : @Application Heap) (w : @World Heap).

Local Notation "'do' x <- m ; k" := (bind m (fun x => k))
  (at level 10, x name, m at level 100, k at level 200).

(** A response with its headers replaced. *)
Definition set_headers (m : gmap string HeaderValue) (r : ServerResponse) : ServerResponse :=
  {| statusCode := statusCode r; statusMessage := statusMessage r; headers := m;
     headersSent := headersSent r; finished := finished r; _hasBody := _hasBody r;
     body := body r |}.

(** [w'] differs from [w] in the response at most. *)
Definition same_but_response w w' : Prop :=
  heap w' = heap w /\ index w' = index w /\ jobs w' = jobs w /\ log w' = log w.

(** The headers a response carries after [setHeader] was called for each
    entry of [headerData] in turn. *)
Definition with_headers (headerData : list (string * HeaderValue))
    (m : gmap string HeaderValue) : gmap string HeaderValue :=
  fold_left (fun m kv => <[toLowerCase kv.1 := kv.2]> m) headerData m.

(** The part of [storeResolve] after the render: status, headers, cookies
    and body. *)
Definition writeResponse (cookieJar : @ServerCookieJar Heap)
    (renderResult : @RenderResult Heap) (htmlResult : JsString) : M unit :=
  do _ <- update_response (set_statusCode (httpStatusCode renderResult));
  do _ <- update_response (set_statusMessage (httpStatusMessage renderResult));
  do _ <- on_response (setHeader "Content-Length" (HNum (byteLength htmlResult)));
  do _ <- on_response (setHeader "Content-Type" (HStr "text/html;charset=UTF-8"));
  do _ <- setHeaders (httpHeaders renderResult);
  do cookieValues <- read_heap (generateHeaderValues cookieJar);
  do _ <-
    (if (0 <? length cookieValues)%nat
     then on_response (setHeader "Set-Cookie" (HList cookieValues))
     else ret tt);
  update_response (end_ (utf8_encode htmlResult)).

(** The part of [storeResolve] up to and including the render. *)
Definition finalRender app (routeResult : RouteResult) (store : option (@Store Heap))
    (renderResult : @RenderResult Heap) (pageDep : PageDep) : M JsString :=
  do state <-
    match store with
    | Some store =>
        do _ <- emit EvGetState;
        do state <- read_heap (_getState store);
        do _ <- emit EvStartRender;
        do _ <- update_heap (_startRender store);
        ret (Some state)
    | None => ret None
    end;
  do htmlResult <- contentRender app routeResult renderResult state pageDep;
  do _ <-
    match store with
    | Some store => do _ <- emit EvEndRender; update_heap (_endRender store)
    | None => ret tt
    end;
  ret htmlResult.

(** The events of the final render: with a store, the snapshot is read
    first and is what the render receives; without one the render receives
    [null]. *)
Definition finalRender_events (store : option (@Store Heap)) (h : Heap) : list Event :=
  match store with
  | Some store => [EvGetState; EvStartRender; EvRender (Some (_getState store h))]
  | None => [EvRender None]
  end.

(** The events through which an error leaves the request. *)
Definition is_error_event (e : Event) : Prop :=
  match e with
  | EvResponseSentError _ | EvResponseNotSentError _ | EvUnhandledRejection _ => True
  | _ => False
  end.

(** The reaction [hydrateThenRender] registers for a promise. *)
Definition reaction (promise : @Promise Heap) (routeResult : RouteResult)
    (request : IncomingMessage) (store : option (@Store Heap))
    (cookieJar : @ServerCookieJar Heap) (renderResult : @RenderResult Heap)
    (pageDep : PageDep) : @Job Heap :=
  {| job_promise := promise; job_routeResult := routeResult; job_request := request;
     job_store := store; job_cookieJar := cookieJar; job_renderResult := renderResult;
     job_pageDep := pageDep |}.

(** The value the page's own headers give for [name] (in lower case): that
    of the last entry with this name, whatever its case. *)
Definition page_header (name : string) (headerData : list (string * HeaderValue))
    : option HeaderValue :=
  fold_left (fun found kv => if decide (toLowerCase kv.1 = name) then Some kv.2 else found)
    headerData None.

(** The positions of the handlers invoked, in the order of invocation. *)
Definition invoked (events : list Event) : list nat :=
  omap (fun e => match e with EvInvoke i => Some i | _ => None end) events.

(** The number of calls of [runMiddleware]: the first one and every call
    of [next]. *)
Definition calls (events : list Event) : nat :=
  length (omap (fun e => match e with EvRunMiddleware => Some tt | _ => None end) events).

(** The two events of the chain itself. *)
Definition chain_event (e : Event) : bool :=
  match e with EvRunMiddleware | EvInvoke _ => true | _ => false end.

(** [w'] has the [index] of [w] and the same calls and invocations. *)
Definition same_chain w w' : Prop :=
  index w' = index w /\ invoked (log w') = invoked (log w) /\
  calls (log w') = calls (log w).

(** A call that neither touches [index] nor runs [runMiddleware]. *)
Definition off_chain {A : Type} (m : @M Heap A) : Prop :=
  forall w, same_chain w (fst (m w)).

(** What holds of a request's world whenever the chain is at rest: [index]
    counts the calls of [runMiddleware] so far, and the handlers invoked
    are the first [index] ones of the list (all of them once [index] is
    past the end), each once, in list order. *)
Definition chain_inv app w : Prop :=
  index w = calls (log w) /\
  invoked (log w) = seq 0 (min (index w) (length (_middlewares app))).

End ServerNotions.

Section BootNotions.

Import Http Server Boot.

Context {Heap : Type}.

(** The entry point the constructor creates for a page component. *)
Definition entry_of (pageCmpt : @PageComponent Heap) : EntryPoint :=
  {| entry_name := cmpt_name pageCmpt; entry_absDir := cmpt_absDir pageCmpt |}.

(** A page component the constructor gets past: its class can be
    instantiated and the route table owns every route it requires. *)
Definition component_ok (routes : gmap string Route) (pageCmpt : @PageComponent Heap)
    : Prop :=
  cmpt_new pageCmpt = Ok tt /\
  Forall (fun routeId => is_Some (routes !! routeId))
    (default [] (cmpt_getRouteRequirements pageCmpt)).

(** The last component of the list registered under [name]. *)
Fixpoint last_named (name : string) (pageComponents : list (@PageComponent Heap))
    : option (@PageComponent Heap) :=
  match pageComponents with
  | [] => None
  | pageCmpt :: rest =>
      match last_named name rest with
      | Some later => Some later
      | None => if bool_decide (cmpt_name pageCmpt = name) then Some pageCmpt else None
      end
  end.

(** The keys of [clientReplace] the constructor writes. *)
Definition replaced_keys (routerNodeRegistrationAbsolutePath : option string) : list string :=
  ["soya/lib/client/Register"; "soya/lib/client/Register.js";
   "soya/lib/page/react/ReactRenderer"; "soya/lib/page/react/ReactRenderer.js";
   "soya/lib/scope"; "soya/lib/scope.js"] ++
  match routerNodeRegistrationAbsolutePath with
  | Some path =>
      if bool_decide (path = "") then []
      else ["soya/lib/server/registerRouterNodes"; "soya/lib/server/registerRouterNodes.js"]
  | None => []
  end.

End BootNotions.

Section RequestNotions.

Import Http Server.

Context {Heap : Type}.

(** The events of the synchronous part of a request: the chain, and what
    [handle] does before the promise settles. *)
Definition request_event (e : Event) : Prop :=
  match e with
  | EvRunMiddleware | EvInvoke _ | EvDebug _ | EvStartRender | EvEndRender
  | EvRender _ | EvHydrate => True
  | _ => False
  end.

(** [w'] has the events of [w], followed by events of the synchronous
    part only. *)
Definition sync_extends (w w' : @World Heap) : Prop :=
  exists rest, log w' = log w ++ rest /\ Forall request_event rest.

(** A call that adds events of the synchronous part only. *)
Definition sync_only {A : Type} (m : @M Heap A) : Prop :=
  forall w, sync_extends w (fst (m w)).

(** The events by which an error handler was called. *)
Definition handler_calls (events : list Event) : list Event :=
  omap (fun e => match e with
                 | EvResponseSentError _ | EvResponseNotSentError _ => Some e
                 | _ => None
                 end) events.

(** The state and heap the final render starts from. *)
Definition final_state (store : option (@Store Heap)) (h : Heap) : option Snapshot :=
  match store with Some st => Some (_getState st h) | None => None end.

Definition final_heap (store : option (@Store Heap)) (h : Heap) : Heap :=
  match store with Some st => _startRender st h | None => h end.









End RequestNotions.

Section WrapperNotions.

Import Connect.

(** The listeners the store creates for a run of [subscribe] calls made by
    [consumer], the first of them under the handle [first]. *)
Fixpoint listeners_of (consumer first : nat) (calls : list SubscribeCall)
    : list Subscription :=
  match calls with
  | [] => []
  | c :: rest =>
      {| sub_handle := first; sub_consumer := consumer;
         sub_segment := call_segmentId c; sub_query := call_query c;
         sub_slot := call_stateName c; sub_hydration := call_hydration c |}
        :: listeners_of consumer (S first) rest
  end.

(** The last call of a run that names the slot [stateName]. *)
Definition last_call (stateName : string) (calls : list SubscribeCall)
    : option SubscribeCall :=
  last (filter (fun c => call_stateName c = stateName) calls).

(** The props [connectedProps] sets itself. *)
Definition wrapper_keys : list string :=
  ["getActionCreator"; "context"; "result"; "getReduxStore"; "getConfig"].

(** The context the constructor settles on: [props.context || context.context]. *)
Definition chosen_context (props_context context_context : option Wiring.Context)
    : option Wiring.Context :=
  match props_context with Some c => Some c | None => context_context end.

(** The store value [getReduxStore] finds in a context. *)
Definition found_store (context : option Wiring.Context) : option Wiring.StoreValue :=
  match context with
  | Some c =>
      match Wiring.store c with
      | Some st => Some st
      | None => Wiring.ctx_reduxStore c
      end
  | None => None
  end.

(** The config value [getConfig] finds in a context. *)
Definition found_config (context : option Wiring.Context) : option Wiring.ConfigValue :=
  match context with Some c => Wiring.config c | None => None end.

(** Calling [register] for each page class of a list, in order. *)
Definition register_each (pageClasses : list string) (window : Client.Window)
    : Client.Window :=
  foldl (fun window pageClass => Client.register pageClass window) window pageClasses.

End WrapperNotions.

(** * Properties of the wrapper component *)

Section ConnectProperties.

Import Connect.

Lemma unsubscribe_without_handle (stateName : string) (h : Heap) :
  no_handles h -> unsubscribe stateName h = h.
Proof.
  unfold no_handles, unsubscribe. intros ->. by rewrite lookup_empty.
Qed.

(** What one [subscribe] call does to a wrapper without handles: the store
    gets one more listener, and the wrapper still has no handle. *)
Lemma subscribe_appends (segmentId : string) (query : Query) (stateName : string)
    (hydration : Hydration) (h h' : Heap) :
  no_handles h ->
  subscribe segmentId query stateName hydration h = Ok h' ->
  no_handles h' /\
  self_id (self h') = self_id (self h) /\
  next_handle (reduxStore h') = S (next_handle (reduxStore h)) /\
  subscriptions (reduxStore h') =
    subscriptions (reduxStore h) ++
      [{| sub_handle := next_handle (reduxStore h); sub_consumer := self_id (self h);
          sub_segment := segmentId; sub_query := query; sub_slot := stateName;
          sub_hydration := hydration |}].
Proof.
  intros Hno. unfold subscribe.
  rewrite (unsubscribe_without_handle _ _ Hno).
  unfold store_subscribe.
  destruct (segments (reduxStore h) !! segmentId); [|discriminate].
  intros [= <-]. cbn. auto.
Qed.

Lemma active_app (consumer : nat) (slot : string) (st : ReduxStore) (s : Subscription)
    (subs : list Subscription) :
  subscriptions st = subs ++ [s] ->
  sub_consumer s = consumer -> sub_slot s = slot ->
  length (active consumer slot st) =
    S (length (filter (fun s => sub_consumer s = consumer ∧ sub_slot s = slot) subs)).
Proof.
  intros Hsubs Hc Hs. unfold active. rewrite Hsubs, filter_app, length_app.
  rewrite filter_cons_True by done. cbn. lia.
Qed.

(** Every successful [subscribe] to a slot leaves one listener more for
    that slot: the earlier ones stay. *)
Lemma subscribe_adds_listener (segmentId : string) (query : Query) (stateName : string)
    (hydration : Hydration) (h h' : Heap) :
  no_handles h ->
  subscribe segmentId query stateName hydration h = Ok h' ->
  length (active (self_id (self h)) stateName (reduxStore h')) =
    S (length (active (self_id (self h)) stateName (reduxStore h))).
Proof.
  intros Hno Hsub.
  destruct (subscribe_appends _ _ _ _ _ _ Hno Hsub) as (_ & _ & _ & Hsubs).
  by rewrite (active_app _ _ _ _ _ Hsubs).
Qed.

Lemma run_subscribe_adds_listeners (stateName : string) (calls : list SubscribeCall) :
  Forall (fun c => call_stateName c = stateName) calls ->
  forall h h' : Heap,
  no_handles h ->
  run_subscribe calls h = Ok h' ->
  no_handles h' /\ self_id (self h') = self_id (self h) /\
  length (active (self_id (self h)) stateName (reduxStore h')) =
    length (active (self_id (self h)) stateName (reduxStore h)) + length calls.
Proof.
  induction 1 as [|c calls Hc _ IH]; intros h h' Hno; cbn.
  - intros [= <-]. repeat split; auto.
  - destruct (subscribe _ _ _ _ h) as [h1|] eqn:Hsub; [|discriminate].
    intros Hrun. rewrite Hc in Hsub.
    destruct (subscribe_appends _ _ _ _ _ _ Hno Hsub) as (Hno1 & Hid & _ & _).
    destruct (IH _ _ Hno1 Hrun) as (Hno' & Hid' & Hlen).
    repeat split; [done | congruence |].
    rewrite Hid in Hlen. rewrite Hlen.
    rewrite (subscribe_adds_listener _ _ _ _ _ _ Hno Hsub). lia.
Qed.

Lemma run_subscribe_no_handles (calls : list SubscribeCall) :
  forall h h' : Heap, no_handles h -> run_subscribe calls h = Ok h' -> no_handles h'.
Proof.
  induction calls as [|c calls IH]; intros h h' Hno; cbn.
  - by intros [= <-].
  - destruct (subscribe _ _ _ _ h) as [h1|] eqn:Hsub; [|discriminate].
    apply IH. by destruct (subscribe_appends _ _ _ _ _ _ Hno Hsub).
Qed.

Lemma register_all_no_handles (rc : ReactComponent) (classes : list SegmentClass) :
  forall h h' : Heap, no_handles h -> register_all classes h = Ok h' -> no_handles h'.
Proof.
  induction classes as [|sc classes IH]; intros h h' Hno; cbn.
  - by intros [= <-].
  - unfold _register. destruct (store_register sc (reduxStore h)); [|discriminate].
    by apply IH.
Qed.

(** The constructor leaves a wrapper without handles, and no method of the
    wrapper ever records one. *)
Lemma no_handles_always (rc : ReactComponent) (h : Heap) :
  no_handles h ->
  (forall nextProps h', componentWillReceiveProps rc nextProps h = Ok h' -> no_handles h') /\
  (forall h', componentWillMount rc h = Ok h' -> no_handles h') /\
  no_handles (componentWillUnmount h) /\
  (forall stateName, no_handles (unsubscribe stateName h)).
Proof.
  intros Hno. split; [|split; [|split]].
  - intros nextProps h'. unfold componentWillReceiveProps.
    destruct (shouldSubscriptionsUpdate _ _ _); [|by intros [= <-]].
    by apply run_subscribe_no_handles.
  - intros h'. unfold componentWillMount.
    destruct (register_all _ h) as [h1|] eqn:Hreg; [|discriminate].
    apply run_subscribe_no_handles. by eapply (register_all_no_handles rc).
  - done.
  - intros stateName. by rewrite unsubscribe_without_handle.
Qed.

(** C1, evaluated on the code: a wrapper that subscribes twice to the slot
    [items] ends with two listeners in the store for that slot, and with no
    unsubscribe function recorded for it. The first subscription is never
    cancelled. *)
Theorem subscribe_twice_keeps_both_listeners :
  exists h1 h2 : Heap,
    subscribe "todo" "all" "items" "" Examples.todo_heap = Ok h1 /\
    subscribe "todo" "done" "items" "" h1 = Ok h2 /\
    length (active 1 "items" (reduxStore h2)) = 2 /\
    map sub_query (active 1 "items" (reduxStore h2)) = ["all"; "done"] /\
    __soyaUnsubscribe (self h2) !! "items" = None /\
    unsubscribe_properties h2 !! "todo" = Some 1.
Proof.
  eexists _, _. split; [reflexivity|]. split; [reflexivity|].
  repeat split; vm_compute; reflexivity.
Qed.

Lemma store_unsubscribe_owned (consumer : nat) (st : ReduxStore) :
  owned consumer (store_unsubscribe consumer st) = [].
Proof.
  unfold owned, store_unsubscribe; cbn.
  induction (subscriptions st) as [|s subs IH]; [done|].
  destruct (decide (sub_consumer s = consumer)) as [Heq|Hne].
  - by rewrite filter_cons_False by (intros ?; done).
  - rewrite filter_cons_True by done. by rewrite filter_cons_False.
Qed.

Lemma store_unsubscribe_others (consumer other : nat) (st : ReduxStore) :
  other <> consumer ->
  owned other (store_unsubscribe consumer st) = owned other st.
Proof.
  intros Hne. unfold owned, store_unsubscribe; cbn.
  induction (subscriptions st) as [|s subs IH]; [done|].
  destruct (decide (sub_consumer s = consumer)) as [Heq|Hne'].
  - rewrite filter_cons_False by (intros ?; done).
    rewrite (filter_cons_False _ s subs) by congruence. done.
  - rewrite filter_cons_True by done.
    destruct (decide (sub_consumer s = other)).
    + rewrite !filter_cons_True by done. by rewrite IH.
    + rewrite !filter_cons_False by done. done.
Qed.

(** Props with the same keys and values are shallowly equal once
    connected, whichever object carries them. *)
Lemma isEqualShallow_connectedProps (w : Wrapper) (p q : Props) :
  p = q -> isEqualShallow (connectedProps w p) (connectedProps w q) = true.
Proof. intros ->. unfold isEqualShallow. by apply bool_decide_eq_true. Qed.

End ConnectProperties.

(** * Properties of the server *)

Section ServerProperties.

Import Http Server.

Context {Heap : Type}.

Implicit Types (app : @Application Heap) (w : @World Heap) (node : Node).

(** ** Starting: one server at most *)

Lemma createServer_created app node :
  _serverCreated app = true -> createServer app node = (app, node).
Proof. unfold createServer. by intros ->. Qed.

Lemma createServer_sets_flag app node :
  _serverCreated (fst (createServer app node)) = true.
Proof. unfold createServer. by destruct (_serverCreated app) eqn:E. Qed.

Lemma createServer_times_created (n : nat) app node :
  _serverCreated app = true -> createServer_times n app node = (app, node).
Proof.
  intros Hc. induction n as [|n IH]; cbn; [done|].
  by rewrite (createServer_created _ _ Hc).
Qed.

Lemma compiled_created (results : list CompileResult) app node :
  _serverCreated app = true ->
  listening (snd (compiled results app node)) = listening node /\
  _serverCreated (fst (compiled results app node)) = true.
Proof.
  revert app. induction results as [|c rest IH]; intros app Hc; cbn; [done|].
  unfold onReady. rewrite createServer_created by done. by apply IH.
Qed.

(** C9: [createServer] creates a server the first time it is called and
    never again: a second call changes nothing, any number of calls in a
    row equals one call, the one call adds a listening server exactly when
    [_serverCreated] was not set, and however often the compiler calls
    [onReady], the servers listening are those after the first call. *)
Theorem createServer_idempotent app node (n : nat) (results : list CompileResult) :
  _serverCreated (fst (createServer app node)) = true /\
  createServer (fst (createServer app node)) (snd (createServer app node)) =
    createServer app node /\
  createServer_times (S n) app node = createServer app node /\
  listening (snd (createServer app node)) =
    (if _serverCreated app then listening node
     else listening node ++ [port (_frameworkConfig app)]) /\
  listening (snd (compiled results app node)) =
    match results with
    | [] => listening node
    | _ :: _ => listening (snd (createServer app node))
    end.
Proof.
  split; [apply createServer_sets_flag|].
  split.
  { rewrite createServer_created by apply createServer_sets_flag.
    by destruct (createServer app node). }
  split.
  { cbn. destruct (createServer app node) as [app1 node1] eqn:E.
    apply createServer_times_created.
    change app1 with (fst (app1, node1)). rewrite <- E. apply createServer_sets_flag. }
  split; [unfold createServer; by destruct (_serverCreated app)|].
  destruct results as [|c rest]; [done|]. cbn. unfold onReady.
  destruct (createServer (set_compileResult (Some c) app) node) as [app1 node1] eqn:E.
  assert (Hflag : _serverCreated app1 = true).
  { change app1 with (fst (app1, node1)). rewrite <- E. apply createServer_sets_flag. }
  destruct (compiled_created rest app1 node1 Hflag) as [-> _].
  change node1 with (snd (app1, node1)). rewrite <- E.
  unfold createServer; cbn. by destruct (_serverCreated app).
Qed.

(** ** The middleware chain *)

(** C10: when [index] is past the end of [_middlewares], a call of
    [runMiddleware] returns normally and invokes nothing: the call is
    noted, [index] moves on, and the response, the heap and the pending
    reactions are as before. *)
Theorem runMiddleware_past_end app (request : IncomingMessage) w :
  length (_middlewares app) <= index w ->
  runMiddleware app request w =
    Some (set_index (S (index w)) (record EvRunMiddleware w), Ok tt).
Proof.
  intros Hlen. unfold runMiddleware.
  replace (length (_middlewares app) - index w) with 0 by lia. cbn.
  by rewrite lookup_ge_None_2.
Qed.

(** ** Requests that cannot be routed *)


Lemma handleError_not_sent app (error : Value) (request : IncomingMessage) w :
  headersSent (response w) = false ->
  handleError app error request w =
    (set_response (responseNotSentError (_errorHandler app) error request (response w))
       (record (EvResponseNotSentError error) w), Ok tt).
Proof. unfold handleError. by intros ->. Qed.

Lemma handleError_sent app (error : Value) (request : IncomingMessage) w :
  headersSent (response w) = true ->
  handleError app error request w =
    (set_response (responseSentError (_errorHandler app) error request (response w))
       (record (EvResponseSentError error) w), Ok tt).
Proof. unfold handleError. by intros ->. Qed.

(** ** Calls that only touch the response *)


Lemma same_but_response_set (r : ServerResponse) w w' :
  same_but_response w w' -> same_but_response w (set_response r w').
Proof. by intros (? & ? & ? & ?). Qed.

(** [setHeaders] either sets every header of the list, in order, or throws
    because the headers were already sent; nothing but the response
    changes. *)
Lemma setHeaders_spec (headerData : list (string * HeaderValue)) w :
  same_but_response w (fst (setHeaders headerData w)) /\
  headersSent (response (fst (setHeaders headerData w))) = headersSent (response w) /\
  finished (response (fst (setHeaders headerData w))) = finished (response w) /\
  body (response (fst (setHeaders headerData w))) = body (response w) /\
  statusCode (response (fst (setHeaders headerData w))) = statusCode (response w) /\
  (snd (setHeaders headerData w) = Ok tt ->
   headers (response (fst (setHeaders headerData w))) =
     fold_left (fun m kv => <[toLowerCase kv.1 := kv.2]> m) headerData
       (headers (response w))).
Proof.
  revert w. induction headerData as [|[key value] rest IH]; intros w.
  - cbn. repeat split; done.
  - cbn [setHeaders]. unfold bind, on_response, setHeader.
    destruct (headersSent (response w)) eqn:Hsent; cbn.
    + repeat split; try done.
    + specialize (IH (set_response
        {| statusCode := statusCode (response w); statusMessage := statusMessage (response w);
           headers := <[toLowerCase key := value]> (headers (response w));
           headersSent := false; finished := finished (response w);
           _hasBody := _hasBody (response w);
           body := body (response w) |} w)).
      destruct IH as ((? & ? & ? & ?) & Hs & Hf & Hb & Hc & Hh).
      cbn in *. repeat split; done.
Qed.

(** ** Sequencing *)

(** Reads of a field of a world or response that was just built. *)
Ltac simpl_world :=
  cbn [response heap index jobs log set_response set_heap set_index set_jobs record
       statusCode statusMessage headers headersSent finished _hasBody body
       set_headers set_statusCode set_statusMessage fst snd] in *.


Lemma bind_assoc {A B C : Type} (m : @M Heap A) (f : A -> @M Heap B) (g : B -> @M Heap C) w :
  bind (bind m f) g w = bind m (fun a => bind (f a) g) w.
Proof. unfold bind. by destruct (m w) as [w' [a|e]]. Qed.

Lemma bind_ext {A B : Type} (m : @M Heap A) (f g : A -> @M Heap B) w :
  (forall a w', f a w' = g a w') -> bind m f w = bind m g w.
Proof. intros Hfg. unfold bind. destruct (m w) as [w' [a|e]]; [apply Hfg | done]. Qed.

Lemma bind_ok {A B : Type} (m : @M Heap A) (k : A -> @M Heap B) w w' (a : A) :
  m w = (w', Ok a) -> bind m k w = k a w'.
Proof. unfold bind. by intros ->. Qed.

Lemma bind_throw {A B : Type} (m : @M Heap A) (k : A -> @M Heap B) w w' (e : Value) :
  m w = (w', Throw e) -> bind m k w = (w', Throw e).
Proof. unfold bind. by intros ->. Qed.

(** ** The final render and the response it writes *)

Lemma storeResolve_parts app (routeResult : RouteResult) (store : option (@Store Heap))
    (cookieJar : @ServerCookieJar Heap) (renderResult : @RenderResult Heap)
    (pageDep : PageDep) w :
  storeResolve app routeResult store cookieJar renderResult pageDep w =
  bind (finalRender app routeResult store renderResult pageDep)
       (writeResponse cookieJar renderResult) w.
Proof.
  unfold storeResolve, finalRender.
  rewrite bind_assoc. apply bind_ext; intros state w1.
  rewrite bind_assoc. apply bind_ext; intros html w2.
  rewrite bind_assoc. apply bind_ext; intros [] w3.
  reflexivity.
Qed.

Lemma finalRender_spec app (routeResult : RouteResult) (store : option (@Store Heap))
    (renderResult : @RenderResult Heap) (pageDep : PageDep) w :
  let state := match store with Some st => Some (_getState st (heap w)) | None => None end in
  let h0 := match store with Some st => _startRender st (heap w) | None => heap w end in
  let out := contentRenderer renderResult (render_args app routeResult state pageDep) h0 in
  let '(w', r) := finalRender app routeResult store renderResult pageDep w in
  response w' = response w /\ index w' = index w /\ jobs w' = jobs w /\
  match snd out with
  | Ok html =>
      r = Ok html /\
      log w' = log w ++ finalRender_events store (heap w) ++
                 match store with Some _ => [EvEndRender] | None => [] end /\
      heap w' = match store with Some st => _endRender st (fst out) | None => fst out end
  | Throw e =>
      r = Throw e /\
      log w' = log w ++ finalRender_events store (heap w) /\
      heap w' = fst out
  end.
Proof.
  cbn zeta. unfold finalRender, contentRender, bind, emit, read_heap, update_heap,
    on_heap, lift, ret.
  destruct store as [store|]; cbn.
  - destruct (contentRenderer renderResult _ _) as [h [html|e]]; cbn;
      repeat split; rewrite <- ?app_assoc; done.
  - destruct (contentRenderer renderResult _ _) as [h [html|e]]; cbn;
      repeat split; rewrite <- ?app_assoc; done.
Qed.


Lemma setHeaders_not_sent (headerData : list (string * HeaderValue)) w :
  headersSent (response w) = false ->
  setHeaders headerData w =
    (set_response (set_headers (with_headers headerData (headers (response w))) (response w)) w,
     Ok tt).
Proof.
  revert w. induction headerData as [|[key value] rest IH]; intros w Hsent.
  - cbn. unfold ret, set_headers, set_response. destruct w as [[] ? ? ? ?]; done.
  - cbn [setHeaders]. unfold bind, on_response, setHeader. rewrite Hsent.
    rewrite IH by done. cbn. unfold set_headers, set_response; cbn.
    by rewrite Hsent.
Qed.

Lemma setHeader_not_sent (name : string) (value : HeaderValue) w :
  headersSent (response w) = false ->
  on_response (setHeader name value) w =
    (set_response (set_headers (<[toLowerCase name := value]> (headers (response w)))
                     (response w)) w, Ok tt).
Proof.
  intros Hsent. unfold on_response, setHeader, set_headers. by rewrite Hsent.
Qed.

Lemma setHeader_sent (name : string) (value : HeaderValue) w :
  headersSent (response w) = true ->
  on_response (setHeader name value) w =
    (w, Throw (new_Error "Can't set headers after they are sent.")).
Proof. intros Hsent. unfold on_response, setHeader. by rewrite Hsent. Qed.

(** With the headers already sent, the first [setHeader] throws and
    nothing is written. *)
Lemma writeResponse_sent (cookieJar : @ServerCookieJar Heap)
    (renderResult : @RenderResult Heap) (html : JsString) w :
  headersSent (response w) = true ->
  exists w' e, writeResponse cookieJar renderResult html w = (w', Throw e) /\
    same_but_response w w' /\ headersSent (response w') = true /\
    body (response w') = body (response w).
Proof.
  intros Hsent. unfold writeResponse.
  erewrite bind_ok by reflexivity. erewrite bind_ok by reflexivity.
  erewrite bind_throw by (apply setHeader_sent; exact Hsent).
  eexists _, _. split; [reflexivity|]. by repeat split.
Qed.

(** With the headers not yet sent, every header is set and the body goes
    out. *)
Lemma writeResponse_not_sent (cookieJar : @ServerCookieJar Heap)
    (renderResult : @RenderResult Heap) (html : JsString) w :
  headersSent (response w) = false ->
  exists r, writeResponse cookieJar renderResult html w = (set_response r w, Ok tt) /\
    statusCode r = httpStatusCode renderResult /\
    statusMessage r = httpStatusMessage renderResult /\
    headers r =
      (let m := with_headers (httpHeaders renderResult)
                  (<["content-type" := HStr "text/html;charset=UTF-8"]>
                     (<["content-length" := HNum (byteLength html)]> (headers (response w)))) in
       if (0 <? length (generateHeaderValues cookieJar (heap w)))%nat
       then <["set-cookie" := HList (generateHeaderValues cookieJar (heap w))]> m
       else m) /\
    (finished (response w) = false ->
     finished r = true /\ headersSent r = true /\
     _hasBody r = _hasBody (response w) && status_has_body (httpStatusCode renderResult) /\
     body r = body (response w) ++ (if _hasBody r then utf8_encode html else [])).
Proof.
  intros Hsent. unfold writeResponse.
  erewrite bind_ok by reflexivity. erewrite bind_ok by reflexivity.
  erewrite bind_ok by (apply setHeader_not_sent; exact Hsent).
  erewrite bind_ok by (apply setHeader_not_sent; exact Hsent).
  erewrite bind_ok by (apply setHeaders_not_sent; exact Hsent).
  erewrite bind_ok by reflexivity.
  change (toLowerCase "Content-Length") with "content-length".
  change (toLowerCase "Content-Type") with "content-type".
  simpl_world.
  destruct (0 <? length (generateHeaderValues cookieJar (heap w)))%nat.
  - erewrite bind_ok by (apply setHeader_not_sent; exact Hsent).
    change (toLowerCase "Set-Cookie") with "set-cookie".
    unfold update_response, end_. cbn -[with_headers utf8_encode byteLength status_has_body].
    rewrite Hsent.
    destruct (finished (response w)) eqn:Hfin;
      (eexists; split; [reflexivity|];
       cbn -[with_headers utf8_encode byteLength status_has_body];
       repeat split; done).
  - erewrite bind_ok by reflexivity.
    unfold update_response, end_. cbn -[with_headers utf8_encode byteLength status_has_body].
    rewrite Hsent.
    destruct (finished (response w)) eqn:Hfin;
      (eexists; split; [reflexivity|];
       cbn -[with_headers utf8_encode byteLength status_has_body];
       repeat split; done).
Qed.

(** ** What a settled promise leads to *)

(** [catch(handlePromiseError)] adds nothing but events of errors, and
    leaves the heap alone. *)
Lemma caught_log app (job : @Job Heap) (error : Value) w :
  exists errors, log (caught app job error w) = log w ++ errors /\
    Forall is_error_event errors /\
    heap (caught app job error w) = heap w.
Proof.
  unfold caught, handlePromiseError, bind, lift.
  destruct (_ensureError error) as [error'|e]; cbn.
  - unfold handleError. destruct (headersSent (response w)); cbn;
      (eexists; split; [reflexivity|]; split; [apply Forall_singleton; exact I|done]).
  - unfold handleError. cbn. destruct (headersSent (response w)); cbn;
      rewrite <- app_assoc;
      (eexists; split; [reflexivity|]; split;
       [apply Forall_cons; split; [exact I|apply Forall_singleton; exact I]|done]).
Qed.

(** What the error handler is given when the rejection value converts. *)
Lemma caught_ensured app (job : @Job Heap) (error error' : Value) w :
  _ensureError error = Ok error' ->
  caught app job error w = fst (handleError app error' (job_request job) w).
Proof.
  intros Hens. unfold caught, handlePromiseError, bind, lift. rewrite Hens.
  unfold handleError. by destruct (headersSent (response w)).
Qed.

(** [then(storeResolve)] on fulfilment: the final render comes first;
    the [_endRender] of a store and at most one error event follow. *)
Lemma fulfilled_log app (job : @Job Heap) w :
  exists ended errors,
    log (fulfilled app job w) =
      log w ++ finalRender_events (job_store job) (heap w) ++ ended ++ errors /\
    (ended = [] \/ ended = [EvEndRender] /\ job_store job <> None) /\
    Forall is_error_event errors.
Proof.
  unfold fulfilled. rewrite storeResolve_parts. unfold bind.
  pose proof (finalRender_spec app (job_routeResult job) (job_store job)
                (job_renderResult job) (job_pageDep job) w) as Hfinal.
  cbn zeta in Hfinal.
  destruct (finalRender _ _ _ _ _ w) as [w1 r1].
  destruct Hfinal as (Hresp & _ & _ & Hout).
  assert (Hended : forall ended,
            ended = match job_store job with Some _ => [EvEndRender] | None => [] end ->
            ended = [] \/ ended = [EvEndRender] /\ job_store job <> None).
  { intros ended ->. destruct (job_store job); [right | left]; done. }
  destruct (contentRenderer _ _ _) as [h [html|e]]; cbn [snd fst] in Hout.
  - destruct Hout as (-> & Hlog & _).
    destruct (headersSent (response w1)) eqn:Hsent.
    + destruct (writeResponse_sent (job_cookieJar job) (job_renderResult job) html w1 Hsent)
        as (w2 & e & -> & (_ & _ & _ & Hlog2) & _).
      destruct (caught_log app job e w2) as (errors & -> & Hev & _).
      rewrite Hlog2, Hlog.
      exists (match job_store job with Some _ => [EvEndRender] | None => [] end), errors.
      rewrite <- !app_assoc.
      split; [reflexivity|]. split; [by apply Hended | done].
    + destruct (writeResponse_not_sent (job_cookieJar job) (job_renderResult job) html w1 Hsent)
        as (r & -> & _).
      simpl_world. rewrite Hlog.
      exists (match job_store job with Some _ => [EvEndRender] | None => [] end), [].
      rewrite app_nil_r.
      split; [reflexivity|]. split; [by apply Hended | constructor].
  - destruct Hout as (-> & Hlog & _).
    destruct (caught_log app job e w1) as (errors & -> & Hev & _).
    rewrite Hlog. exists [], errors. rewrite <- !app_assoc.
    split; [reflexivity|]. split; [by left | done].
Qed.

(** ** The order of discovery render, hydration and final render *)

(** The synchronous part with a store, case by case. *)
Lemma hydrateThenRender_store app (routeResult : RouteResult) (request : IncomingMessage)
    (store : @Store Heap) (cookieJar : @ServerCookieJar Heap)
    (renderResult : @RenderResult Heap) (pageDep : PageDep) w :
  let out := contentRenderer renderResult (render_args app routeResult None pageDep)
               (_startRender store (heap w)) in
  let '(w', r) := hydrateThenRender app routeResult request (Some store) cookieJar
                    renderResult pageDep w in
  response w' = response w /\ index w' = index w /\
  if _shouldRenderBeforeServerHydration store (heap w) then
    match snd out with
    | Throw e =>
        r = Throw e /\ jobs w' = jobs w /\
        log w' = log w ++ [EvStartRender; EvRender None]
    | Ok _ =>
        r = Ok tt /\
        log w' = log w ++ [EvStartRender; EvRender None; EvEndRender; EvHydrate] /\
        heap w' = fst (hydrate store (_endRender store (fst out))) /\
        jobs w' = jobs w ++
          [reaction (snd (hydrate store (_endRender store (fst out)))) routeResult request
             (Some store) cookieJar renderResult pageDep]
    end
  else
    r = Ok tt /\
    log w' = log w ++ [EvHydrate] /\
    heap w' = fst (hydrate store (heap w)) /\
    jobs w' = jobs w ++
      [reaction (snd (hydrate store (heap w))) routeResult request (Some store) cookieJar
         renderResult pageDep].
Proof.
  cbn zeta.
  unfold hydrateThenRender, contentRender, bind, emit, read_heap, update_heap,
    on_heap, lift, ret, reaction.
  destruct (_shouldRenderBeforeServerHydration store (heap w)); simpl_world.
  - destruct (contentRenderer renderResult _ _) as [h [html|e]]; simpl_world.
    + destruct (hydrate store (_endRender store h)) as [h' promise]; simpl_world.
      repeat split; rewrite <- ?app_assoc; done.
    + repeat split; rewrite <- ?app_assoc; done.
  - destruct (hydrate store (heap w)) as [h' promise]; simpl_world.
    repeat split; done.
Qed.

(** C7: for a page without a store the synchronous part does nothing but
    register the reaction of an already resolved promise (no render, no
    [hydrate]), and the first thing that reaction does is the final render,
    with [null] for the state.  For a store that does not ask for a render
    before hydration, the synchronous part calls [hydrate] and renders
    nothing. *)
Theorem no_store_goes_straight_to_final_render app (routeResult : RouteResult)
    (request : IncomingMessage) (cookieJar : @ServerCookieJar Heap)
    (renderResult : @RenderResult Heap) (pageDep : PageDep) w :
  hydrateThenRender app routeResult request None cookieJar renderResult pageDep w =
    (set_jobs (jobs w ++ [reaction Resolved routeResult request None cookieJar
                            renderResult pageDep]) w, Ok tt) /\
  (forall w1, exists errors,
     log (settle app (reaction Resolved routeResult request None cookieJar
                        renderResult pageDep) w1) =
       log w1 ++ EvRender None :: errors /\
     Forall is_error_event errors) /\
  (forall store : @Store Heap,
     _shouldRenderBeforeServerHydration store (heap w) = false ->
     exists w2,
       hydrateThenRender app routeResult request (Some store) cookieJar renderResult
         pageDep w = (w2, Ok tt) /\
       log w2 = log w ++ [EvHydrate] /\
       jobs w2 = jobs w ++ [reaction (snd (hydrate store (heap w))) routeResult request
                              (Some store) cookieJar renderResult pageDep]).
Proof.
  split; [reflexivity|]. split.
  - intros w1. unfold settle. cbn [job_promise reaction].
    destruct (fulfilled_log app (reaction Resolved routeResult request None cookieJar
                                   renderResult pageDep) w1)
      as (ended & errors & Hlog & Hended & Herrors).
    cbn [job_store reaction finalRender_events] in Hlog, Hended.
    destruct Hended as [-> | [_ Hstore]]; [|done].
    exists errors. split; [exact Hlog | exact Herrors].
  - intros store Hshould.
    pose proof (hydrateThenRender_store app routeResult request store cookieJar
                  renderResult pageDep w) as Hsync.
    cbn zeta in Hsync. rewrite Hshould in Hsync.
    destruct (hydrateThenRender _ _ _ _ _ _ _ w) as [w2 r].
    destruct Hsync as (_ & _ & -> & Hlog & _ & Hjobs).
    exists w2. done.
Qed.

(** C4: for a store that asks for a render before hydration, the
    discovery render (state [null], result dropped) is over before
    [hydrate] is called, on the heap the render left; the reaction that is
    registered waits for the very promise [hydrate] returned, and nothing
    else is rendered synchronously.  The final render happens only in that
    reaction, once the promise is fulfilled, after [_getState] has read the
    heap the promise resolved with; while the promise is pending nothing is
    rendered, and a rejected promise leads to no render. *)
Theorem hydration_order app (routeResult : RouteResult) (request : IncomingMessage)
    (store : @Store Heap) (cookieJar : @ServerCookieJar Heap)
    (renderResult : @RenderResult Heap) (pageDep : PageDep) w :
  _shouldRenderBeforeServerHydration store (heap w) = true ->
  let discovery := contentRenderer renderResult (render_args app routeResult None pageDep)
                     (_startRender store (heap w)) in
  let run := hydrateThenRender app routeResult request (Some store) cookieJar
               renderResult pageDep w in
  response (fst run) = response w /\
  match snd discovery with
  | Throw e =>
      snd run = Throw e /\ jobs (fst run) = jobs w /\
      log (fst run) = log w ++ [EvStartRender; EvRender None]
  | Ok _ =>
      let hydrated := hydrate store (_endRender store (fst discovery)) in
      let job := reaction (snd hydrated) routeResult request (Some store) cookieJar
                   renderResult pageDep in
      snd run = Ok tt /\
      log (fst run) = log w ++ [EvStartRender; EvRender None; EvEndRender; EvHydrate] /\
      heap (fst run) = fst hydrated /\
      jobs (fst run) = jobs w ++ [job] /\
      forall w2,
        match snd hydrated with
        | Resolves h =>
            exists ended errors,
              log (settle app job w2) =
                log w2 ++ [EvSettled true; EvGetState; EvStartRender;
                           EvRender (Some (_getState store h))] ++ ended ++ errors /\
              (ended = [] \/ ended = [EvEndRender]) /\ Forall is_error_event errors
        | Resolved =>
            exists ended errors,
              log (settle app job w2) =
                log w2 ++ [EvGetState; EvStartRender;
                           EvRender (Some (_getState store (heap w2)))] ++ ended ++ errors /\
              (ended = [] \/ ended = [EvEndRender]) /\ Forall is_error_event errors
        | Rejects reason h =>
            exists errors,
              log (settle app job w2) = log w2 ++ EvSettled false :: errors /\
              Forall is_error_event errors
        | Pending => settle app job w2 = w2
        end
  end.
Proof.
  intros Hshould. cbn zeta.
  pose proof (hydrateThenRender_store app routeResult request store cookieJar
                renderResult pageDep w) as Hsync.
  cbn zeta in Hsync. rewrite Hshould in Hsync.
  destruct (hydrateThenRender _ _ _ _ _ _ _ w) as [w1 r]. cbn [fst snd].
  destruct Hsync as (Hresp & _ & Hout). split; [exact Hresp|].
  destruct (contentRenderer renderResult _ _) as [h [html|e]]; cbn [snd fst] in Hout |- *.
  - destruct Hout as (-> & Hlog & Hheap & Hjobs).
    split; [done|]. split; [done|]. split; [done|]. split; [done|].
    intros w2. unfold settle. cbn [job_promise reaction].
    destruct (snd (hydrate store (_endRender store h))) as [|h'|reason h'|].
    + edestruct fulfilled_log as (ended & errors & Hlog2 & Hended & Herrors).
      exists ended, errors. split; [exact Hlog2|].
      split; [destruct Hended as [?|[? _]]; auto | done].
    + edestruct fulfilled_log as (ended & errors & Hlog2 & Hended & Herrors).
      exists ended, errors. rewrite Hlog2. simpl_world.
      cbn [job_store reaction finalRender_events]. rewrite <- !app_assoc.
      split; [reflexivity|].
      split; [destruct Hended as [?|[? _]]; auto | done].
    + edestruct caught_log as (errors & Hlog2 & Hev & _).
      exists errors. rewrite Hlog2. simpl_world. rewrite <- !app_assoc.
      split; [reflexivity | done].
    + reflexivity.
  - destruct Hout as (-> & Hjobs & Hlog). done.
Qed.

(** ** Rejections of [hydrate] *)

(** What [_ensureError] makes of each kind of value. *)
Lemma ensureError_spec (v : Value) :
  match v with
  | VError e => _ensureError v = Ok v
  | VString s => _ensureError v = Ok (new_Error s)
  | _ =>
      match ToString v with
      | Ok s =>
          _ensureError v = Ok (new_Error
            ("Error when resolving store promise! Unable to convert reject arg: " +:+ s))
      | Throw e => _ensureError v = Throw e
      end
  end.
Proof. destruct v as [| |[]| | | | |[]]; reflexivity. Qed.

(** A rejection whose value [_ensureError] can turn into an [Error] goes to
    [handleError] as that [Error], once, and no render follows. *)
Lemma rejection_handled app (job : @Job Heap) (reason error : Value) (h : Heap) w :
  job_promise job = Rejects reason h ->
  _ensureError reason = Ok error ->
  settle app job w =
    fst (handleError app error (job_request job) (record (EvSettled false) (set_heap h w))) /\
  exists ev, log (settle app job w) = log w ++ [EvSettled false; ev] /\
    (ev = EvResponseNotSentError error \/ ev = EvResponseSentError error).
Proof.
  intros Hpromise Hens. unfold settle. rewrite Hpromise.
  rewrite (caught_ensured _ _ _ _ _ Hens). split; [done|].
  unfold handleError. simpl_world.
  destruct (headersSent (response w)); simpl_world; rewrite <- app_assoc; eauto.
Qed.

(** A rejection whose value cannot be converted to a string makes
    [_ensureError] throw inside the [catch] callback, which so never calls
    [handleError]; what it threw goes to the domain. *)
Lemma rejection_unconverted app (job : @Job Heap) (reason e : Value) (h : Heap) w :
  job_promise job = Rejects reason h ->
  _ensureError reason = Throw e ->
  (forall w0, handlePromiseError app (job_request job) reason w0 = (w0, Throw e)) /\
  settle app job w =
    fst (handleError app e (job_request job)
           (record (EvUnhandledRejection e) (record (EvSettled false) (set_heap h w)))).
Proof.
  intros Hpromise Hens. split.
  - intros w0. unfold handlePromiseError, bind, lift. by rewrite Hens.
  - unfold settle. rewrite Hpromise.
    unfold caught, handlePromiseError, bind, lift. by rewrite Hens.
Qed.

(** C3, where the code departs from it: a rejection of [hydrate] with a
    value that is neither an [Error] nor a string and whose conversion to a
    string throws (a symbol, an object without a primitive value) is not
    wrapped in an [Error].  [_ensureError] throws what the conversion
    threw, so [handlePromiseError] throws it too and calls no error
    handler; the rejection it leaves is raised in the domain, whose
    listener gives that value to [handleError]: the error handler hears of
    the failed conversion, not of the rejection.  No render follows. *)
Theorem unconvertible_rejection_is_not_wrapped app (job : @Job Heap) (reason e : Value)
    (h : Heap) w :
  job_promise job = Rejects reason h ->
  instanceof_Error reason = false ->
  typeof_string reason = false ->
  ToString reason = Throw e ->
  let after := settle app job w in
  _ensureError reason = Throw e /\
  (forall w0, handlePromiseError app (job_request job) reason w0 = (w0, Throw e)) /\
  log after =
    log w ++ [EvSettled false; EvUnhandledRejection e;
              if headersSent (response w) then EvResponseSentError e
              else EvResponseNotSentError e] /\
  response after =
    (if headersSent (response w) then responseSentError (_errorHandler app)
     else responseNotSentError (_errorHandler app)) e (job_request job) (response w) /\
  heap after = h.
Proof.
  intros Hpromise Herror Hstring Hconv. cbn zeta.
  assert (Hens : _ensureError reason = Throw e).
  { destruct reason as [| |[]| | | | |[]]; cbn in *; congruence. }
  destruct (rejection_unconverted app job reason e h w Hpromise Hens) as [Hthrow ->].
  split; [exact Hens|]. split; [exact Hthrow|].
  unfold handleError. simpl_world.
  destruct (headersSent (response w)); simpl_world; rewrite <- !app_assoc; done.
Qed.

(** ** The headers and the body of a rendered page *)

Lemma with_headers_lookup (name : string) (headerData : list (string * HeaderValue)) :
  forall (m : gmap string HeaderValue) (found : option HeaderValue),
  m !! name = found ->
  with_headers headerData m !! name =
    fold_left (fun found kv => if decide (toLowerCase kv.1 = name) then Some kv.2 else found)
      headerData found.
Proof.
  unfold with_headers.
  induction headerData as [|[key value] rest IH]; intros m found Hm; cbn; [done|].
  apply IH. destruct (decide (toLowerCase key = name)) as [->|Hne].
  - by rewrite lookup_insert_eq.
  - by rewrite lookup_insert_ne.
Qed.

Lemma fold_found_default (name : string) (headerData : list (string * HeaderValue))
    (v : HeaderValue) :
  fold_left (fun found kv => if decide (toLowerCase kv.1 = name) then Some kv.2 else found)
    headerData (Some v) = Some (default v (page_header name headerData)).
Proof.
  unfold page_header.
  assert (H : forall found : option HeaderValue,
    fold_left (fun found kv => if decide (toLowerCase kv.1 = name) then Some kv.2 else found)
      headerData (Some (default v found)) =
    Some (default v (fold_left
      (fun found kv => if decide (toLowerCase kv.1 = name) then Some kv.2 else found)
      headerData found))).
  { induction headerData as [|[key value] rest IH]; intros found; cbn; [done|].
    destruct (decide (toLowerCase key = name)); [apply (IH (Some value)) | apply IH]. }
  apply (H None).
Qed.

(** A page that sets no header of that name leaves the default. *)
Lemma page_header_absent (name : string) (headerData : list (string * HeaderValue)) :
  Forall (fun kv => toLowerCase kv.1 <> name) headerData ->
  page_header name headerData = None.
Proof.
  unfold page_header. induction 1 as [|[key value] rest Hne _ IH]; cbn; [done|].
  cbn in Hne. by destruct (decide (toLowerCase key = name)).
Qed.

Lemma surrogate_is_wide (u : N) :
  is_high_surrogate u = true \/ is_low_surrogate u = true ->
  (u <? 0x80)%N = false /\ (u <? 0x800)%N = false.
Proof.
  unfold is_high_surrogate, is_low_surrogate.
  rewrite !andb_true_iff, !N.leb_le, !N.ltb_ge. lia.
Qed.

(** [Buffer.byteLength] counts the bytes [response.end] writes. *)
Lemma utf8_encode_length (s : JsString) : length (utf8_encode s) = byteLength s.
Proof.
  remember (length s) as n eqn:Hn. revert s Hn.
  induction n as [n IH] using lt_wf_ind. intros s Hn.
  destruct s as [|u rest]; [done|].
  cbn [utf8_encode byteLength].
  assert (Hrest : length (utf8_encode rest) = byteLength rest).
  { apply (IH (length rest)); [cbn in Hn; lia | done]. }
  destruct (is_high_surrogate u) eqn:Hhigh.
  - destruct (surrogate_is_wide u (or_introl Hhigh)) as [-> ->].
    destruct rest as [|l rest']; [reflexivity|].
    destruct (is_low_surrogate l).
    + rewrite length_app, (IH (length rest')); [reflexivity | cbn in Hn; lia | done].
    + rewrite length_app, Hrest. reflexivity.
  - destruct (is_low_surrogate u) eqn:Hlow.
    + destruct (surrogate_is_wide u (or_intror Hlow)) as [-> ->].
      rewrite length_app, Hrest. reflexivity.
    + rewrite length_app, Hrest. unfold utf8_bmp.
      by destruct (u <? 0x80)%N, (u <? 0x800)%N.
Qed.

(** C6, as the code has it: when [storeResolve] returns, the HTML the
    final render returned is what [Content-Length] counts, in UTF-8 bytes,
    and [Content-Type] is [text/html;charset=UTF-8], unless the page's own
    headers carry an entry of that name (in any case), which is set later
    and so is the value the response keeps.  The bytes given to
    [response.end] are the UTF-8 encoding of that HTML, as many as
    [Buffer.byteLength] counted; they become the body unless the response
    has none (a [HEAD] request, a status of 204 or 304). *)
Theorem rendered_response_headers app (routeResult : RouteResult)
    (store : option (@Store Heap)) (cookieJar : @ServerCookieJar Heap)
    (renderResult : @RenderResult Heap) (pageDep : PageDep) w w' :
  storeResolve app routeResult store cookieJar renderResult pageDep w = (w', Ok tt) ->
  exists html,
    snd (contentRenderer renderResult
           (render_args app routeResult (final_state store (heap w)) pageDep)
           (final_heap store (heap w))) = Ok html /\
    getHeader "Content-Length" (response w') =
      Some (default (HNum (byteLength html))
              (page_header "content-length" (httpHeaders renderResult))) /\
    getHeader "Content-Type" (response w') =
      Some (default (HStr "text/html;charset=UTF-8")
              (page_header "content-type" (httpHeaders renderResult))) /\
    length (utf8_encode html) = byteLength html /\
    (finished (response w) = false ->
     finished (response w') = true /\
     _hasBody (response w') =
       _hasBody (response w) && status_has_body (httpStatusCode renderResult) /\
     body (response w') =
       body (response w) ++ (if _hasBody (response w') then utf8_encode html else [])).
Proof.
  intros Hrun. rewrite storeResolve_parts in Hrun. unfold bind in Hrun.
  pose proof (finalRender_spec app routeResult store renderResult pageDep w) as Hfinal.
  cbn zeta in Hfinal. unfold final_state, final_heap.
  destruct (finalRender _ _ _ _ _ w) as [w1 [html|e]]; [|discriminate].
  destruct Hfinal as (Hresp & _ & _ & Hout).
  destruct (snd (contentRenderer renderResult _ _)) as [html'|e];
    [destruct Hout as ([= <-] & _)|by destruct Hout].
  destruct (headersSent (response w1)) eqn:Hsent.
  { destruct (writeResponse_sent cookieJar renderResult html w1 Hsent)
      as (w2 & e & Heq & _). congruence. }
  destruct (writeResponse_not_sent cookieJar renderResult html w1 Hsent)
    as (r & Heq & _ & _ & Hheaders & Hend).
  rewrite Heq in Hrun. injection Hrun as <-. simpl_world.
  rewrite Hresp in Hend, Hheaders.
  exists html. split; [reflexivity|].
  unfold getHeader.
  change (toLowerCase "Content-Length") with "content-length".
  change (toLowerCase "Content-Type") with "content-type".
  rewrite Hheaders. cbn zeta.
  split.
  { destruct (0 <? _)%nat; rewrite ?lookup_insert_ne by done;
      (erewrite with_headers_lookup;
       [apply fold_found_default
       | rewrite lookup_insert_ne by done; apply lookup_insert_eq]). }
  split.
  { destruct (0 <? _)%nat; rewrite ?lookup_insert_ne by done;
      (erewrite with_headers_lookup;
       [apply fold_found_default | apply lookup_insert_eq]). }
  split; [apply utf8_encode_length|].
  intros Hfin. destruct (Hend Hfin) as (Hfinished & _ & HhasBody & Hbody). done.
Qed.

(** ** The order of the middleware chain *)

Lemma same_chain_refl w : same_chain w w.
Proof. by repeat split. Qed.

Lemma same_chain_record (e : Event) w :
  chain_event e = false -> same_chain w (record e w).
Proof.
  intros He. unfold same_chain, invoked, calls. simpl_world.
  rewrite !omap_app. destruct e; try discriminate; cbn; by rewrite !app_nil_r.
Qed.

Lemma off_chain_ret {A : Type} (a : A) : off_chain (Heap:=Heap) (ret a).
Proof. intros w. apply same_chain_refl. Qed.

Lemma off_chain_throw {A : Type} (e : Value) : off_chain (Heap:=Heap) (@throw Heap A e).
Proof. intros w. apply same_chain_refl. Qed.

Lemma off_chain_lift {A : Type} (r : Result A) : off_chain (Heap:=Heap) (@lift Heap A r).
Proof. intros w. apply same_chain_refl. Qed.

Lemma off_chain_bind {A B : Type} (m : @M Heap A) (k : A -> @M Heap B) :
  off_chain m -> (forall a, off_chain (k a)) -> off_chain (Heap:=Heap) (bind m k).
Proof.
  intros Hm Hk w. unfold bind. specialize (Hm w).
  destruct (m w) as [w1 [a|e]]; [|exact Hm].
  specialize (Hk a w1). cbn [fst] in Hm.
  destruct Hm as (? & ? & ?), Hk as (? & ? & ?). repeat split; congruence.
Qed.

Lemma off_chain_emit (e : Event) : chain_event e = false -> off_chain (Heap:=Heap) (emit e).
Proof. intros He w. by apply same_chain_record. Qed.

Lemma off_chain_on_heap {A : Type} (f : Heap -> Heap * A) : off_chain (Heap:=Heap) (on_heap f).
Proof. intros w. unfold on_heap. destruct (f (heap w)). by repeat split. Qed.

Lemma off_chain_update_heap (f : Heap -> Heap) : off_chain (Heap:=Heap) (update_heap f).
Proof. intros w. by repeat split. Qed.

Lemma off_chain_read_heap {A : Type} (f : Heap -> A) : off_chain (Heap:=Heap) (read_heap f).
Proof. intros w. apply same_chain_refl. Qed.

Create HintDb off_chain.
#[local] Hint Resolve off_chain_ret off_chain_throw off_chain_lift off_chain_emit
  off_chain_on_heap off_chain_update_heap off_chain_read_heap : off_chain.

(** One step of showing a call [off_chain]: split a sequence, or decide a
    branch. *)
Ltac off_chain_step :=
  match goal with
  | |- off_chain (bind _ _) => apply off_chain_bind; [|intros ?]
  | |- off_chain (match ?x with _ => _ end) => destruct x
  | |- off_chain (if ?x then _ else _) => destruct x
  | |- off_chain _ => solve [auto with off_chain]
  end.

Lemma off_chain_hydrateThenRender app (routeResult : RouteResult)
    (request : IncomingMessage) (store : option (@Store Heap))
    (cookieJar : @ServerCookieJar Heap) (renderResult : @RenderResult Heap)
    (pageDep : PageDep) :
  off_chain (Heap:=Heap) (hydrateThenRender app routeResult request store cookieJar renderResult pageDep).
Proof.
  unfold hydrateThenRender, contentRender.
  apply off_chain_bind; [repeat off_chain_step|].
  intros promise w. by repeat split.
Qed.

(** [handle] leaves [index] alone and never calls [runMiddleware]: it does
    not use the [next] it is given. *)
Lemma off_chain_handle app (request : IncomingMessage) : off_chain (Heap:=Heap) (handle app request).
Proof.
  unfold handle, _handleRenderResult.
  repeat first [apply off_chain_hydrateThenRender | off_chain_step].
Qed.


Lemma chain_inv_new app (h : Heap) : chain_inv app (new_World h).
Proof. by split. Qed.







(** *** The chain always comes to an end *)

Lemma run_steps_total (bound : nat)
    (proceed : @World Heap -> option (@World Heap * Result unit)) (steps : list MwAction) :
  (forall w, bound <= index w ->
     exists w' r, proceed w = Some (w', r) /\ index w <= index w') ->
  forall w, bound <= index w ->
    exists w' r, run_steps proceed steps w = Some (w', r) /\ index w <= index w'.
Proof.
  intros Hproceed. induction steps as [|[f| |e] rest IH]; intros w Hw; cbn.
  - by eexists _, _.
  - destruct (IH (set_response (f (response w)) w) Hw) as (w' & r & -> & Hle).
    by eexists _, _.
  - destruct (Hproceed w Hw) as (w1 & [[]|e] & -> & Hle).
    + destruct (IH w1 ltac:(lia)) as (w' & r & -> & Hle').
      eexists _, _. split; [done | lia].
    + by eexists _, _.
  - by eexists _, _.
Qed.

Lemma runMiddleware_fuel_total app (request : IncomingMessage) (fuel : nat) :
  forall w, length (_middlewares app) - index w < fuel ->
    exists w' r, runMiddleware_fuel fuel app request w = Some (w', r) /\
                 index w <= index w'.
Proof.
  induction fuel as [|fuel IH]; intros w Hfuel; cbn; [lia|].
  - destruct (_middlewares app !! index w) as [[steps|]|] eqn:Hmw.
    + apply lookup_lt_Some in Hmw as Hlt.
      destruct (run_steps_total (S (index w)) (runMiddleware_fuel fuel app request)
                  (steps request)) with
        (w := record (EvInvoke (index w)) (set_index (S (index w)) (record EvRunMiddleware w)))
        as (w' & r & -> & Hle).
      * intros w1 Hw1. apply IH. lia.
      * simpl_world. lia.
      * simpl_world. eexists _, _. split; [done | lia].
    + pose proof (off_chain_handle app request
        (record (EvInvoke (index w)) (set_index (S (index w)) (record EvRunMiddleware w))))
        as (Hidx & _).
      destruct (handle app request _) as [w1 r1]. simpl_world.
      eexists _, _. split; [done | lia].
    + simpl_world. eexists _, _. split; [done | simpl_world; lia].
Qed.

(** The request listener always returns: the chain cannot run out of
    calls. *)
Lemma requestListener_returns app (fs : FileSystem) (request : IncomingMessage) (h : Heap) :
  exists w, requestListener app fs request h = Some w.
Proof.
  unfold requestListener.
  destruct (if _ && _ then favicon_ico fs else None) as [file|].
  - destruct (writeHead _ _ _ _); by eexists.
  - unfold in_domain, runMiddleware.
    destruct (runMiddleware_fuel_total app request
                (S (length (_middlewares app) - index (request_World request h)))
                (request_World request h))
      as (w' & [[]|e] & -> & _); [lia | |]; by eexists.
Qed.



End ServerProperties.

(** * The site, request by request *)

Section Scenarios.

Import Http Server Examples.

(** A page with a store: the render that registers the counter, hydration,
    and the final render with the hydrated state; the length header counts
    the bytes of the page. *)
Example home_page_is_hydrated_then_rendered :
  exists w, requestListener (fst running_site) site_fs (get "/") site_heap = Some w /\
    log w = [EvRunMiddleware; EvInvoke 0; EvRunMiddleware; EvInvoke 1;
             EvDebug "Rendering page: home."; EvStartRender; EvRender None; EvEndRender;
             EvHydrate; EvSettled true; EvGetState; EvStartRender;
             EvRender (Some "{count: 1}"); EvEndRender] /\
    body (response w) = utf8_encode (code_units "<p>{count: 1}</p>") /\
    getHeader "Content-Length" (response w) = Some (HNum 17).
Proof. eexists. split; [vm_compute; reflexivity|]. repeat split. Qed.

(** [hydrate] rejecting with the string ["boom"]: the error handler gets an
    [Error] with that message, and there is no final render. *)
Example string_rejection_becomes_error :
  exists w, requestListener (fst running_site) site_fs (get "/boom") site_heap = Some w /\
    log w = [EvRunMiddleware; EvInvoke 0; EvRunMiddleware; EvInvoke 1;
             EvDebug "Rendering page: boom."; EvStartRender; EvRender None; EvEndRender;
             EvHydrate; EvSettled false; EvResponseNotSentError (new_Error "boom")] /\
    statusCode (response w) = 500.
Proof. eexists. split; [vm_compute; reflexivity|]. repeat split. Qed.

(** A path the router does not know: the compiler middleware passes the
    request on, [handle] throws, and the error handler is called once, with
    the headers not sent. *)
Example unmatched_path_gets_error_response :
  exists w, requestListener (fst running_site) site_fs (get "/nowhere") site_heap = Some w /\
    log w = [EvRunMiddleware; EvInvoke 0; EvRunMiddleware; EvInvoke 1;
             EvResponseNotSentError
               (new_Error "Unable to route request, router returned null")] /\
    statusCode (response w) = 500.
Proof. eexists. split; [vm_compute; reflexivity|]. repeat split. Qed.

(** A request the compiler middleware answers itself never reaches
    [handle]. *)
Example bundle_is_served_by_the_compiler :
  exists w, requestListener (fst running_site) site_fs (get "/bundle.js") site_heap = Some w /\
    log w = [EvRunMiddleware; EvInvoke 0] /\
    body (response w) = utf8_encode (code_units "bundle").
Proof. eexists. split; [vm_compute; reflexivity|]. repeat split. Qed.

(** The compiler called back twice; one server listens. *)
Example one_server_listens :
  listening (snd running_site) = [3000] /\
  _middlewares (fst running_site) = [bundle_middleware; SoyaHandle].
Proof. split; reflexivity. Qed.

(** [hydrate] rejects with an object that has no string conversion
    ([Object.create(null)]): the error handler is told of the conversion
    that failed. *)
Lemma unconvertible_rejection_is_not_wrapped_witness :
  let job := reaction (Rejects (VObject None) site_heap) (route_to "opaque")
               (get "/opaque") (Some (counter_store (Rejects (VObject None))))
               site_cookieJar (site_renderResult []) "opaque.js" in
  let e := new_TypeError "Cannot convert object to primitive value" in
  _ensureError (VObject None) = Throw e /\
  log (settle (fst running_site) job new_site_world) =
    [EvSettled false; EvUnhandledRejection e; EvResponseNotSentError e].
Proof.
  pose proof (unconvertible_rejection_is_not_wrapped (fst running_site)
                (reaction (Rejects (VObject None) site_heap) (route_to "opaque")
                   (get "/opaque") (Some (counter_store (Rejects (VObject None))))
                   site_cookieJar (site_renderResult []) "opaque.js")
                (VObject None) (new_TypeError "Cannot convert object to primitive value")
                site_heap new_site_world eq_refl eq_refl eq_refl eq_refl) as Hbug.
  cbv zeta in *. destruct Hbug as (Hens & _ & Hlog & _).
  split; [exact Hens|exact Hlog].
Defined.

(** The same rejection through the whole listener: one error response,
    made for the [TypeError]. *)
Example opaque_rejection_through_the_listener :
  exists w, requestListener (fst running_site) site_fs (get "/opaque") site_heap = Some w /\
    log w = [EvRunMiddleware; EvInvoke 0; EvRunMiddleware; EvInvoke 1;
             EvDebug "Rendering page: opaque."; EvStartRender; EvRender None; EvEndRender;
             EvHydrate; EvSettled false;
             EvUnhandledRejection
               (new_TypeError "Cannot convert object to primitive value");
             EvResponseNotSentError
               (new_TypeError "Cannot convert object to primitive value")] /\
    statusCode (response w) = 500.
Proof. eexists. split; [vm_compute; reflexivity|]. repeat split. Qed.

(** The home page at the start of a request: discovery render, then
    [hydrate], and the final render on the hydrated counter. *)
Lemma hydration_order_witness :
  let run := hydrateThenRender (fst running_site) (route_to "home") (get "/")
               (Some (counter_store Resolves)) site_cookieJar (site_renderResult [])
               "home.js" new_site_world in
  let job := reaction (Resolves {| requested := true; count := Some 1 |})
               (route_to "home") (get "/") (Some (counter_store Resolves)) site_cookieJar
               (site_renderResult []) "home.js" in
  log (fst run) = [EvStartRender; EvRender None; EvEndRender; EvHydrate] /\
  jobs (fst run) = [job] /\
  exists ended errors,
    log (settle (fst running_site) job (fst run)) =
      log (fst run) ++ [EvSettled true; EvGetState; EvStartRender;
                        EvRender (Some "{count: 1}")] ++ ended ++ errors.
Proof.
  pose proof (hydration_order (fst running_site) (route_to "home") (get "/")
                (counter_store Resolves) site_cookieJar (site_renderResult []) "home.js"
                new_site_world eq_refl) as Horder.
  cbv zeta in *. destruct Horder as (_ & Horder).
  change (snd (contentRenderer (site_renderResult [])
                 (render_args (fst running_site) (route_to "home") None "home.js")
                 (_startRender (counter_store Resolves) (heap new_site_world))))
    with (@Ok JsString (code_units "<p></p>")) in Horder.
  cbv beta iota in Horder. destruct Horder as (_ & Hlog & _ & Hjobs & Hsettle).
  split; [exact Hlog|]. split; [exact Hjobs|].
  destruct (Hsettle (fst (hydrateThenRender (fst running_site) (route_to "home") (get "/")
                            (Some (counter_store Resolves)) site_cookieJar
                            (site_renderResult []) "home.js" new_site_world)))
    as (ended & errors & Hlog2 & _).
  exists ended, errors. exact Hlog2.
Defined.

(** The about page has no store; the lazy store asks for no discovery
    render. *)
Lemma no_store_goes_straight_to_final_render_witness :
  (exists errors,
     log (settle (fst running_site)
            (reaction Resolved (route_to "about") (get "/about") None site_cookieJar
               (site_renderResult []) "about.js") new_site_world) =
       EvRender None :: errors) /\
  (exists w2,
     hydrateThenRender (fst running_site) (route_to "about") (get "/about")
       (Some lazy_store) site_cookieJar (site_renderResult []) "about.js" new_site_world =
       (w2, Ok tt) /\
     log w2 = [EvHydrate]).
Proof.
  destruct (no_store_goes_straight_to_final_render (fst running_site) (route_to "about")
              (get "/about") site_cookieJar (site_renderResult []) "about.js"
              new_site_world) as (_ & Hfinal & Hlazy).
  split.
  - destruct (Hfinal new_site_world) as (errors & Hlog & _). exists errors. exact Hlog.
  - destruct (Hlazy lazy_store eq_refl) as (w2 & Hrun & Hlog & _).
    exists w2. split; [exact Hrun | exact Hlog].
Defined.

(** With [index] past the two handlers of the site, [next] does nothing. *)
Lemma runMiddleware_past_end_witness :
  runMiddleware (fst running_site) (get "/") (set_index 2 new_site_world) =
    Some (set_index 3 (record EvRunMiddleware (set_index 2 new_site_world)), Ok tt).
Proof.
  apply (runMiddleware_past_end (fst running_site) (get "/") (set_index 2 new_site_world)).
  vm_compute. lia.
Defined.

(** C6 fails as stated: the api page sets its own [Content-Type]; the page
    is rendered and sent, and the response says [application/json]. *)
Lemma page_content_type_replaces_default :
  exists w, requestListener (fst running_site) site_fs (get "/api") site_heap = Some w /\
    finished (response w) = true /\
    log w = [EvRunMiddleware; EvInvoke 0; EvRunMiddleware; EvInvoke 1;
             EvDebug "Rendering page: api."; EvRender None] /\
    getHeader "Content-Type" (response w) = Some (HStr "application/json") /\
    getHeader "Content-Type" (response w) <> Some (HStr "text/html;charset=UTF-8").
Proof.
  eexists. split; [vm_compute; reflexivity|]. repeat split. discriminate.
Qed.

(** The about page sets no header of its own: the defaults stand, and the
    length header counts the bytes of the body. *)
Lemma rendered_response_headers_witness :
  exists w',
    storeResolve (fst running_site) (route_to "about") None site_cookieJar
      (site_renderResult []) "about.js" new_site_world = (w', Ok tt) /\
    getHeader "Content-Length" (response w') = Some (HNum 7) /\
    getHeader "Content-Type" (response w') = Some (HStr "text/html;charset=UTF-8") /\
    body (response w') = utf8_encode (code_units "<p></p>").
Proof.
  destruct (storeResolve (fst running_site) (route_to "about") None site_cookieJar
              (site_renderResult []) "about.js" new_site_world) as [w' r] eqn:Hrun.
  assert (Hr : r = Ok tt) by (vm_compute in Hrun; by injection Hrun as _ <-).
  subst r.
  destruct (rendered_response_headers (fst running_site) (route_to "about") None
              site_cookieJar (site_renderResult []) "about.js" new_site_world w'
              Hrun) as (html & Hhtml & Hlength & Htype & _ & Hend).
  injection Hhtml as <-.
  destruct (Hend eq_refl) as (_ & HhasBody & Hbody).
  exists w'. split; [reflexivity|]. split; [exact Hlength|]. split; [exact Htype|].
  rewrite Hbody, HhasBody. reflexivity.
Defined.

(** A [HEAD] request for the about page: the page is rendered and its
    length announced, and no body is written. *)
Example head_request_gets_no_body :
  exists w,
    requestListener (fst running_site) site_fs {| method := "HEAD"; url := "/about" |}
      site_heap = Some w /\
    finished (response w) = true /\
    getHeader "Content-Length" (response w) = Some (HNum 7) /\
    body (response w) = [].
Proof. eexists. split; [vm_compute; reflexivity|]. repeat split. Qed.

End Scenarios.

(** * Properties of construction and of the client build *)

Section BootProperties.

Import Http Server Boot.

Context {Heap : Type}.

Implicit Types (reg : @Registry Heap) (pageCmpt : @PageComponent Heap).

(** What the inner loop returns: the routes required, with the values of
    the route table, over what the page had; or the error for the first
    required route the table does not own. *)
Lemma requireRoutes_spec (name : string) (routes : gmap string Route)
    (routeRequirements : list string) :
  forall forPage : gmap string Route,
  match requireRoutes name routes routeRequirements forPage with
  | Ok m =>
      Forall (fun routeId => is_Some (routes !! routeId)) routeRequirements /\
      forall routeId, m !! routeId =
        if bool_decide (routeId ∈ routeRequirements) then routes !! routeId
        else forPage !! routeId
  | Throw e =>
      exists known routeId rest,
        routeRequirements = known ++ routeId :: rest /\
        Forall (fun r => is_Some (routes !! r)) known /\
        routes !! routeId = None /\
        e = new_Error ("Page " +:+ name +:+ " has dependencies to unknown route: "
                       +:+ routeId +:+ ".")
  end.
Proof.
  induction routeRequirements as [|routeId rest IH]; intros forPage; cbn.
  - split; [constructor|]. intros r. by rewrite bool_decide_eq_false_2 by apply not_elem_of_nil.
  - destruct (routes !! routeId) as [route|] eqn:Hroute.
    + specialize (IH (<[routeId := route]> forPage)).
      destruct (requireRoutes name routes rest _) as [m|e].
      * destruct IH as [Hall Hm]. split; [constructor; [by rewrite Hroute | done]|].
        intros r. rewrite Hm.
        destruct (decide (r ∈ rest)) as [Hin|Hnin].
        { rewrite !bool_decide_eq_true_2; [done | by right | done]. }
        rewrite (bool_decide_eq_false_2 _ Hnin).
        destruct (decide (r = routeId)) as [->|Hne].
        { rewrite lookup_insert_eq, bool_decide_eq_true_2; [done | by left]. }
        rewrite lookup_insert_ne by done.
        rewrite bool_decide_eq_false_2; [done|].
        intros Hin. apply elem_of_cons in Hin as [?|?]; done.
      * destruct IH as (known & r & rest' & -> & Hknown & Hnone & ->).
        exists (routeId :: known), r, rest'. split; [done|].
        split; [constructor; [by rewrite Hroute | done]|]. done.
    + exists [], routeId, rest. repeat split; [constructor | done].
Qed.

Lemma registerPage_ok (routes : gmap string Route) pageCmpt reg :
  component_ok routes pageCmpt ->
  exists forPage,
    registerPage routes pageCmpt reg =
      Ok {| _entryPoints := _entryPoints reg ++ [entry_of pageCmpt];
            page_classes := <[cmpt_name pageCmpt := cmpt_clazz pageCmpt]> (page_classes reg);
            route_for_pages := <[cmpt_name pageCmpt := forPage]> (route_for_pages reg) |} /\
    forall routeId, forPage !! routeId =
      if bool_decide (routeId ∈ default [] (cmpt_getRouteRequirements pageCmpt))
      then routes !! routeId else None.
Proof.
  intros [Hnew Hroutes]. unfold registerPage. rewrite Hnew.
  pose proof (requireRoutes_spec (cmpt_name pageCmpt) routes
                (default [] (cmpt_getRouteRequirements pageCmpt)) ∅) as Hspec.
  destruct (requireRoutes _ _ _ _) as [m|e].
  - destruct Hspec as [_ Hm]. exists m. split; [done|].
    intros r. rewrite Hm. by rewrite lookup_empty.
  - destruct Hspec as (known & r & rest & Heq & _ & Hnone & _).
    rewrite Heq in Hroutes. apply Forall_app in Hroutes as [_ Hr].
    apply Forall_cons in Hr as [[? Hsome] _]. congruence.
Qed.

Lemma registerPage_not_ok (routes : gmap string Route) pageCmpt reg (reg' : @Registry Heap) :
  registerPage routes pageCmpt reg = Ok reg' -> component_ok routes pageCmpt.
Proof.
  unfold registerPage, component_ok.
  destruct (cmpt_new pageCmpt) as [[]|e]; [|discriminate].
  pose proof (requireRoutes_spec (cmpt_name pageCmpt) routes
                (default [] (cmpt_getRouteRequirements pageCmpt)) ∅) as Hspec.
  destruct (requireRoutes _ _ _ _) as [m|e]; [|discriminate].
  by destruct Hspec.
Qed.

(** X1: the constructor's loop over the page components succeeds exactly
    when every component can be instantiated and requires only routes the
    route table owns. *)
Theorem registerPages_succeeds_iff (routes : gmap string Route)
    (pageComponents : list (@PageComponent Heap)) reg :
  (exists reg', registerPages routes pageComponents reg = Ok reg') <->
  Forall (component_ok routes) pageComponents.
Proof.
  revert reg. induction pageComponents as [|pageCmpt rest IH]; intros reg; cbn.
  - split; [constructor | by eexists].
  - split.
    + intros [reg' Hrun].
      destruct (registerPage routes pageCmpt reg) as [reg1|e] eqn:Hone; [|discriminate].
      constructor; [by eapply registerPage_not_ok|]. apply (IH reg1). by exists reg'.
    + intros Hall. apply Forall_cons in Hall as [Hok Hrest].
      destruct (registerPage_ok routes pageCmpt reg Hok) as (forPage & -> & _).
      by apply IH.
Qed.

Lemma registerPages_content (routes : gmap string Route)
    (pageComponents : list (@PageComponent Heap)) :
  forall reg reg', registerPages routes pageComponents reg = Ok reg' ->
  _entryPoints reg' = _entryPoints reg ++ map entry_of pageComponents /\
  forall name,
    match last_named name pageComponents with
    | Some pageCmpt =>
        page_classes reg' !! name = Some (cmpt_clazz pageCmpt) /\
        exists forPage, route_for_pages reg' !! name = Some forPage /\
          forall routeId, forPage !! routeId =
            if bool_decide (routeId ∈ default [] (cmpt_getRouteRequirements pageCmpt))
            then routes !! routeId else None
    | None =>
        page_classes reg' !! name = page_classes reg !! name /\
        route_for_pages reg' !! name = route_for_pages reg !! name
    end.
Proof.
  induction pageComponents as [|pageCmpt rest IH]; intros reg reg'; cbn.
  - intros [= <-]. split; [by rewrite app_nil_r | done].
  - destruct (registerPage routes pageCmpt reg) as [reg1|e] eqn:Hone; [|discriminate].
    intros Hrun.
    destruct (registerPage_ok routes pageCmpt reg (registerPage_not_ok _ _ _ _ Hone))
      as (forPage & Heq & HforPage).
    rewrite Heq in Hone. injection Hone as <-.
    destruct (IH _ _ Hrun) as [Hentries Hnames]. cbn in Hentries.
    split; [by rewrite Hentries, <- app_assoc|].
    intros name. specialize (Hnames name).
    destruct (last_named name rest) as [later|]; [done|].
    cbn in Hnames. destruct Hnames as [Hclass Hroutes].
    destruct (bool_decide (cmpt_name pageCmpt = name)) eqn:Hname.
    + apply bool_decide_eq_true in Hname as <-.
      rewrite lookup_insert_eq in Hclass.
      rewrite (lookup_insert_eq (route_for_pages reg)) in Hroutes.
      split; [done|]. by exists forPage.
    + apply bool_decide_eq_false in Hname.
      rewrite lookup_insert_ne in Hclass by done.
      by rewrite (lookup_insert_ne (route_for_pages reg)) in Hroutes by done.
Qed.

Lemma last_named_Some (name : string) (pageComponents : list (@PageComponent Heap))
    pageCmpt :
  last_named name pageComponents = Some pageCmpt ->
  pageCmpt ∈ pageComponents /\ cmpt_name pageCmpt = name.
Proof.
  revert pageCmpt. induction pageComponents as [|c rest IH]; intros pageCmpt; cbn; [done|].
  destruct (last_named name rest) as [later|].
  - intros [= <-]. destruct (IH later eq_refl). split; [by right | done].
  - destruct (bool_decide _) eqn:Hb; [|done]. intros [= <-].
    apply bool_decide_eq_true in Hb. split; [by left | done].
Qed.

Lemma last_named_None (name : string) (pageComponents : list (@PageComponent Heap)) :
  last_named name pageComponents = None ->
  forall pageCmpt, pageCmpt ∈ pageComponents -> cmpt_name pageCmpt <> name.
Proof.
  induction pageComponents as [|c rest IH]; cbn; intros Hnone pageCmpt Hin.
  - by apply elem_of_nil in Hin.
  - destruct (last_named name rest) as [later|]; [done|].
    destruct (bool_decide _) eqn:Hb; [done|]. apply bool_decide_eq_false in Hb.
    apply elem_of_cons in Hin as [->|Hin]; [done | by apply IH].
Qed.

(** X2: after a successful construction there is one entry point per page
    component, in the order of the register; every component's name finds
    a page class, that of the last component registered under the name;
    and the routes kept for the page are exactly the routes that component
    requires, with the values of the route table. *)
Theorem constructor_registry (routes : gmap string Route)
    (pageComponents : list (@PageComponent Heap)) reg :
  registerPages routes pageComponents empty_Registry = Ok reg ->
  _entryPoints reg = map entry_of pageComponents /\
  (forall pageCmpt, pageCmpt ∈ pageComponents ->
     exists last, last_named (cmpt_name pageCmpt) pageComponents = Some last /\
       last ∈ pageComponents /\ cmpt_name last = cmpt_name pageCmpt /\
       page_classes reg !! cmpt_name pageCmpt = Some (cmpt_clazz last) /\
       exists forPage, route_for_pages reg !! cmpt_name pageCmpt = Some forPage /\
         forall routeId, forPage !! routeId =
           if bool_decide (routeId ∈ default [] (cmpt_getRouteRequirements last))
           then routes !! routeId else None) /\
  (forall name, (forall pageCmpt, pageCmpt ∈ pageComponents -> cmpt_name pageCmpt <> name) ->
     page_classes reg !! name = None /\ route_for_pages reg !! name = None).
Proof.
  intros Hrun. destruct (registerPages_content _ _ _ _ Hrun) as [Hentries Hnames].
  split; [exact Hentries|]. split.
  - intros pageCmpt Hin. specialize (Hnames (cmpt_name pageCmpt)).
    destruct (last_named (cmpt_name pageCmpt) pageComponents) as [last|] eqn:Hlast.
    + destruct (last_named_Some _ _ _ Hlast) as [Hin' Hname].
      destruct Hnames as [Hclass Hroutes]. by exists last.
    + by destruct (last_named_None _ _ Hlast pageCmpt Hin).
  - intros name Hfresh. specialize (Hnames name).
    destruct (last_named name pageComponents) as [last|] eqn:Hlast.
    + destruct (last_named_Some _ _ _ Hlast) as [Hin Hname]. by destruct (Hfresh last Hin).
    + by destruct Hnames as [-> ->].
Qed.

(** X3: the constructor stops at the first page component it cannot get
    past: the error its instantiation throws, or the error naming the page
    and the first route it requires that the route table does not own. *)
Theorem constructor_first_failure (routes : gmap string Route)
    (before after : list (@PageComponent Heap)) pageCmpt reg :
  Forall (component_ok routes) before ->
  (forall e, cmpt_new pageCmpt = Throw e ->
     registerPages routes (before ++ pageCmpt :: after) reg = Throw e) /\
  (forall known routeId rest,
     cmpt_new pageCmpt = Ok tt ->
     default [] (cmpt_getRouteRequirements pageCmpt) = known ++ routeId :: rest ->
     Forall (fun r => is_Some (routes !! r)) known ->
     routes !! routeId = None ->
     registerPages routes (before ++ pageCmpt :: after) reg =
       Throw (new_Error ("Page " +:+ cmpt_name pageCmpt
                         +:+ " has dependencies to unknown route: " +:+ routeId +:+ "."))).
Proof.
  intros Hbefore. revert reg.
  induction Hbefore as [|c before Hc _ IH]; intros reg.
  - cbn. split.
    + intros e Hnew. unfold registerPage. by rewrite Hnew.
    + intros known routeId rest Hnew Hreqs Hknown Hnone. unfold registerPage. rewrite Hnew.
      pose proof (requireRoutes_spec (cmpt_name pageCmpt) routes
                    (default [] (cmpt_getRouteRequirements pageCmpt)) ∅) as Hspec.
      destruct (requireRoutes _ _ _ _) as [m|e].
      * destruct Hspec as [Hall _]. rewrite Hreqs in Hall.
        apply Forall_app in Hall as [_ Hr]. apply Forall_cons in Hr as [[? Hsome] _].
        congruence.
      * destruct Hspec as (known' & r & rest' & Heq & Hknown' & Hnone' & ->).
        assert (r = routeId) as ->; [|done].
        rewrite Hreqs in Heq. clear - Heq Hknown Hknown' Hnone Hnone'.
        revert known' Heq Hknown'.
        induction Hknown as [|k known [? Hk] _ IHk]; intros [|k' known'] Heq Hknown'; cbn in *.
        { by injection Heq. }
        { injection Heq as <- _. apply Forall_cons in Hknown' as [[? ?] _]. congruence. }
        { injection Heq as -> _. congruence. }
        { injection Heq as _ Heq. apply Forall_cons in Hknown' as [_ ?]. by apply IHk in Heq. }
  - cbn. destruct (registerPage_ok routes c reg Hc) as (forPage & -> & _). apply IH.
Qed.

Lemma addReplace_lookup (clientReplace : gmap string string) (source replacement key : string) :
  _addReplace clientReplace source replacement !! key =
    if bool_decide (key = source +:+ ".js") then Some replacement
    else if bool_decide (key = source) then Some replacement
    else clientReplace !! key.
Proof.
  unfold _addReplace.
  destruct (bool_decide (key = source +:+ ".js")) eqn:Hjs.
  - apply bool_decide_eq_true in Hjs as ->. apply lookup_insert_eq.
  - apply bool_decide_eq_false in Hjs. rewrite lookup_insert_ne by done.
    destruct (bool_decide (key = source)) eqn:Hsrc.
    + apply bool_decide_eq_true in Hsrc as ->. apply lookup_insert_eq.
    + apply bool_decide_eq_false in Hsrc. by rewrite lookup_insert_ne.
Qed.

(** X4: whatever [clientReplace] held before, after the constructor the
    server-side modules [Register], [ReactRenderer] and [scope] resolve to
    their client versions, with and without the [.js] suffix;
    [registerRouterNodes] resolves to the configured path exactly when one
    is configured (and not empty); every other key keeps its value. *)
Theorem constructor_client_replacements (path : option string)
    (clientReplace : gmap string string) :
  let replaced := client_replacements path clientReplace in
  replaced !! "soya/lib/client/Register" = Some "soya/lib/client/RegisterClient" /\
  replaced !! "soya/lib/client/Register.js" = Some "soya/lib/client/RegisterClient" /\
  replaced !! "soya/lib/page/react/ReactRenderer" =
    Some "soya/lib/page/react/ReactRendererClient" /\
  replaced !! "soya/lib/page/react/ReactRenderer.js" =
    Some "soya/lib/page/react/ReactRendererClient" /\
  replaced !! "soya/lib/scope" = Some "soya/lib/scope-client" /\
  replaced !! "soya/lib/scope.js" = Some "soya/lib/scope-client" /\
  (forall p, path = Some p -> p <> "" ->
     replaced !! "soya/lib/server/registerRouterNodes" = Some p /\
     replaced !! "soya/lib/server/registerRouterNodes.js" = Some p) /\
  (forall key, key ∉ replaced_keys path -> replaced !! key = clientReplace !! key).
Proof.
  cbn zeta. unfold client_replacements.
  assert (Hbase : forall key,
    _addReplace (_addReplace (_addReplace clientReplace
        "soya/lib/client/Register" "soya/lib/client/RegisterClient")
        "soya/lib/page/react/ReactRenderer" "soya/lib/page/react/ReactRendererClient")
        "soya/lib/scope" "soya/lib/scope-client" !! key =
      if bool_decide (key = "soya/lib/scope.js") then Some "soya/lib/scope-client"
      else if bool_decide (key = "soya/lib/scope") then Some "soya/lib/scope-client"
      else if bool_decide (key = "soya/lib/page/react/ReactRenderer.js")
        then Some "soya/lib/page/react/ReactRendererClient"
      else if bool_decide (key = "soya/lib/page/react/ReactRenderer")
        then Some "soya/lib/page/react/ReactRendererClient"
      else if bool_decide (key = "soya/lib/client/Register.js")
        then Some "soya/lib/client/RegisterClient"
      else if bool_decide (key = "soya/lib/client/Register")
        then Some "soya/lib/client/RegisterClient"
      else clientReplace !! key).
  { intros key. by rewrite !addReplace_lookup. }
  assert (Hall : forall key,
    client_replacements path clientReplace !! key =
      match path with
      | Some p =>
          if bool_decide (p = "") then
            _addReplace (_addReplace (_addReplace clientReplace
              "soya/lib/client/Register" "soya/lib/client/RegisterClient")
              "soya/lib/page/react/ReactRenderer" "soya/lib/page/react/ReactRendererClient")
              "soya/lib/scope" "soya/lib/scope-client" !! key
          else if bool_decide (key = "soya/lib/server/registerRouterNodes.js") then Some p
          else if bool_decide (key = "soya/lib/server/registerRouterNodes") then Some p
          else
            _addReplace (_addReplace (_addReplace clientReplace
              "soya/lib/client/Register" "soya/lib/client/RegisterClient")
              "soya/lib/page/react/ReactRenderer" "soya/lib/page/react/ReactRendererClient")
              "soya/lib/scope" "soya/lib/scope-client" !! key
      | None =>
          _addReplace (_addReplace (_addReplace clientReplace
            "soya/lib/client/Register" "soya/lib/client/RegisterClient")
            "soya/lib/page/react/ReactRenderer" "soya/lib/page/react/ReactRendererClient")
            "soya/lib/scope" "soya/lib/scope-client" !! key
      end).
  { intros key. unfold client_replacements.
    destruct path as [p|]; [|done]. destruct (bool_decide (p = "")); [done|].
    by rewrite addReplace_lookup. }
  fold (client_replacements path clientReplace).
  repeat split.
  1-6: rewrite Hall; destruct path as [p|]; [destruct (bool_decide (p = ""))|];
       by rewrite ?Hbase.
  - rewrite Hall. subst path. by rewrite bool_decide_eq_false_2.
  - rewrite Hall. subst path. by rewrite bool_decide_eq_false_2.
  - intros key Hkey. rewrite Hall. unfold replaced_keys in Hkey.
    assert (Hkeys : key ∉ ["soya/lib/client/Register"; "soya/lib/client/Register.js";
              "soya/lib/page/react/ReactRenderer"; "soya/lib/page/react/ReactRenderer.js";
              "soya/lib/scope"; "soya/lib/scope.js"]).
    { intros Hin. apply Hkey. apply elem_of_app. by left. }
    assert (Hb : _addReplace (_addReplace (_addReplace clientReplace
              "soya/lib/client/Register" "soya/lib/client/RegisterClient")
              "soya/lib/page/react/ReactRenderer" "soya/lib/page/react/ReactRendererClient")
              "soya/lib/scope" "soya/lib/scope-client" !! key = clientReplace !! key).
    { rewrite Hbase.
      repeat (rewrite bool_decide_eq_false_2;
              [|intros ->; apply Hkeys; repeat (first [by left | right])]).
      done. }
    destruct path as [p|]; [|done].
    destruct (bool_decide (p = "")) eqn:Hp; [done|].
    rewrite !bool_decide_eq_false_2; [done | |];
      intros ->; apply Hkey; apply elem_of_app; right;
      repeat (first [by left | right]).
Qed.

(** X5: [buildClient] followed by [start] with [precompileClient] set:
    the manifest the compiler reported last is the one the application
    starts with, the server is created at once, without waiting for the
    compiler, and [handle] ends the chain.  Without [precompileClient] the
    manifest on disk is ignored: [start] creates no server and sets no
    compile result. *)
Theorem build_then_start (results : list CompileResult) (compileResult : CompileResult)
    (fs : FileSystem) (app : @Application Heap) (node : Node) :
  last results = Some compileResult ->
  _serverCreated app = false ->
  let started := start (buildClient results fs) app node in
  favicon_ico (buildClient results fs) = favicon_ico fs /\
  _middlewares (fst started) = compiler_run (_compiler app) ++ [SoyaHandle] /\
  if precompileClient (_frameworkConfig app) then
    _compileResult (fst started) = Some compileResult /\
    _serverCreated (fst started) = true /\
    listening (snd started) = listening node ++ [port (_frameworkConfig app)]
  else
    _compileResult (fst started) = _compileResult app /\
    _serverCreated (fst started) = false /\
    listening (snd started) = listening node.
Proof.
  intros Hlast Hcreated. cbn zeta.
  assert (Hbuilt : dep_json (buildClient results fs) = Some compileResult /\
                   favicon_ico (buildClient results fs) = favicon_ico fs).
  { unfold buildClient. revert fs Hlast.
    induction results as [|r rest IH]; intros fs Hlast; [done|].
    cbn. destruct rest as [|r' rest'].
    - cbn. by injection Hlast as ->.
    - destruct (IH (buildClient_onReady r fs)) as [Hdep Hfav]; [done|].
      split; [exact Hdep | by rewrite Hfav]. }
  destruct Hbuilt as [Hdep Hfav]. split; [exact Hfav|].
  unfold start. rewrite Hdep.
  destruct (precompileClient (_frameworkConfig app)); cbn.
  - unfold createServer. cbn. rewrite Hcreated. cbn. done.
  - done.
Qed.

(** X6: every callback of the compiler replaces the compile result, while
    the server of the first callback stays the only one: after any calls
    the application holds the result reported last, its middlewares are
    untouched, and at most one server has been added. *)
Theorem compiled_keeps_last_result (results : list CompileResult)
    (app : @Application Heap) (node : Node) :
  let after := compiled results app node in
  _compileResult (fst after) =
    match last results with Some r => Some r | None => _compileResult app end /\
  _middlewares (fst after) = _middlewares app /\
  _pageClasses (fst after) = _pageClasses app /\
  _serverCreated (fst after) = (_serverCreated app || bool_decide (results <> [])) /\
  listening (snd after) =
    if _serverCreated app || bool_decide (results = []) then listening node
    else listening node ++ [port (_frameworkConfig app)].
Proof.
  cbn zeta. revert app node.
  induction results as [|r rest IH]; intros app node.
  - cbn. rewrite orb_false_r, orb_true_r. done.
  - cbn [compiled]. unfold onReady.
    destruct (createServer (set_compileResult (Some r) app) node) as [app1 node1] eqn:Hcreate.
    destruct (IH app1 node1) as (Hresult & Hmw & Hpages & Hflag & Hlisten).
    unfold createServer in Hcreate. cbn in Hcreate.
    rewrite Hresult, Hmw, Hpages, Hflag, Hlisten.
    rewrite (bool_decide_eq_true_2 (r :: rest <> [])) by done.
    rewrite (bool_decide_eq_false_2 (r :: rest = [])) by done.
    rewrite orb_true_r, orb_false_r.
    destruct (_serverCreated app) eqn:Happ; injection Hcreate as <- <-; cbn;
      rewrite ?Happ; cbn.
    all: split; [|done].
    all: destruct rest as [|r' rest']; [reflexivity|].
    all: change (last (r :: r' :: rest')) with (last (r' :: rest')).
    all: destruct (last (r' :: rest')) eqn:Hnone; [done|].
    all: by apply last_None in Hnone.
Qed.

End BootProperties.

(** * More properties of the server *)

Section RequestProperties.

Import Http Server Boot.

Context {Heap : Type}.

Implicit Types (app : @Application Heap) (w : @World Heap).

(** Reads of a field of a world or response that was just built. *)
Ltac simpl_world :=
  cbn [response heap index jobs log set_response set_heap set_index set_jobs record
       statusCode statusMessage headers headersSent finished _hasBody body
       set_headers set_statusCode set_statusMessage fst snd] in *.

Lemma sync_extends_refl w : sync_extends w w.
Proof. exists []. by rewrite app_nil_r. Qed.

Lemma sync_extends_trans w1 w2 w3 :
  sync_extends w1 w2 -> sync_extends w2 w3 -> sync_extends w1 w3.
Proof.
  intros (r1 & H1 & F1) (r2 & H2 & F2). exists (r1 ++ r2).
  split; [by rewrite H2, H1, app_assoc | by apply Forall_app].
Qed.

Lemma sync_extends_same_log w w' : log w' = log w -> sync_extends w w'.
Proof. intros Hlog. exists []. by rewrite app_nil_r. Qed.

Lemma sync_extends_record (e : Event) w : request_event e -> sync_extends w (record e w).
Proof. intros He. exists [e]. split; [done | by apply Forall_singleton]. Qed.

Lemma sync_only_ret {A : Type} (a : A) : sync_only (Heap:=Heap) (ret a).
Proof. intros w. apply sync_extends_refl. Qed.

Lemma sync_only_throw {A : Type} (e : Value) : sync_only (@throw Heap A e).
Proof. intros w. apply sync_extends_refl. Qed.

Lemma sync_only_lift {A : Type} (r : Result A) : sync_only (@lift Heap A r).
Proof. intros w. apply sync_extends_refl. Qed.

Lemma sync_only_bind {A B : Type} (m : @M Heap A) (k : A -> @M Heap B) :
  sync_only m -> (forall a, sync_only (k a)) -> sync_only (Heap:=Heap) (bind m k).
Proof.
  intros Hm Hk w. unfold bind. specialize (Hm w).
  destruct (m w) as [w1 [a|e]]; [|exact Hm].
  eapply sync_extends_trans; [exact Hm | apply Hk].
Qed.

Lemma sync_only_emit (e : Event) : request_event e -> sync_only (Heap:=Heap) (emit e).
Proof. intros He w. by apply sync_extends_record. Qed.

Lemma sync_only_on_heap {A : Type} (f : Heap -> Heap * A) : sync_only (on_heap f).
Proof.
  intros w. unfold on_heap. destruct (f (heap w)). by apply sync_extends_same_log.
Qed.

Lemma sync_only_update_heap (f : Heap -> Heap) : sync_only (update_heap f).
Proof. intros w. by apply sync_extends_same_log. Qed.

Lemma sync_only_read_heap {A : Type} (f : Heap -> A) : sync_only (read_heap f).
Proof. intros w. apply sync_extends_refl. Qed.

Create HintDb sync_only.
#[local] Hint Resolve sync_only_ret sync_only_throw sync_only_lift sync_only_emit
  sync_only_on_heap sync_only_update_heap sync_only_read_heap : sync_only.
#[local] Hint Extern 1 (request_event _) => exact I : sync_only.

(** One step of showing a call [sync_only]. *)
Ltac sync_only_step :=
  match goal with
  | |- sync_only (bind _ _) => apply sync_only_bind; [|intros ?]
  | |- sync_only (match ?x with _ => _ end) => destruct x
  | |- sync_only (if ?x then _ else _) => destruct x
  | |- sync_only _ => solve [auto with sync_only]
  end.

Lemma sync_only_hydrateThenRender app (routeResult : RouteResult)
    (request : IncomingMessage) (store : option (@Store Heap))
    (cookieJar : @ServerCookieJar Heap) (renderResult : @RenderResult Heap)
    (pageDep : PageDep) :
  sync_only (Heap:=Heap)
    (hydrateThenRender app routeResult request store cookieJar renderResult pageDep).
Proof.
  unfold hydrateThenRender, contentRender.
  apply sync_only_bind; [repeat sync_only_step|].
  intros promise w. by apply sync_extends_same_log.
Qed.

Lemma sync_only_handleRenderResult app (routeResult : RouteResult)
    (request : IncomingMessage) (store : option (@Store Heap))
    (cookieJar : @ServerCookieJar Heap) (renderResult : @RenderResult Heap) :
  sync_only (Heap:=Heap)
    (_handleRenderResult app routeResult request store cookieJar renderResult).
Proof.
  unfold _handleRenderResult.
  repeat first [apply sync_only_hydrateThenRender | sync_only_step].
Qed.

(** [handle] calls no error handler and reads no state: before the promise
    settles it only logs, renders for discovery and calls [hydrate]. *)
Lemma sync_only_handle app (request : IncomingMessage) : sync_only (handle app request).
Proof.
  unfold handle.
  repeat first [apply sync_only_handleRenderResult | sync_only_step].
Qed.



Lemma handler_calls_app (a b : list Event) :
  handler_calls (a ++ b) = handler_calls a ++ handler_calls b.
Proof. unfold handler_calls. apply omap_app. Qed.

Lemma handler_calls_request (events : list Event) :
  Forall request_event events -> handler_calls events = [].
Proof.
  induction 1 as [|e rest He _ IH]; [done|].
  unfold handler_calls in *. cbn. rewrite IH. by destruct e.
Qed.

Lemma run_steps_sync (proceed : @World Heap -> option (@World Heap * Result unit))
    (steps : list MwAction) :
  (forall w w' r, proceed w = Some (w', r) -> sync_extends w w') ->
  forall w w' r, run_steps proceed steps w = Some (w', r) -> sync_extends w w'.
Proof.
  intros Hproceed. induction steps as [|[f| |e] rest IH]; intros w w' r; cbn.
  - intros [= <- _]. apply sync_extends_refl.
  - intros Hrun. eapply sync_extends_trans; [|by eapply IH].
    by apply sync_extends_same_log.
  - destruct (proceed w) as [[w1 [[]|e]]|] eqn:Hp; [| |discriminate].
    + intros Hrun. eapply sync_extends_trans; [by eapply Hproceed | by eapply IH].
    + intros [= <- _]. by eapply Hproceed.
  - intros [= <- _]. apply sync_extends_refl.
Qed.

Lemma runMiddleware_fuel_sync app (request : IncomingMessage) (fuel : nat) :
  forall w w' r, runMiddleware_fuel fuel app request w = Some (w', r) -> sync_extends w w'.
Proof.
  induction fuel as [|fuel IH]; intros w w' r; cbn; [discriminate|].
  assert (Hcall : sync_extends w (set_index (S (index w)) (record EvRunMiddleware w))).
  { exists [EvRunMiddleware]. split; [done | by apply Forall_singleton]. }
  assert (Hinvoke : sync_extends w
            (record (EvInvoke (index w)) (set_index (S (index w)) (record EvRunMiddleware w)))).
  { exists [EvRunMiddleware; EvInvoke (index w)]. simpl_world.
    split; [by rewrite <- app_assoc | by repeat constructor]. }
  destruct (_middlewares app !! index w) as [[steps|]|].
  - intros Hrun. eapply sync_extends_trans; [exact Hinvoke|].
    by eapply (run_steps_sync _ _ IH).
  - intros [= Hrun]. eapply sync_extends_trans; [exact Hinvoke|].
    pose proof (sync_only_handle app request
      (record (EvInvoke (index w)) (set_index (S (index w)) (record EvRunMiddleware w))))
      as Hhandle.
    by rewrite Hrun in Hhandle.
  - by intros [= <- _].
Qed.

(** X9: the domain is the one error boundary of the synchronous part of a
    request.  Whatever the middlewares do, the body of [d.run] returns; an
    error handler is called exactly when the chain throws, once, with the
    value thrown and by the state of the headers at that moment; a chain
    that returns calls none. *)
Theorem domain_is_the_error_boundary app (request : IncomingMessage) w :
  exists w1 r w',
    runMiddleware app request w = Some (w1, r) /\
    in_domain app request w = Some w' /\
    handler_calls (log w') =
      handler_calls (log w) ++
        match r with
        | Ok _ => []
        | Throw e =>
            [if headersSent (response w1) then EvResponseSentError e
             else EvResponseNotSentError e]
        end.
Proof.
  unfold in_domain.
  destruct (runMiddleware_fuel_total app request
              (S (length (_middlewares app) - index w)) w) as (w1 & r & Hrun & _); [lia|].
  pose proof (runMiddleware_fuel_sync app request _ w w1 r Hrun) as (rest & Hlog & Hrest).
  unfold runMiddleware. rewrite Hrun. exists w1, r.
  destruct r as [[]|e].
  - exists w1. split; [done|]. split; [done|].
    by rewrite Hlog, handler_calls_app, (handler_calls_request _ Hrest).
  - eexists. split; [done|]. split; [reflexivity|].
    unfold handleError. destruct (headersSent (response w1)); simpl_world;
      rewrite Hlog, !handler_calls_app, (handler_calls_request _ Hrest), app_nil_r;
      reflexivity.
Qed.

(** ** Fulfilment: failures of the final render and of the response *)

Lemma writeResponse_sent_exact (cookieJar : @ServerCookieJar Heap)
    (renderResult : @RenderResult Heap) (html : JsString) w :
  headersSent (response w) = true ->
  writeResponse cookieJar renderResult html w =
    (set_response (set_statusMessage (httpStatusMessage renderResult)
                     (set_statusCode (httpStatusCode renderResult) (response w))) w,
     Throw (new_Error "Can't set headers after they are sent.")).
Proof.
  intros Hsent. unfold writeResponse.
  erewrite bind_ok by reflexivity. erewrite bind_ok by reflexivity.
  erewrite bind_throw by (apply setHeader_sent; exact Hsent). reflexivity.
Qed.

(** X10: when the final render throws, [catch] hands the error to
    [handleError]: the response is what the error handler makes of the
    response as it was, nothing of the page is written, and the store's
    [_endRender] is not called. *)
Theorem final_render_failure_is_handled app (job : @Job Heap) (e error : Value)
    (h1 : Heap) w :
  contentRenderer (job_renderResult job)
    (render_args app (job_routeResult job) (final_state (job_store job) (heap w))
       (job_pageDep job))
    (final_heap (job_store job) (heap w)) = (h1, Throw e) ->
  _ensureError e = Ok error ->
  let after := fulfilled app job w in
  heap after = h1 /\
  response after =
    (if headersSent (response w) then responseSentError (_errorHandler app)
     else responseNotSentError (_errorHandler app)) error (job_request job) (response w) /\
  log after =
    log w ++ finalRender_events (job_store job) (heap w) ++
      [if headersSent (response w) then EvResponseSentError error
       else EvResponseNotSentError error].
Proof.
  intros Hrender Hens. cbn zeta. unfold fulfilled. rewrite storeResolve_parts. unfold bind.
  pose proof (finalRender_spec app (job_routeResult job) (job_store job)
                (job_renderResult job) (job_pageDep job) w) as Hfinal.
  cbn zeta in Hfinal. unfold final_state, final_heap in Hrender.
  destruct (finalRender _ _ _ _ _ w) as [w1 r1].
  rewrite Hrender in Hfinal. cbn [fst snd] in Hfinal.
  destruct Hfinal as (Hresp & _ & _ & -> & Hlog & Hheap).
  rewrite (caught_ensured _ _ _ _ _ Hens). unfold handleError. rewrite Hresp.
  destruct (headersSent (response w)); simpl_world;
    rewrite Hlog, ?Hresp, <- app_assoc; done.
Qed.

(** X11: when the headers were sent before the promise resolved, the final
    render still runs, but the first [setHeader] throws: nothing of the page
    is written, the status code and message of the render result have
    already been assigned, and [responseSentError] is called with that
    error. *)
Theorem late_response_goes_to_sent_handler app (job : @Job Heap) (html : JsString)
    (h1 : Heap) w :
  contentRenderer (job_renderResult job)
    (render_args app (job_routeResult job) (final_state (job_store job) (heap w))
       (job_pageDep job))
    (final_heap (job_store job) (heap w)) = (h1, Ok html) ->
  headersSent (response w) = true ->
  let after := fulfilled app job w in
  let error := new_Error "Can't set headers after they are sent." in
  response after =
    responseSentError (_errorHandler app) error (job_request job)
      (set_statusMessage (httpStatusMessage (job_renderResult job))
         (set_statusCode (httpStatusCode (job_renderResult job)) (response w))) /\
  log after =
    log w ++ finalRender_events (job_store job) (heap w) ++
      match job_store job with Some _ => [EvEndRender] | None => [] end ++
      [EvResponseSentError error].
Proof.
  intros Hrender Hsent. cbn zeta. unfold fulfilled. rewrite storeResolve_parts. unfold bind.
  pose proof (finalRender_spec app (job_routeResult job) (job_store job)
                (job_renderResult job) (job_pageDep job) w) as Hfinal.
  cbn zeta in Hfinal. unfold final_state, final_heap in Hrender.
  destruct (finalRender _ _ _ _ _ w) as [w1 r1].
  rewrite Hrender in Hfinal. cbn [fst snd] in Hfinal.
  destruct Hfinal as (Hresp & _ & _ & -> & Hlog & Hheap).
  rewrite writeResponse_sent_exact by (by rewrite Hresp).
  rewrite (caught_ensured _ _ _ (new_Error "Can't set headers after they are sent."))
    by reflexivity.
  rewrite handleError_sent by (simpl_world; by rewrite Hresp).
  simpl_world. rewrite Hlog, Hresp, <- !app_assoc. done.
Qed.

Lemma fold_found (name : string) (headerData : list (string * HeaderValue)) :
  forall found : option HeaderValue,
  fold_left (fun found kv => if decide (toLowerCase kv.1 = name) then Some kv.2 else found)
    headerData found =
  match page_header name headerData with Some v => Some v | None => found end.
Proof.
  unfold page_header.
  induction headerData as [|[key value] rest IH]; intros found; cbn; [done|].
  rewrite IH, (IH (if decide (toLowerCase key = name) then Some value else None)).
  destruct (fold_left _ rest None); [done|]. by destruct (decide _).
Qed.

(** X12: a final render that succeeds finishes the response with the
    status code and message of the render result.  Every header of the
    render result is on the response, under the value of its last entry of
    that name; [Set-Cookie] carries the values of the cookie jar whenever
    the jar has any, also over a [Set-Cookie] of the page. *)
Theorem rendered_response_status_and_cookies app (routeResult : RouteResult)
    (store : option (@Store Heap)) (cookieJar : @ServerCookieJar Heap)
    (renderResult : @RenderResult Heap) (pageDep : PageDep) w w' :
  storeResolve app routeResult store cookieJar renderResult pageDep w = (w', Ok tt) ->
  finished (response w) = false ->
  let cookieValues := generateHeaderValues cookieJar (heap w') in
  statusCode (response w') = httpStatusCode renderResult /\
  statusMessage (response w') = httpStatusMessage renderResult /\
  finished (response w') = true /\ headersSent (response w') = true /\
  getHeader "Set-Cookie" (response w') =
    (if (0 <? length cookieValues)%nat then Some (HList cookieValues)
     else match page_header "set-cookie" (httpHeaders renderResult) with
          | Some v => Some v
          | None => getHeader "Set-Cookie" (response w)
          end) /\
  (forall key value,
     page_header (toLowerCase key) (httpHeaders renderResult) = Some value ->
     toLowerCase key <> "set-cookie" \/ cookieValues = [] ->
     getHeader key (response w') = Some value).
Proof.
  intros Hrun Hfin. cbn zeta. rewrite storeResolve_parts in Hrun. unfold bind in Hrun.
  pose proof (finalRender_spec app routeResult store renderResult pageDep w) as Hfinal.
  cbn zeta in Hfinal.
  destruct (finalRender _ _ _ _ _ w) as [w1 [html|e]]; [|discriminate].
  destruct Hfinal as (Hresp & _).
  destruct (headersSent (response w1)) eqn:Hsent.
  { rewrite writeResponse_sent_exact in Hrun by done. discriminate. }
  destruct (writeResponse_not_sent cookieJar renderResult html w1 Hsent)
    as (r & Heq & Hcode & Hmsg & Hheaders & Hend).
  rewrite Heq in Hrun. injection Hrun as <-. simpl_world.
  rewrite Hresp in Hend, Hheaders. destruct (Hend Hfin) as (Hfinished & Hheadersent & _).
  split; [done|]. split; [done|]. split; [done|]. split; [done|].
  unfold getHeader. change (toLowerCase "Set-Cookie") with "set-cookie".
  rewrite Hheaders. cbn zeta. split.
  - destruct (0 <? _)%nat; [by rewrite lookup_insert_eq|].
    erewrite with_headers_lookup by reflexivity. rewrite fold_found.
    by rewrite !lookup_insert_ne by done.
  - intros key value Hpage Hkey.
    assert (Hwith : with_headers (httpHeaders renderResult)
              (<["content-type" := HStr "text/html;charset=UTF-8"]>
                 (<["content-length" := HNum (byteLength html)]> (headers (response w))))
              !! toLowerCase key = Some value).
    { erewrite with_headers_lookup by reflexivity. by rewrite fold_found, Hpage. }
    destruct (0 <? length (generateHeaderValues cookieJar (heap w1)))%nat eqn:Hcookies;
      [|done].
    destruct Hkey as [Hne|Hnil].
    + by rewrite lookup_insert_ne.
    + rewrite Hnil in Hcookies. discriminate.
Qed.

(** X13: a rejection of [hydrate] with a value [_ensureError] can turn into
    an [Error] reaches the error handler once, as that [Error]; with the
    headers not sent it is [responseNotSentError], on the response as it
    was; the page is not rendered. *)
Theorem hydrate_rejection_is_handled app (job : @Job Heap) (reason error : Value)
    (h : Heap) w :
  job_promise job = Rejects reason h ->
  _ensureError reason = Ok error ->
  headersSent (response w) = false ->
  let after := settle app job w in
  heap after = h /\
  response after =
    responseNotSentError (_errorHandler app) error (job_request job) (response w) /\
  log after = log w ++ [EvSettled false; EvResponseNotSentError error].
Proof.
  intros Hpromise Hens Hsent. cbn zeta. unfold settle. rewrite Hpromise.
  rewrite (caught_ensured _ _ _ _ _ Hens).
  rewrite handleError_not_sent by done. simpl_world. by rewrite <- app_assoc.
Qed.

(** X14: [_ensureError] returns nothing but [Error]s: an [Error] is
    returned as it is, a string becomes the message of a new [Error], and
    what it returns it returns again when given it.  It throws only where
    the conversion of the value to a string throws. *)
Theorem ensureError_returns_errors (v : Value) :
  match _ensureError v with
  | Ok error =>
      instanceof_Error error = true /\
      _ensureError error = Ok error /\
      (instanceof_Error v = true -> error = v) /\
      (forall s, v = VString s -> error = new_Error s)
  | Throw e =>
      instanceof_Error v = false /\ typeof_string v = false /\ ToString v = Throw e
  end.
Proof.
  destruct v as [| |[]| | | | |[]]; cbn; repeat split; try done; congruence.
Qed.

(** X15: a [GET] of [/favicon.ico] is answered from the file when it
    exists, with status 200 and type [image/x-icon], without entering the
    middleware chain or touching the heap; when the file does not exist the
    request goes through the chain like any other. *)
Theorem favicon_bypasses_the_chain app (fs : FileSystem) (request : IncomingMessage)
    (h : Heap) :
  method request = "GET" ->
  url request = "/favicon.ico" ->
  (forall file, favicon_ico fs = Some file ->
     exists w, requestListener app fs request h = Some w /\
       statusCode (response w) = 200 /\
       getHeader "Content-Type" (response w) = Some (HStr "image/x-icon") /\
       body (response w) = file /\ finished (response w) = true /\
       log w = [] /\ heap w = h /\ index w = 0 /\ jobs w = []) /\
  (favicon_ico fs = None ->
     requestListener app fs request h =
       match in_domain app request (new_World h) with
       | Some w => Some (drain app w)
       | None => None
       end).
Proof.
  intros Hmethod Hurl.
  assert (Hworld : request_World request h = new_World h).
  { unfold request_World, new_World, new_ServerResponse, new_response.
    by rewrite Hmethod. }
  unfold requestListener. rewrite Hworld, Hmethod, Hurl.
  rewrite !bool_decide_eq_true_2 by done. cbn [andb].
  split.
  - intros file ->. eexists. split; [reflexivity|]. by repeat split.
  - by intros ->.
Qed.

End RequestProperties.

(** * The chain, handler by handler *)

Section ChainProperties.

Import Http Server.

Context {Heap : Type}.

Implicit Types (app : @Application Heap) (w : @World Heap).

(** Reads of a field of a world or response that was just built. *)
Ltac simpl_world :=
  cbn [response heap index jobs log set_response set_heap set_index set_jobs record
       statusCode statusMessage headers headersSent finished _hasBody body
       set_headers set_statusCode set_statusMessage fst snd] in *.

(** ** Requests that [handle] cannot place *)




(** ** What a call of [next] does *)












(** ** The error of a request that cannot be placed *)




End ChainProperties.

(** * More properties of the wrapper component *)

Section WrapperProperties.

Import Connect.

Lemma unsubscribe_keeps (stateName : string) (h : Heap) :
  state (self (unsubscribe stateName h)) = state (self h) /\
  self_id (self (unsubscribe stateName h)) = self_id (self h) /\
  __soyaActions (self (unsubscribe stateName h)) = __soyaActions (self h) /\
  props (self (unsubscribe stateName h)) = props (self h) /\
  __soyaContext (self (unsubscribe stateName h)) = __soyaContext (self h) /\
  segments (reduxStore (unsubscribe stateName h)) = segments (reduxStore h) /\
  queryResult (reduxStore (unsubscribe stateName h)) = queryResult (reduxStore h).
Proof.
  unfold unsubscribe. by destruct (__soyaUnsubscribe (self h) !! stateName).
Qed.

(** What one [subscribe] call leaves as it was, and the slot it fills. *)
Lemma subscribe_keeps (segmentId : string) (query : Query) (stateName : string)
    (hydration : Hydration) (h h' : Heap) :
  subscribe segmentId query stateName hydration h = Ok h' ->
  state (self h') = <[stateName := queryResult (reduxStore h) segmentId query]> (state (self h)) /\
  self_id (self h') = self_id (self h) /\
  __soyaActions (self h') = __soyaActions (self h) /\
  props (self h') = props (self h) /\
  __soyaContext (self h') = __soyaContext (self h) /\
  segments (reduxStore h') = segments (reduxStore h) /\
  queryResult (reduxStore h') = queryResult (reduxStore h).
Proof.
  unfold subscribe, store_subscribe. cbv zeta.
  destruct (unsubscribe_keeps stateName h) as (Hstate & Hid & Hact & Hprops & Hctx & Hseg & Hq).
  rewrite Hseg. destruct (segments (reduxStore h) !! segmentId); [|discriminate].
  intros [= <-]. cbn. by rewrite Hstate, Hid, Hact, Hprops, Hctx, Hq.
Qed.

Lemma run_subscribe_keeps (calls : list SubscribeCall) :
  forall h h' : Heap,
  run_subscribe calls h = Ok h' ->
  self_id (self h') = self_id (self h) /\
  __soyaActions (self h') = __soyaActions (self h) /\
  props (self h') = props (self h) /\
  __soyaContext (self h') = __soyaContext (self h) /\
  segments (reduxStore h') = segments (reduxStore h) /\
  queryResult (reduxStore h') = queryResult (reduxStore h).
Proof.
  induction calls as [|c calls IH]; intros h h'; cbn.
  - by intros [= <-].
  - destruct (subscribe _ _ _ _ h) as [h1|] eqn:Hsub; [|discriminate].
    intros Hrun. destruct (IH _ _ Hrun) as (-> & -> & -> & -> & -> & ->).
    by destruct (subscribe_keeps _ _ _ _ _ _ Hsub) as (_ & -> & -> & -> & -> & -> & ->).
Qed.

Lemma run_subscribe_listeners (calls : list SubscribeCall) :
  forall h h' : Heap,
  no_handles h ->
  run_subscribe calls h = Ok h' ->
  subscriptions (reduxStore h') =
    subscriptions (reduxStore h) ++
      listeners_of (self_id (self h)) (next_handle (reduxStore h)) calls.
Proof.
  induction calls as [|c calls IH]; intros h h' Hno; cbn.
  - intros [= <-]. by rewrite app_nil_r.
  - destruct (subscribe _ _ _ _ h) as [h1|] eqn:Hsub; [|discriminate].
    intros Hrun.
    destruct (subscribe_appends _ _ _ _ _ _ Hno Hsub) as (Hno1 & Hid & Hnext & Hsubs).
    rewrite (IH _ _ Hno1 Hrun), Hsubs, Hid, Hnext, <- app_assoc. done.
Qed.

Lemma owned_listeners_of (consumer first : nat) (calls : list SubscribeCall) :
  filter (fun s => sub_consumer s = consumer) (listeners_of consumer first calls) =
    listeners_of consumer first calls.
Proof.
  revert first. induction calls as [|c calls IH]; intros first; cbn [listeners_of]; [done|].
  rewrite filter_cons_True by done. by rewrite IH.
Qed.

Lemma others_listeners_of (consumer other first : nat) (calls : list SubscribeCall) :
  other <> consumer ->
  filter (fun s => sub_consumer s = other) (listeners_of consumer first calls) = [].
Proof.
  intros Hne. revert first.
  induction calls as [|c calls IH]; intros first; cbn [listeners_of]; [done|].
  rewrite filter_cons_False by (cbn; congruence). apply IH.
Qed.

Lemma not_owned_listeners_of (consumer first : nat) (calls : list SubscribeCall) :
  filter (fun s => sub_consumer s ≠ consumer) (listeners_of consumer first calls) = [].
Proof.
  revert first. induction calls as [|c calls IH]; intros first; cbn [listeners_of]; [done|].
  rewrite filter_cons_False by (cbn; intros Hne; by apply Hne). apply IH.
Qed.

Lemma register_keeps (sc : SegmentClass) (h h' : Heap) :
  _register sc h = Ok h' ->
  self_id (self h') = self_id (self h) /\
  props (self h') = props (self h) /\
  __soyaContext (self h') = __soyaContext (self h) /\
  state (self h') = state (self h) /\
  subscriptions (reduxStore h') = subscriptions (reduxStore h) /\
  next_handle (reduxStore h') = next_handle (reduxStore h) /\
  queryResult (reduxStore h') = queryResult (reduxStore h) /\
  __soyaActions (self h') =
    set_property (seg_id sc) (seg_id sc) (__soyaActions (self h)) /\
  segments (reduxStore h') = <[seg_id sc := seg_def sc]> (segments (reduxStore h)).
Proof.
  unfold _register, store_register.
  destruct (segments (reduxStore h) !! seg_id sc) as [d|] eqn:Hseg.
  - destruct (decide (d = seg_def sc)) as [->|]; [|discriminate].
    intros [= <-]. cbn. rewrite (insert_id (segments (reduxStore h))) by done.
    by repeat split.
  - by intros [= <-].
Qed.

Lemma register_all_keeps (classes : list SegmentClass) :
  forall h h' : Heap,
  register_all classes h = Ok h' ->
  self_id (self h') = self_id (self h) /\
  props (self h') = props (self h) /\
  __soyaContext (self h') = __soyaContext (self h) /\
  state (self h') = state (self h) /\
  subscriptions (reduxStore h') = subscriptions (reduxStore h) /\
  next_handle (reduxStore h') = next_handle (reduxStore h) /\
  queryResult (reduxStore h') = queryResult (reduxStore h).
Proof.
  induction classes as [|sc classes IH]; intros h h'; cbn.
  - by intros [= <-].
  - destruct (_register sc h) as [h1|] eqn:Hreg; [|discriminate].
    intros Hall. destruct (IH _ _ Hall) as (-> & -> & -> & -> & -> & -> & ->).
    by destruct (register_keeps _ _ _ Hreg) as (-> & -> & -> & -> & -> & -> & -> & _).
Qed.


(** After [register_all], every one of the classes is in the store under
    its definition. *)
Lemma register_all_segments (classes : list SegmentClass) :
  forall (h h' : Heap) (sc : SegmentClass),
  register_all classes h = Ok h' ->
  sc ∈ classes ->
  segments (reduxStore h') !! seg_id sc = Some (seg_def sc).
Proof.
  induction classes as [|sc0 classes IH]; intros h h' sc; cbn.
  - intros _ Hin. by apply elem_of_nil in Hin.
  - destruct (_register sc0 h) as [h1|] eqn:Hreg; [|discriminate].
    intros Hall Hin. apply elem_of_cons in Hin as [->|Hin]; [|by eapply IH].
    destruct (register_keeps _ _ _ Hreg) as (_ & _ & _ & _ & _ & _ & _ & _ & Hseg).
    assert (Hhere : segments (reduxStore h1) !! seg_id sc0 = Some (seg_def sc0))
      by (by rewrite Hseg, lookup_insert_eq).
    clear Hreg Hseg IH. revert h1 Hall Hhere.
    induction classes as [|sc1 classes IH]; intros h1; cbn.
    + by intros [= <-].
    + destruct (_register sc1 h1) as [h2|] eqn:Hreg; [|discriminate].
      intros Hall Hhere. apply (IH h2 Hall).
      unfold _register, store_register in Hreg.
      destruct (segments (reduxStore h1) !! seg_id sc1) as [d|] eqn:Hseg.
      * destruct (decide (d = seg_def sc1)); [|discriminate].
        injection Hreg as <-. done.
      * injection Hreg as <-. cbn.
        rewrite lookup_insert_ne; [done|]. intros Heq. rewrite Heq in Hseg. congruence.
Qed.

(** [componentWillMount] as its two steps, the second on the connected
    props of the wrapper as it was. *)
Lemma componentWillMount_steps (rc : ReactComponent) (h h' : Heap) :
  componentWillMount rc h = Ok h' ->
  exists h1,
    register_all (getSegmentDependencies rc) h = Ok h1 /\
    run_subscribe (subscribeQueries rc (connectedProps (self h) (props (self h)))) h1 = Ok h'.
Proof.
  unfold componentWillMount.
  destruct (register_all _ h) as [h1|] eqn:Hreg; [|discriminate].
  intros Hrun. exists h1. split; [done|].
  destruct (register_all_keeps _ _ _ Hreg) as (Hid & Hprops & Hctx & _).
  unfold connectedProps in *. by rewrite <- Hid, <- Hprops, <- Hctx.
Qed.

Lemma componentWillMount_listeners (rc : ReactComponent) (h h' : Heap) :
  no_handles h ->
  componentWillMount rc h = Ok h' ->
  self_id (self h') = self_id (self h) /\
  subscriptions (reduxStore h') =
    subscriptions (reduxStore h) ++
      listeners_of (self_id (self h)) (next_handle (reduxStore h))
        (subscribeQueries rc (connectedProps (self h) (props (self h)))).
Proof.
  intros Hno Hmount. destruct (componentWillMount_steps _ _ _ Hmount) as (h1 & Hreg & Hrun).
  destruct (register_all_keeps _ _ _ Hreg) as (Hid & _ & _ & _ & Hsubs & Hnext & _).
  destruct (run_subscribe_keeps _ _ _ Hrun) as (Hid' & _).
  split; [congruence|].
  rewrite (run_subscribe_listeners _ _ _ (register_all_no_handles rc _ _ _ Hno Hreg) Hrun).
  by rewrite Hsubs, Hid, Hnext.
Qed.

(** X16: mounting registers every segment the component declares and then
    makes the [subscribe] calls of [subscribeQueries] on the connected
    props: the store gets one listener per call, in the order of the calls,
    owned by the wrapper, after the listeners it already had. *)
Theorem mount_subscribes_declared_queries (rc : ReactComponent) (h h' : Heap) :
  no_handles h ->
  componentWillMount rc h = Ok h' ->
  subscriptions (reduxStore h') =
    subscriptions (reduxStore h) ++
      listeners_of (self_id (self h)) (next_handle (reduxStore h))
        (subscribeQueries rc (connectedProps (self h) (props (self h)))) /\
  (forall segmentClass, segmentClass ∈ getSegmentDependencies rc ->
     segments (reduxStore h') !! seg_id segmentClass = Some (seg_def segmentClass)).
Proof.
  intros Hno Hmount. split; [by apply componentWillMount_listeners|].
  intros sc Hin. destruct (componentWillMount_steps _ _ _ Hmount) as (h1 & Hreg & Hrun).
  destruct (run_subscribe_keeps _ _ _ Hrun) as (_ & _ & _ & _ & -> & _).
  by eapply register_all_segments.
Qed.


(** X18: when [componentWillReceiveProps] resubscribes, the listeners the
    wrapper owns afterwards are exactly those of the new [subscribe] calls,
    in their order, whatever it owned before; the listeners of every other
    consumer are as they were. *)
Theorem resubscription_replaces_listeners (rc : ReactComponent) (nextProps : Props)
    (h h' : Heap) :
  no_handles h ->
  shouldSubscriptionsUpdate rc (connectedProps (self h) (props (self h)))
    (connectedProps (self h) nextProps) = true ->
  componentWillReceiveProps rc nextProps h = Ok h' ->
  owned (self_id (self h)) (reduxStore h') =
    listeners_of (self_id (self h)) (next_handle (reduxStore h))
      (subscribeQueries rc (connectedProps (self h) nextProps)) /\
  (forall other, other <> self_id (self h) ->
     owned other (reduxStore h') = owned other (reduxStore h)).
Proof.
  intros Hno Hshould. unfold componentWillReceiveProps. rewrite Hshould.
  intros Hrun. apply run_subscribe_listeners in Hrun; [|done]. cbn in Hrun.
  split.
  - unfold owned. rewrite Hrun, filter_app, owned_listeners_of.
    pose proof (store_unsubscribe_owned (self_id (self h)) (reduxStore h)) as Hnone.
    unfold owned in Hnone. cbn in Hnone. by rewrite Hnone.
  - intros other Hne. unfold owned. rewrite Hrun, filter_app.
    rewrite (others_listeners_of _ _ _ _ Hne), app_nil_r.
    apply (store_unsubscribe_others _ _ _ Hne).
Qed.

(** X19: mounting and then unmounting a wrapper that owned no listener
    leaves the store with the listeners it had before the mount. *)
Theorem mount_then_unmount_restores_listeners (rc : ReactComponent) (h h' : Heap) :
  no_handles h ->
  owned (self_id (self h)) (reduxStore h) = [] ->
  componentWillMount rc h = Ok h' ->
  subscriptions (reduxStore (componentWillUnmount h')) = subscriptions (reduxStore h).
Proof.
  intros Hno Hnone Hmount.
  destruct (componentWillMount_listeners rc h h' Hno Hmount) as (Hid & Hsubs).
  unfold componentWillUnmount. cbn. rewrite Hsubs, Hid, filter_app, not_owned_listeners_of.
  rewrite app_nil_r. unfold owned in Hnone. clear -Hnone.
  induction (subscriptions (reduxStore h)) as [|s subs IH]; [done|].
  destruct (decide (sub_consumer s = self_id (self h))) as [Heq|Hne].
  - by rewrite filter_cons_True in Hnone.
  - rewrite filter_cons_False in Hnone by done.
    rewrite filter_cons_True by done. by rewrite IH.
Qed.

(** C5: when [shouldSubscriptionsUpdate] reports the connected props
    unchanged, [componentWillReceiveProps] leaves the wrapper and the store
    as they are.  When it reports a change, [store.unsubscribe(this)]
    removes every listener the wrapper owns and [subscribeQueries] runs
    again on the new connected props: when its calls have gone through,
    the listeners of the store are those of the other consumers, as they
    were, followed by one new listener for each call, in the order of the
    calls, owned by the wrapper.  Without an override the predicate is the negated shallow
    comparison, so props that are equal key by key keep the subscriptions,
    whichever object carries them. *)
Theorem componentWillReceiveProps_policy (rc : ReactComponent) (nextProps : Props)
    (h : Heap) :
  let consumer := self_id (self h) in
  let connected := connectedProps (self h) (props (self h)) in
  let nextConnected := connectedProps (self h) nextProps in
  let calls := subscribeQueries rc nextConnected in
  (shouldSubscriptionsUpdate rc connected nextConnected = false ->
     componentWillReceiveProps rc nextProps h = Ok h) /\
  (shouldSubscriptionsUpdate rc connected nextConnected = true ->
     forall h', no_handles h ->
       componentWillReceiveProps rc nextProps h = Ok h' ->
       subscriptions (reduxStore h') =
         filter (fun s => sub_consumer s ≠ consumer) (subscriptions (reduxStore h)) ++
           listeners_of consumer (next_handle (reduxStore h)) calls /\
       owned consumer (reduxStore h') =
         listeners_of consumer (next_handle (reduxStore h)) calls /\
       (forall other, other <> consumer ->
          owned other (reduxStore h') = owned other (reduxStore h))) /\
  (rc_shouldSubscriptionsUpdate rc = None ->
     shouldSubscriptionsUpdate rc connected nextConnected =
       negb (isEqualShallow connected nextConnected)) /\
  (rc_shouldSubscriptionsUpdate rc = None -> nextProps = props (self h) ->
     componentWillReceiveProps rc nextProps h = Ok h).
Proof.
  cbn zeta. unfold componentWillReceiveProps.
  split; [|split; [|split]].
  - by intros ->.
  - intros ->. intros h' Hno Hrun. apply run_subscribe_listeners in Hrun; [|done]. cbn in Hrun.
    split; [exact Hrun|]. split.
    + unfold owned. rewrite Hrun, filter_app, owned_listeners_of.
      pose proof (store_unsubscribe_owned (self_id (self h)) (reduxStore h)) as Hnone.
      unfold owned in Hnone. cbn in Hnone. by rewrite Hnone.
    + intros other Hne. unfold owned. rewrite Hrun, filter_app.
      rewrite (others_listeners_of _ _ _ _ Hne), app_nil_r.
      apply (store_unsubscribe_others _ _ _ Hne).
  - unfold shouldSubscriptionsUpdate. by intros ->.
  - unfold shouldSubscriptionsUpdate. intros -> ->. cbn.
    unfold defaultShouldSubcriptionsUpdate.
    by rewrite isEqualShallow_connectedProps.
Qed.

(** X20: after a run of [subscribe] calls, each slot of the wrapper's
    state named by a call holds the query result of the last call that
    names it; every other slot is as it was. *)
Theorem subscribed_state_holds_last_result (calls : list SubscribeCall) (h h' : Heap)
    (stateName : string) :
  run_subscribe calls h = Ok h' ->
  state (self h') !! stateName =
    match last_call stateName calls with
    | Some c => Some (queryResult (reduxStore h) (call_segmentId c) (call_query c))
    | None => state (self h) !! stateName
    end.
Proof.
  revert h. induction calls as [|c calls IH]; intros h; cbn [run_subscribe].
  - by intros [= <-].
  - destruct (subscribe _ _ _ _ h) as [h1|] eqn:Hsub; [|discriminate].
    intros Hrun. rewrite (IH _ Hrun).
    destruct (subscribe_keeps _ _ _ _ _ _ Hsub) as (Hstate & _ & _ & _ & _ & _ & Hq).
    rewrite Hq, Hstate. unfold last_call.
    destruct (decide (call_stateName c = stateName)) as [Heq|Hne].
    + rewrite (filter_cons_True _ c calls) by done. rewrite last_cons.
      destruct (last (filter _ calls)); [done|]. by rewrite Heq, lookup_insert_eq.
    + rewrite (filter_cons_False _ c calls) by done.
      destruct (last (filter _ calls)); [done|]. by rewrite lookup_insert_ne.
Qed.

Lemma connectedProps_lookup (w : Wrapper) (p : Props) (key : string) :
  key ∉ wrapper_keys -> connectedProps w p !! key = p !! key.
Proof.
  unfold wrapper_keys, connectedProps. rewrite !not_elem_of_cons.
  intros (? & ? & ? & ? & ? & _). by rewrite !lookup_insert_ne by done.
Qed.

Lemma connectedProps_agree (w : Wrapper) (p q : Props) :
  connectedProps w p = connectedProps w q <->
  forall key, key ∉ wrapper_keys -> p !! key = q !! key.
Proof.
  split.
  - intros Heq key Hkey.
    rewrite <- (connectedProps_lookup w p key Hkey), <- (connectedProps_lookup w q key Hkey).
    by rewrite Heq.
  - intros Hagree. apply map_eq. intros key.
    destruct (decide (key ∈ wrapper_keys)) as [Hin|Hnot].
    + unfold wrapper_keys in Hin. rewrite !elem_of_cons, elem_of_nil in Hin.
      unfold connectedProps.
      destruct Hin as [->|[->|[->|[->|[->|[]]]]]];
        repeat first [rewrite lookup_insert_eq | rewrite lookup_insert_ne by done]; done.
    + rewrite !connectedProps_lookup by done. by apply Hagree.
Qed.

(** X21: without an override of [shouldSubscriptionsUpdate], the wrapper
    keeps its subscriptions exactly when the next props agree with the
    current ones on every key but those [connectedProps] sets itself
    ([getActionCreator], [context], [result], [getReduxStore],
    [getConfig]); what the owner passes under those five names plays no
    part. *)
Theorem default_policy_ignores_wrapper_keys (rc : ReactComponent) (nextProps : Props)
    (h : Heap) :
  rc_shouldSubscriptionsUpdate rc = None ->
  (shouldSubscriptionsUpdate rc (connectedProps (self h) (props (self h)))
     (connectedProps (self h) nextProps) = false <->
   forall key, key ∉ wrapper_keys -> props (self h) !! key = nextProps !! key) /\
  ((forall key, key ∉ wrapper_keys -> props (self h) !! key = nextProps !! key) ->
   componentWillReceiveProps rc nextProps h = Ok h).
Proof.
  intros Hnone.
  assert (Hiff : shouldSubscriptionsUpdate rc (connectedProps (self h) (props (self h)))
            (connectedProps (self h) nextProps) = false <->
          forall key, key ∉ wrapper_keys -> props (self h) !! key = nextProps !! key).
  { unfold shouldSubscriptionsUpdate. rewrite Hnone. cbn.
    unfold defaultShouldSubcriptionsUpdate, isEqualShallow.
    rewrite negb_false_iff, bool_decide_eq_true. apply connectedProps_agree. }
  split; [done|]. intros Hagree. unfold componentWillReceiveProps.
  by rewrite (proj2 Hiff Hagree).
Qed.

End WrapperProperties.

Section WiringProperties.

Import Wiring.

(** X22: the outcomes of the wrapper's constructor.  It succeeds exactly
    with a store value that carries [__isReduxStore] and a config that is an
    object, both found in [props.context], or in [context.context] when
    there is no [props.context]; it warns when the store came from the old
    [reduxStore] property.  A missing store or config is reported by
    [getReduxStore] or [getConfig] as a context that is not wired; the
    constructor's own two errors are left for a store without the flag and
    a config that is not an object. *)
Theorem constructor_outcomes (connectId componentText : string)
    (props_context context_context : option Context) :
  let context := chosen_context props_context context_context in
  match constructor connectId componentText props_context context_context with
  | Ok wired =>
      wired_context wired = context /\
      found_store context = Some (wired_store wired) /\
      __isReduxStore (wired_store wired) = true /\
      found_config context = Some (wired_config wired) /\
      config_is_object (wired_config wired) = true /\
      (warned wired = true <-> exists c, context = Some c /\ store c = None)
  | Throw e =>
      (e = new_Error ("Context not properly wired to: " +:+ connectId +:+ ".") /\
       (found_store context = None \/ found_config context = None)) \/
      (e = new_Error ("ReduxStore is not properly wired to this data component: "
                      +:+ componentText +:+ ".") /\
       exists st, found_store context = Some st /\ __isReduxStore st = false /\
                  is_Some (found_config context)) \/
      (e = new_Error ("Config object is not properly wired to this data component: "
                      +:+ componentText +:+ ".") /\
       exists st c, found_store context = Some st /\ __isReduxStore st = true /\
                    found_config context = Some c /\ config_is_object c = false)
  end.
Proof.
  cbn zeta. unfold constructor. fold (chosen_context props_context context_context).
  destruct (chosen_context props_context context_context) as [c|]; cbn;
    [|left; split; [done|by left]].
  destruct c as [[st|] [old|] [cfg|]]; cbn;
    try (left; split; [done|]; (by left) || (by right)).
  - destruct (__isReduxStore st) eqn:Hflag; cbn.
    + destruct (config_is_object cfg) eqn:Hobj; cbn.
      * repeat split; try done. by intros (c & [= <-] & ?).
      * right. right. split; [done|]. by exists st, cfg.
    + right. left. split; [done|]. exists st. by repeat split.
  - destruct (__isReduxStore st) eqn:Hflag; cbn.
    + destruct (config_is_object cfg) eqn:Hobj; cbn.
      * repeat split; try done. by intros (c & [= <-] & ?).
      * right. right. split; [done|]. by exists st, cfg.
    + right. left. split; [done|]. exists st. by repeat split.
  - destruct (__isReduxStore old) eqn:Hflag; cbn.
    + destruct (config_is_object cfg) eqn:Hobj; cbn.
      * repeat split; try done. intros _. by eexists.
      * right. right. split; [done|]. by exists old, cfg.
    + right. left. split; [done|]. exists old. by repeat split.
Qed.

End WiringProperties.

(** * Properties of the client registration *)

Section ClientProperties.

Import Client.

Lemma register_each_running (pageClasses : list string) :
  forall (window : Window) (client : SoyaClient),
  __soyaClient window = Some client ->
  __soyaClient (register_each pageClasses window) =
    Some {| client_config := client_config client;
            client_calls := client_calls client ++ map Register pageClasses |}.
Proof.
  unfold register_each.
  induction pageClasses as [|pageClass rest IH]; intros window client Hclient; cbn.
  - rewrite app_nil_r. by destruct client.
  - erewrite IH; [|unfold register; rewrite Hclient; reflexivity].
    cbn. by rewrite <- app_assoc.
Qed.

(** X23: of the page classes registered on a window without a client, the
    first creates the client from [window.config], gives it the route
    configuration, is registered and navigated to with
    [window.routeArgs]; every later one is only registered.  No other
    call is made on the client. *)
Theorem first_registration_starts_the_client (pageClass : string) (rest : list string)
    (window : Window) :
  __soyaClient window = None ->
  __soyaClient (register_each (pageClass :: rest) window) =
    Some {| client_config := config window;
            client_calls :=
              [AddRouteConfig (routes window); Register pageClass;
               Navigate pageClass (routeArgs window)] ++ map Register rest |}.
Proof.
  intros Hnone. unfold register_each. cbn [foldl].
  fold (register_each rest (register pageClass window)).
  erewrite register_each_running; [|unfold register; rewrite Hnone; reflexivity]. done.
Qed.

(** X24: however often the body of RegisterClientHot.js is evaluated, the
    hot client is loaded at most once, and not at all when
    [window.__hotReload] was already set. *)
Theorem hot_client_loaded_once (n : nat) (window : Window) :
  hot_loads (Nat.iter n load_hot window) =
    (hot_loads window +
     (if __hotReload window then 0 else if decide (n = 0) then 0 else 1))%nat /\
  (n <> 0 -> __hotReload (Nat.iter n load_hot window) = true).
Proof.
  assert (Hset : forall w, __hotReload w = true -> forall m, Nat.iter m load_hot w = w).
  { intros w Hw. induction m as [|m IH]; [done|].
    rewrite Nat.iter_succ, IH. unfold load_hot. by rewrite Hw. }
  destruct n as [|n].
  - change (Nat.iter 0 load_hot window) with window. split; [|done].
    destruct (__hotReload window); try destruct (decide _); cbn; lia.
  - assert (Hafter : __hotReload (load_hot window) = true).
    { unfold load_hot. destruct (__hotReload window) eqn:Hflag; [exact Hflag|done]. }
    rewrite Nat.iter_succ_r, (Hset _ Hafter). split; [|done].
    unfold load_hot. destruct (__hotReload window); try destruct (decide _); cbn; lia.
Qed.

End ClientProperties.

(** * The properties on the small site *)

Section SiteScenarios.

Import Http Server Boot Examples SiteBoot.


(** A page name that is no page but a member of [Object.prototype]: the
    error is the [TypeError] of instantiating it, handled like the other
    two. *)
Example inherited_name_is_not_a_page :
  exists w, requestListener misrouted_site site_fs (get "/") site_heap = Some w /\
    log w = [EvRunMiddleware; EvInvoke 0; EvRunMiddleware; EvInvoke 1;
             EvResponseNotSentError (new_TypeError "pageClass is not a constructor")] /\
    statusCode (response w) = 500.
Proof. eexists. split; [vm_compute; reflexivity|]. split; reflexivity. Qed.



(** The registry of the site: one entry point per page, in order. *)
Lemma constructor_registry_witness :
  _entryPoints site_registry =
    [{| entry_name := "home"; entry_absDir := "/site/pages/home" |};
     {| entry_name := "about"; entry_absDir := "/site/pages/about" |}] /\
  page_classes site_registry !! "contact" = None.
Proof.
  destruct (constructor_registry site_routes site_components site_registry eq_refl)
    as (Hentries & _ & Hothers).
  split; [exact Hentries|].
  apply (Hothers "contact"). intros pageCmpt Hin Hname.
  apply elem_of_cons in Hin as [->|Hin]; [discriminate|].
  apply list_elem_of_singleton in Hin as ->. discriminate.
Defined.

(** With the broken page between the two, construction stops at its
    unknown route. *)
Lemma constructor_first_failure_witness :
  registerPages site_routes ([home_component] ++ broken_component :: [about_component])
    empty_Registry =
    Throw (new_Error "Page broken has dependencies to unknown route: missing.").
Proof.
  assert (Hbefore : Forall (component_ok site_routes) [home_component]).
  { apply Forall_singleton. split; [reflexivity|].
    apply Forall_singleton. by eexists. }
  destruct (constructor_first_failure site_routes [home_component] [about_component]
              broken_component empty_Registry Hbefore) as (_ & Hroute).
  apply (Hroute ["home"] "missing" [] eq_refl eq_refl); [|reflexivity].
  apply Forall_singleton. by eexists.
Defined.

(** The precompiled site listens right after the build. *)
Lemma build_then_start_witness :
  let started := start (buildClient [site_compileResult] site_fs) precompiled_site
                   {| listening := [] |} in
  _compileResult (fst started) = Some site_compileResult /\
  listening (snd started) = [3000].
Proof.
  pose proof (build_then_start [site_compileResult] site_compileResult site_fs
                precompiled_site {| listening := [] |} eq_refl eq_refl) as Hstart.
  cbv zeta in *. destruct Hstart as (_ & _ & Hcompiled & _ & Hlisten).
  split; [exact Hcompiled|exact Hlisten].
Defined.



(** The renderer of the about page throws a string. *)
Lemma final_render_failure_is_handled_witness :
  let after := fulfilled site (about_job failing_renderResult (Resolves site_heap))
                 new_site_world in
  statusCode (response after) = 500 /\
  log after = [EvRender None; EvResponseNotSentError (new_Error "render failed")].
Proof.
  pose proof (final_render_failure_is_handled site
                (about_job failing_renderResult (Resolves site_heap))
                (VString "render failed") (new_Error "render failed") site_heap
                new_site_world eq_refl eq_refl) as Hhandled.
  cbv zeta in *. destruct Hhandled as (_ & Hresponse & Hlog).
  split; [by rewrite Hresponse|exact Hlog].
Defined.

(** The about page resolves after the response was ended. *)
Lemma late_response_goes_to_sent_handler_witness :
  log (fulfilled site (about_job (site_renderResult []) (Resolves site_heap)) sent_world) =
    [EvRender None;
     EvResponseSentError (new_Error "Can't set headers after they are sent.")].
Proof.
  pose proof (late_response_goes_to_sent_handler site
                (about_job (site_renderResult []) (Resolves site_heap))
                (code_units "<p></p>") {| requested := true; count := None |}
                sent_world eq_refl eq_refl) as Hlate.
  cbv zeta in Hlate. destruct Hlate as (_ & Hlog). exact Hlog.
Defined.

(** The api page with a session cookie. *)
Lemma rendered_response_status_and_cookies_witness :
  exists w',
    storeResolve (fst running_site) (route_to "api") None session_cookieJar
      (site_renderResult [("Content-Type", HStr "application/json")]) "api.js"
      new_site_world = (w', Ok tt) /\
    statusCode (response w') = 200 /\
    getHeader "Set-Cookie" (response w') = Some (HList ["sid=1"]) /\
    getHeader "Content-Type" (response w') = Some (HStr "application/json").
Proof.
  destruct (storeResolve (fst running_site) (route_to "api") None session_cookieJar
              (site_renderResult [("Content-Type", HStr "application/json")]) "api.js"
              new_site_world) as [w' r] eqn:Hrun.
  assert (Hr : r = Ok tt) by (vm_compute in Hrun; by injection Hrun as _ <-).
  subst r.
  pose proof (rendered_response_status_and_cookies (fst running_site) (route_to "api") None
                session_cookieJar
                (site_renderResult [("Content-Type", HStr "application/json")]) "api.js"
                new_site_world w' Hrun eq_refl) as Hrendered.
  cbv zeta in Hrendered.
  destruct Hrendered as (Hcode & _ & _ & _ & Hcookie & Hpage).
  exists w'. split; [reflexivity|]. split; [exact Hcode|]. split; [exact Hcookie|].
  apply Hpage; [reflexivity|]. left. discriminate.
Defined.

(** Hydration of the about page rejects with a string. *)
Lemma hydrate_rejection_is_handled_witness :
  let after := settle site (about_job (site_renderResult [])
                              (Rejects (VString "boom") site_heap)) new_site_world in
  statusCode (response after) = 500 /\
  log after = [EvSettled false; EvResponseNotSentError (new_Error "boom")].
Proof.
  pose proof (hydrate_rejection_is_handled site
                (about_job (site_renderResult []) (Rejects (VString "boom") site_heap))
                (VString "boom") (new_Error "boom") site_heap new_site_world
                eq_refl eq_refl eq_refl) as Hhandled.
  cbv zeta in *. destruct Hhandled as (_ & Hresponse & Hlog).
  split; [by rewrite Hresponse|exact Hlog].
Defined.

(** The favicon of the site, when there is one. *)
Lemma favicon_bypasses_the_chain_witness :
  exists w,
    requestListener (fst running_site) icon_fs (get "/favicon.ico") site_heap = Some w /\
    statusCode (response w) = 200 /\ body (response w) = code_units "icon" /\ log w = [].
Proof.
  destruct (favicon_bypasses_the_chain (fst running_site) icon_fs (get "/favicon.ico")
              site_heap eq_refl eq_refl) as (Hfile & _).
  destruct (Hfile (code_units "icon") eq_refl)
    as (w & Hrun & Hcode & _ & Hbody & _ & Hlog & _).
  exists w. split; [exact Hrun|]. split; [exact Hcode|]. split; [exact Hbody|exact Hlog].
Defined.

End SiteScenarios.

Section WrapperScenarios.

Import Connect Examples SiteBoot.

(** The policy on the mounted todo list: the same filter in a new props
    object keeps the subscription; another filter replaces the listener the
    wrapper owned by the one for the new query. *)
Lemma componentWillReceiveProps_policy_witness :
  componentWillReceiveProps TodoList {["filter" := PPrim "all"]} mounted_heap =
    Ok mounted_heap /\
  componentWillReceiveProps TodoList {["filter" := PPrim "done"]} mounted_heap =
    Ok refiltered_heap /\
  subscriptions (reduxStore refiltered_heap) =
    [{| sub_handle := 1; sub_consumer := 1; sub_segment := "todo"; sub_query := "done";
        sub_slot := "items"; sub_hydration := "" |}].
Proof.
  split.
  - destruct (componentWillReceiveProps_policy TodoList {["filter" := PPrim "all"]}
                mounted_heap) as (Hsame & _).
    apply Hsame. vm_compute. reflexivity.
  - assert (Hrun : componentWillReceiveProps TodoList {["filter" := PPrim "done"]}
              mounted_heap = Ok refiltered_heap) by (vm_compute; reflexivity).
    split; [exact Hrun|].
    destruct (componentWillReceiveProps_policy TodoList {["filter" := PPrim "done"]}
                mounted_heap) as (_ & Hchanged & _).
    destruct (Hchanged ltac:(vm_compute; reflexivity) refiltered_heap eq_refl Hrun)
      as (Hsubs & _).
    exact Hsubs.
Defined.

(** Mounting the todo list adds its one listener. *)
Lemma mount_subscribes_declared_queries_witness :
  subscriptions (reduxStore mounted_heap) =
    [{| sub_handle := 0; sub_consumer := 1; sub_segment := "todo"; sub_query := "all";
        sub_slot := "items"; sub_hydration := "" |}] /\
  segments (reduxStore mounted_heap) !! "todo" = Some 0.
Proof.
  destruct (mount_subscribes_declared_queries TodoList todo_heap mounted_heap
              eq_refl eq_refl) as (Hsubs & Hsegments).
  split; [exact Hsubs|].
  apply (Hsegments {| seg_id := "todo"; seg_def := 0 |}). apply list_elem_of_here.
Defined.


(** After the change of filter the todo list owns the new listener only. *)
Lemma resubscription_replaces_listeners_witness :
  owned 1 (reduxStore refiltered_heap) =
    [{| sub_handle := 1; sub_consumer := 1; sub_segment := "todo"; sub_query := "done";
        sub_slot := "items"; sub_hydration := "" |}].
Proof.
  assert (Hshould : shouldSubscriptionsUpdate TodoList
            (connectedProps (self mounted_heap) (props (self mounted_heap)))
            (connectedProps (self mounted_heap) {["filter" := PPrim "done"]}) = true)
    by (vm_compute; reflexivity).
  assert (Hrun : componentWillReceiveProps TodoList {["filter" := PPrim "done"]}
            mounted_heap = Ok refiltered_heap)
    by (vm_compute; reflexivity).
  destruct (resubscription_replaces_listeners TodoList {["filter" := PPrim "done"]}
              mounted_heap refiltered_heap eq_refl Hshould Hrun) as (Howned & _).
  exact Howned.
Defined.

(** Unmounting the todo list leaves the store without listeners again. *)
Lemma mount_then_unmount_restores_listeners_witness :
  subscriptions (reduxStore (componentWillUnmount mounted_heap)) = [].
Proof.
  exact (mount_then_unmount_restores_listeners TodoList todo_heap mounted_heap
           eq_refl eq_refl eq_refl).
Defined.

(** Two subscriptions to the slot [items]: the state holds the result of
    the second. *)
Lemma subscribed_state_holds_last_result_witness :
  exists h',
    run_subscribe
      [{| call_segmentId := "todo"; call_query := "all"; call_stateName := "items";
          call_hydration := "" |};
       {| call_segmentId := "todo"; call_query := "done"; call_stateName := "items";
          call_hydration := "" |}] todo_heap = Ok h' /\
    state (self h') !! "items" = Some "todo/done" /\
    state (self h') !! "users" = None.
Proof.
  destruct (run_subscribe _ todo_heap) as [h'|e] eqn:Hrun;
    [|vm_compute in Hrun; discriminate].
  exists h'. split; [reflexivity|]. split.
  - exact (subscribed_state_holds_last_result _ todo_heap h' "items" Hrun).
  - exact (subscribed_state_holds_last_result _ todo_heap h' "users" Hrun).
Defined.

(** A [context] prop passed by the owner does not make the todo list
    resubscribe. *)
Lemma default_policy_ignores_wrapper_keys_witness :
  componentWillReceiveProps TodoList
    (<["context" := PRef 99]> {["filter" := PPrim "all"]}) mounted_heap =
    Ok mounted_heap.
Proof.
  destruct (default_policy_ignores_wrapper_keys TodoList
              (<["context" := PRef 99]> {["filter" := PPrim "all"]}) mounted_heap
              eq_refl) as (_ & Hkeep).
  apply Hkeep. intros key Hkey.
  change (props (self mounted_heap)) with ({["filter" := PPrim "all"]} : Props).
  rewrite lookup_insert_ne; [reflexivity|].
  intros <-. apply Hkey. unfold wrapper_keys.
  apply list_elem_of_further, list_elem_of_here.
Defined.

(** Two pages register on a fresh window. *)
Lemma first_registration_starts_the_client_witness :
  Client.__soyaClient (register_each ["Home"; "About"] fresh_window) =
    Some {| Client.client_config := "{}";
            Client.client_calls :=
              [Client.AddRouteConfig "[]"; Client.Register "Home";
               Client.Navigate "Home" "{}"; Client.Register "About"] |}.
Proof.
  exact (first_registration_starts_the_client "Home" ["About"] fresh_window eq_refl).
Defined.

End WrapperScenarios.

